(** * rmlint: the command line front end ([src/cmdline.c])

    A shallow embedding of the option parser and of the orchestrator of
    rmlint, with the properties its specification states about them.

    - C strings are [string]s; [char] values are [ascii].
    - [RmOff] is an unsigned 64 bit integer, carried as a [Z].
    - [long double] and [double] values are kept abstract (class
      [FloatOps]): the results below hold for every implementation of the
      floating point operations that obeys [FloatLaws], the numeric ones
      for every implementation that is exact on integers up to [2 ^ 53]
      ([FloatExact]); [ExactFloat] gives one with exact rational
      arithmetic, on which the examples are evaluated.
    - Functions of libc, GLib and of the other modules of rmlint are
      either written out from their documentation or taken from an
      environment [Env]. *)

From Stdlib Require Import ZArith List String Ascii Bool Lia QArith Qround.
Import ListNotations.

Local Open Scope string_scope.
Local Open Scope Z_scope.

(** ** Characters and C strings *)

Definition char_code (c : ascii) : Z := Z.of_N (N_of_ascii c).

(** [isalpha] in the C locale. *)
Definition isalpha (c : ascii) : bool :=
  let n := char_code c in
  ((65 <=? n) && (n <=? 90)) || ((97 <=? n) && (n <=? 122)).

(** [tolower] in the C locale, as an [int]. *)
Definition tolower (c : ascii) : Z :=
  let n := char_code c in
  if (65 <=? n) && (n <=? 90) then n + 32 else n.

(** GLib's [g_ascii_isspace]: space, tab, line feed, form feed and
    carriage return. *)
Definition g_ascii_isspace (c : ascii) : bool :=
  let n := char_code c in
  (n =? 32) || (n =? 9) || (n =? 10) || (n =? 12) || (n =? 13).

(** [strcasecmp]: the difference of the first pair of lowered characters
    that differ, the end of a string counting as the character 0. *)
Fixpoint strcasecmp (s1 s2 : string) : Z :=
  match s1, s2 with
  | EmptyString, EmptyString => 0
  | EmptyString, String c2 _ => 0 - tolower c2
  | String c1 _, EmptyString => tolower c1
  | String c1 r1, String c2 r2 =>
      let d := tolower c1 - tolower c2 in
      if d =? 0 then strcasecmp r1 r2 else d
  end.

(** [*s]: the first character of [s], the character 0 at its end. *)
Definition deref (s : string) : ascii :=
  match s with
  | String c _ => c
  | EmptyString => zero
  end.

(** [strncmp (s, lit, strlen (lit)) == 0]: [lit] is a prefix of [s]. *)
Definition strncmp_eq0 (s lit : string) : bool := String.prefix lit s.

(** [strchr (s, c) != NULL]. *)
Fixpoint strchr (s : string) (c : ascii) : bool :=
  match s with
  | EmptyString => false
  | String a r => Ascii.eqb a c || strchr r c
  end.

Fixpoint drop (n : nat) (s : string) : string :=
  match n, s with
  | O, _ => s
  | S _, EmptyString => EmptyString
  | S n', String _ r => drop n' r
  end.

(** [g_strchug]: drop the leading white space. *)
Fixpoint g_strchug (s : string) : string :=
  match s with
  | EmptyString => EmptyString
  | String c r => if g_ascii_isspace c then g_strchug r else s
  end.

(** [g_strchomp]: drop the trailing white space. *)
Fixpoint g_strchomp (s : string) : string :=
  match s with
  | EmptyString => EmptyString
  | String c r =>
      match g_strchomp r with
      | EmptyString => if g_ascii_isspace c then EmptyString else String c EmptyString
      | r' => String c r'
      end
  end.

Definition g_strstrip (s : string) : string := g_strchomp (g_strchug s).

Definition G_MAXINT : Z := 2 ^ 31 - 1.

(** [g_strsplit (s, d, max_tokens)] for a delimiter of one character:
    the first token and the tokens after it, when at most [n] tokens may
    still be produced. *)
Fixpoint g_strsplit_from (s : string) (d : ascii) (n : Z) : string * list string :=
  match s with
  | EmptyString => (EmptyString, [])
  | String c r =>
      if Ascii.eqb c d && (1 <? n)
      then let (t, ts) := g_strsplit_from r d (n - 1) in (EmptyString, t :: ts)
      else let (t, ts) := g_strsplit_from r d n in (String c t, ts)
  end.

(** The empty string splits into the empty vector; [max_tokens < 1] means
    no limit (GLib takes [G_MAXINT]). *)
Definition g_strsplit (s : string) (d : ascii) (max_tokens : Z) : list string :=
  match s with
  | EmptyString => []
  | _ => let (t, ts) :=
           g_strsplit_from s d (if max_tokens <? 1 then G_MAXINT else max_tokens)
         in t :: ts
  end.

(** A double quote, for the messages. *)
Definition dquote : string := String (ascii_of_nat 34) EmptyString.

(** [strtok (buf, "\n")] on a fresh buffer: the first run of characters
    other than line feed, [None] (NULL) when there is none. *)
Definition newline : ascii := ascii_of_nat 10.

Fixpoint strtok_take (s : string) : string :=
  match s with
  | EmptyString => EmptyString
  | String c r => if Ascii.eqb c newline then EmptyString else String c (strtok_take r)
  end.

Fixpoint strtok_nl (s : string) : option string :=
  match s with
  | EmptyString => None
  | String c r => if Ascii.eqb c newline then strtok_nl r else Some (strtok_take s)
  end.

(** ** Numbers *)

Definition RmOff_MAX : Z := 2 ^ 64 - 1.

(** [G_MAXULONG] where [unsigned long] has 64 bits. *)
Definition G_MAXULONG : Z := 2 ^ 64 - 1.

(** [PATH_MAX] of <linux/limits.h>. *)
Definition PATH_MAX : Z := 4096.

Definition EXIT_SUCCESS : Z := 0.
Definition EXIT_FAILURE : Z := 1.

(** [CLAMP (x, low, high)] of GLib. *)
Definition CLAMP (x low high : Z) : Z :=
  if high <? x then high else if x <? low then low else x.

(** Floating point: the operations [cmdline.c] uses on [long double] and
    [double] values, and the two parsers of libc and GLib.  [strtold] and
    [g_strtod] return the value and the number of characters they
    consumed (the distance of the end pointer from the start). *)
Class FloatOps (F : Type) : Type := {
  fl_of_Z : Z -> F;
  fl_eqb : F -> F -> bool;
  fl_ltb : F -> F -> bool;
  fl_leb : F -> F -> bool;
  fl_mul : F -> F -> F;
  fl_div : F -> F -> F;
  pow : F -> F -> F;
  round : F -> F;
  (** conversion of a floating value to [RmOff] *)
  fl_to_RmOff : F -> Z;
  strtold : string -> F * nat;
  g_strtod : string -> F * nat
}.

(** What the properties below rely on. *)
Class FloatLaws (F : Type) {FO : FloatOps F} : Prop := {
  fl_to_RmOff_range : forall x, 0 <= fl_to_RmOff x <= RmOff_MAX;
  (** "If no conversion is performed, zero is returned." *)
  strtold_no_conversion :
    forall s, snd (strtold s) = O -> fl_eqb (fst (strtold s)) (fl_of_Z 0) = true;
  (** the end pointer stays inside the string *)
  strtold_consumed : forall s, (snd (strtold s) <= String.length s)%nat
}.

(** Every integer up to [2 ^ 53] in magnitude is a [double], and so a
    [long double]. *)
Definition EXACT_MAX : Z := 2 ^ 53.

(** The operations are exact on integers, as long as the operands and the
    result stay within [EXACT_MAX]: what the numeric results below rely
    on. *)
Class FloatExact (F : Type) {FO : FloatOps F} : Prop := {
  fl_ltb_of_Z :
    forall a b, Z.abs a <= EXACT_MAX -> Z.abs b <= EXACT_MAX ->
      fl_ltb (fl_of_Z a) (fl_of_Z b) = (a <? b);
  fl_mul_of_Z :
    forall a b, Z.abs a <= EXACT_MAX -> Z.abs b <= EXACT_MAX ->
      Z.abs (a * b) <= EXACT_MAX ->
      fl_mul (fl_of_Z a) (fl_of_Z b) = fl_of_Z (a * b);
  pow_of_Z :
    forall b e, Z.abs b <= EXACT_MAX -> 0 <= e <= EXACT_MAX ->
      Z.abs (b ^ e) <= EXACT_MAX ->
      pow (fl_of_Z b) (fl_of_Z e) = fl_of_Z (b ^ e);
  round_of_Z :
    forall n, Z.abs n <= EXACT_MAX -> round (fl_of_Z n) = fl_of_Z n;
  fl_to_RmOff_of_Z :
    forall v, 0 <= v <= EXACT_MAX -> fl_to_RmOff (fl_of_Z v) = v
}.

(** ** The table of size suffixes *)

Record FormatSpec : Type := {
  id : string;
  base : Z;
  exponent : Z
}.

Definition SIZE_FORMAT_TABLE : list FormatSpec :=
  [ {| id := "b" ; base := 512 ; exponent := 1 |};
    {| id := "c" ; base := 1   ; exponent := 1 |};
    {| id := "e" ; base := 1000; exponent := 6 |};
    {| id := "eb"; base := 1024; exponent := 6 |};
    {| id := "g" ; base := 1000; exponent := 3 |};
    {| id := "gb"; base := 1024; exponent := 3 |};
    {| id := "k" ; base := 1000; exponent := 1 |};
    {| id := "kb"; base := 1024; exponent := 1 |};
    {| id := "m" ; base := 1000; exponent := 2 |};
    {| id := "mb"; base := 1024; exponent := 2 |};
    {| id := "p" ; base := 1000; exponent := 5 |};
    {| id := "pb"; base := 1024; exponent := 5 |};
    {| id := "t" ; base := 1000; exponent := 4 |};
    {| id := "tb"; base := 1024; exponent := 4 |};
    {| id := "w" ; base := 2   ; exponent := 1 |} ].

Definition SIZE_FORMAT_TABLE_N : nat := List.length SIZE_FORMAT_TABLE.

Definition rm_cmd_compare_spec_elem (fmt_a fmt_b : FormatSpec) : Z :=
  strcasecmp (id fmt_a) (id fmt_b).

(** [bsearch] of libc: binary search between [l] (included) and [u]
    (excluded); [compar] is already applied to the key. *)
Fixpoint bsearch_loop {A : Type} (fuel : nat) (compar : A -> Z) (tbl : list A)
    (l u : nat) : option A :=
  match fuel with
  | O => None
  | S fuel' =>
      if (l <? u)%nat then
        let idx := ((l + u) / 2)%nat in
        match nth_error tbl idx with
        | None => None
        | Some p =>
            let comparison := compar p in
            if comparison <? 0 then bsearch_loop fuel' compar tbl l idx
            else if 0 <? comparison then bsearch_loop fuel' compar tbl (S idx) u
            else Some p
        end
      else None
  end.

Definition bsearch {A : Type} (key : A) (tbl : list A) (nmemb : nat)
    (compar : A -> A -> Z) : option A :=
  bsearch_loop (S nmemb) (compar key) tbl O nmemb.

(** The table as the specification gives it: suffix, base, exponent. *)
Definition spec_suffix_table : list (string * (Z * Z)) :=
  [ ("b", (512, 1)); ("c", (1, 1));
    ("k", (1000, 1)); ("kb", (1024, 1));
    ("m", (1000, 2)); ("mb", (1024, 2));
    ("g", (1000, 3)); ("gb", (1024, 3));
    ("t", (1000, 4)); ("tb", (1024, 4));
    ("p", (1000, 5)); ("pb", (1024, 5));
    ("e", (1000, 6)); ("eb", (1024, 6));
    ("w", (2, 1)) ].

(** The entry of the specification's table for a suffix, letter case
    ignored. *)
Definition spec_suffix (suffix : string) : option (Z * Z) :=
  option_map snd
    (find (fun e => strcasecmp suffix (fst e) =? 0) spec_suffix_table).

(** ** Size strings *)

Section Sizes.

Context {F : Type} {FO : FloatOps F}.

Definition rm_cmd_size_format_error (msg : string) : Z * option string :=
  (0, Some msg).

(** The result and the value left in [*error] (initially NULL at every
    call site). *)
Definition rm_cmd_size_string_to_bytes (size_spec : string) : Z * option string :=
  let (decimal, consumed) := strtold size_spec in
  let format := drop consumed size_spec in
  if fl_eqb decimal (fl_of_Z 0) && Nat.eqb consumed O then
    rm_cmd_size_format_error "This does not look like a number"
  else if fl_ltb decimal (fl_of_Z 0) then
    rm_cmd_size_format_error "Negativ sizes are no good idea"
  else
    match format with
    | EmptyString => (fl_to_RmOff (round decimal), None)
    | _ =>
        let format := g_strstrip format in
        let key := {| id := format; base := 0; exponent := 0 |} in
        match bsearch key SIZE_FORMAT_TABLE SIZE_FORMAT_TABLE_N
                rm_cmd_compare_spec_elem with
        | Some found =>
            (fl_to_RmOff
               (fl_mul decimal (pow (fl_of_Z (base found)) (fl_of_Z (exponent found)))),
             None)
        | None => rm_cmd_size_format_error "Given format specifier not found"
        end
    end.

(** The range parser: what it returns, [*min], [*max] and [*error]. *)
Record RangeResult : Type := {
  range_ok : bool;
  range_min : Z;
  range_max : Z;
  range_error : option string
}.

Definition is_some {A : Type} (o : option A) : bool :=
  match o with Some _ => true | None => false end.

(** For the empty string [g_strsplit] gives a vector that holds only
    its terminating NULL, and [split[1]] lies past it: what the code
    reads there is not defined, and nothing is read here.  Any other
    string gives at least one element. *)
Definition rm_cmd_size_range_string_to_bytes (range_spec : string) : RangeResult :=
  let min := 0 in
  let max := G_MAXULONG in
  let tmp_error : option string := None in
  let split := g_strsplit range_spec "-"%char 2 in
  let (min, tmp_error) :=
    match nth_error split 0 with
    | Some s0 => rm_cmd_size_string_to_bytes s0
    | None => (min, tmp_error)
    end in
  let (max, tmp_error) :=
    match nth_error split 1, tmp_error with
    | Some s1, None => rm_cmd_size_string_to_bytes s1
    | _, _ => (max, tmp_error)
    end in
  let tmp_error :=
    if max <? min then Some "Max is smaller than min" else tmp_error in
  {| range_ok := negb (is_some tmp_error);
     range_min := min; range_max := max; range_error := tmp_error |}.

End Sizes.

(** ** Settings and sessions

    The headers that declare [RmSettings] and [RmSession] are not under
    src/: the records below have the fields [cmdline.c] reads and writes.
    The boolean settings are addressed by name ([RmBoolField]), the way
    the option table and the lint type table take their addresses. *)

Inductive RmBoolField : Type :=
  | color
  | ignore_hidden
  | followlinks
  | see_symlinks
  | samepart
  | keep_all_tagged
  | keep_all_untagged
  | must_match_tagged
  | must_match_untagged
  | find_hardlinked_dupes
  | match_basename
  | match_with_extension
  | match_without_extension
  | merge_directories
  | write_cksum_to_xattr
  | read_cksum_from_xattr
  | write_unfinished
  | findbadids
  | findbadlinks
  | findemptydirs
  | listemptyfiles
  | nonstripped
  | searchdup
  | limits_specified
  | filter_mtime
  | use_absolute_start_offset
  | use_absolute_end_offset.

Record RmFlags : Type := {
  b_color : bool;
  b_ignore_hidden : bool;
  b_followlinks : bool;
  b_see_symlinks : bool;
  b_samepart : bool;
  b_keep_all_tagged : bool;
  b_keep_all_untagged : bool;
  b_must_match_tagged : bool;
  b_must_match_untagged : bool;
  b_find_hardlinked_dupes : bool;
  b_match_basename : bool;
  b_match_with_extension : bool;
  b_match_without_extension : bool;
  b_merge_directories : bool;
  b_write_cksum_to_xattr : bool;
  b_read_cksum_from_xattr : bool;
  b_write_unfinished : bool;
  b_findbadids : bool;
  b_findbadlinks : bool;
  b_findemptydirs : bool;
  b_listemptyfiles : bool;
  b_nonstripped : bool;
  b_searchdup : bool;
  b_limits_specified : bool;
  b_filter_mtime : bool;
  b_use_absolute_start_offset : bool;
  b_use_absolute_end_offset : bool
}.

Definition get_flag (fl : RmFlags) (f : RmBoolField) : bool :=
  match f with
  | color => b_color fl
  | ignore_hidden => b_ignore_hidden fl
  | followlinks => b_followlinks fl
  | see_symlinks => b_see_symlinks fl
  | samepart => b_samepart fl
  | keep_all_tagged => b_keep_all_tagged fl
  | keep_all_untagged => b_keep_all_untagged fl
  | must_match_tagged => b_must_match_tagged fl
  | must_match_untagged => b_must_match_untagged fl
  | find_hardlinked_dupes => b_find_hardlinked_dupes fl
  | match_basename => b_match_basename fl
  | match_with_extension => b_match_with_extension fl
  | match_without_extension => b_match_without_extension fl
  | merge_directories => b_merge_directories fl
  | write_cksum_to_xattr => b_write_cksum_to_xattr fl
  | read_cksum_from_xattr => b_read_cksum_from_xattr fl
  | write_unfinished => b_write_unfinished fl
  | findbadids => b_findbadids fl
  | findbadlinks => b_findbadlinks fl
  | findemptydirs => b_findemptydirs fl
  | listemptyfiles => b_listemptyfiles fl
  | nonstripped => b_nonstripped fl
  | searchdup => b_searchdup fl
  | limits_specified => b_limits_specified fl
  | filter_mtime => b_filter_mtime fl
  | use_absolute_start_offset => b_use_absolute_start_offset fl
  | use_absolute_end_offset => b_use_absolute_end_offset fl
  end.

Definition is_field (f g : RmBoolField) : bool :=
  match f, g with
  | color, color => true
  | ignore_hidden, ignore_hidden => true
  | followlinks, followlinks => true
  | see_symlinks, see_symlinks => true
  | samepart, samepart => true
  | keep_all_tagged, keep_all_tagged => true
  | keep_all_untagged, keep_all_untagged => true
  | must_match_tagged, must_match_tagged => true
  | must_match_untagged, must_match_untagged => true
  | find_hardlinked_dupes, find_hardlinked_dupes => true
  | match_basename, match_basename => true
  | match_with_extension, match_with_extension => true
  | match_without_extension, match_without_extension => true
  | merge_directories, merge_directories => true
  | write_cksum_to_xattr, write_cksum_to_xattr => true
  | read_cksum_from_xattr, read_cksum_from_xattr => true
  | write_unfinished, write_unfinished => true
  | findbadids, findbadids => true
  | findbadlinks, findbadlinks => true
  | findemptydirs, findemptydirs => true
  | listemptyfiles, listemptyfiles => true
  | nonstripped, nonstripped => true
  | searchdup, searchdup => true
  | limits_specified, limits_specified => true
  | filter_mtime, filter_mtime => true
  | use_absolute_start_offset, use_absolute_start_offset => true
  | use_absolute_end_offset, use_absolute_end_offset => true
  | _, _ => false
  end.

Definition put_flag (f : RmBoolField) (v : bool) (fl : RmFlags) : RmFlags :=
  let at_ g := if is_field f g then v else get_flag fl g in
  {| b_color := at_ color;
     b_ignore_hidden := at_ ignore_hidden;
     b_followlinks := at_ followlinks;
     b_see_symlinks := at_ see_symlinks;
     b_samepart := at_ samepart;
     b_keep_all_tagged := at_ keep_all_tagged;
     b_keep_all_untagged := at_ keep_all_untagged;
     b_must_match_tagged := at_ must_match_tagged;
     b_must_match_untagged := at_ must_match_untagged;
     b_find_hardlinked_dupes := at_ find_hardlinked_dupes;
     b_match_basename := at_ match_basename;
     b_match_with_extension := at_ match_with_extension;
     b_match_without_extension := at_ match_without_extension;
     b_merge_directories := at_ merge_directories;
     b_write_cksum_to_xattr := at_ write_cksum_to_xattr;
     b_read_cksum_from_xattr := at_ read_cksum_from_xattr;
     b_write_unfinished := at_ write_unfinished;
     b_findbadids := at_ findbadids;
     b_findbadlinks := at_ findbadlinks;
     b_findemptydirs := at_ findemptydirs;
     b_listemptyfiles := at_ listemptyfiles;
     b_nonstripped := at_ nonstripped;
     b_searchdup := at_ searchdup;
     b_limits_specified := at_ limits_specified;
     b_filter_mtime := at_ filter_mtime;
     b_use_absolute_start_offset := at_ use_absolute_start_offset;
     b_use_absolute_end_offset := at_ use_absolute_end_offset |}.


(** The digest types [cmdline.c] names; [RM_DIGEST_OTHER] stands for the
    other algorithms [rm_string_to_digest_type] knows. *)
Inductive RmDigestType : Type :=
  | RM_DIGEST_UNKNOWN
  | RM_DIGEST_SPOOKY32
  | RM_DIGEST_SPOOKY64
  | RM_DIGEST_BASTARD
  | RM_DIGEST_SHA256
  | RM_DIGEST_SHA512
  | RM_DIGEST_PARANOID
  | RM_DIGEST_OTHER (n : Z).

(** Modelled from the spec: the phases of the progress state machine
    (formats.h is not under src/), "INIT, TRAVERSE, PREPROCESS, SHRED,
    MERGE, PRE_SHUTDOWN, SUMMARY". *)
Inductive RmFmtProgressState : Type :=
  | RM_PROGRESS_STATE_INIT
  | RM_PROGRESS_STATE_TRAVERSE
  | RM_PROGRESS_STATE_PREPROCESS
  | RM_PROGRESS_STATE_SHRED
  | RM_PROGRESS_STATE_MERGE
  | RM_PROGRESS_STATE_PRE_SHUTDOWN
  | RM_PROGRESS_STATE_SUMMARY.

(** Modelled from the spec: the formatter table (formats.c is not under
    src/): "Formatters may be added dynamically by name; multiple
    formatters may share one path", with a key/value configuration per
    formatter. *)
Record RmFmtTable : Type := {
  fmt_handlers : list (string * string);
  fmt_config : list (string * string * string)
}.

(** Opaque handles of the mount table and of the tree merger. *)
Definition RmMountTable : Type := Z.
Definition RmTreeMerger : Type := Z.

Inductive LogLevel : Type := LOG_DEBUG | LOG_WARNING | LOG_ERROR.

(** GLib's log level flags. *)
Definition G_LOG_LEVEL_ERROR : Z := Z.shiftl 1 2.
Definition G_LOG_LEVEL_CRITICAL : Z := Z.shiftl 1 3.
Definition G_LOG_LEVEL_WARNING : Z := Z.shiftl 1 4.
Definition G_LOG_LEVEL_MESSAGE : Z := Z.shiftl 1 5.
Definition G_LOG_LEVEL_INFO : Z := Z.shiftl 1 6.
Definition G_LOG_LEVEL_DEBUG : Z := Z.shiftl 1 7.

Definition VERBOSITY_TO_LOG_LEVEL : list Z :=
  [ G_LOG_LEVEL_CRITICAL;
    G_LOG_LEVEL_ERROR;
    G_LOG_LEVEL_WARNING;
    Z.lor G_LOG_LEVEL_MESSAGE G_LOG_LEVEL_INFO;
    G_LOG_LEVEL_DEBUG ].

(** A [GError **]: the message of the error that is set, if any. *)
Definition GError : Type := option string.

(** [g_set_error] keeps an error that is already set. *)
Definition g_set_error (error : GError) (msg : string) : GError :=
  match error with
  | None => Some msg
  | Some _ => error
  end.

(** The command line as GLib's scanner hands it to the option table: long
    and short options with the value attached to them, and the arguments
    that are left over. *)
Inductive Token : Type :=
  | LongOpt (name : string) (value : option string)
  | ShortOpt (name : ascii) (value : option string)
  | Leftover (arg : string).

(** The option table: [GOptionEntry] without its help texts. *)
Inductive GOptionArg : Type :=
  | G_OPTION_ARG_NONE
  | G_OPTION_ARG_INT
  | G_OPTION_ARG_STRING
  | G_OPTION_ARG_CALLBACK
  | G_OPTION_ARG_FILENAME_ARRAY.

Definition G_OPTION_FLAG_REVERSE : Z := Z.shiftl 1 2.
Definition G_OPTION_FLAG_NO_ARG : Z := Z.shiftl 1 3.
Definition G_OPTION_REMAINING : string := "".

Inductive RmIntField : Type := cfg_threads | cfg_depth.

(** The callbacks [FUNC (name)] stands for, [rm_cmd_parse_name]. *)
Inductive RmCallback : Type :=
  | parse_lint_types
  | parse_limit_sizes
  | parse_algorithm
  | parse_small_output
  | parse_large_output
  | parse_paranoid_mem
  | parse_timestamp_file
  | parse_timestamp
  | parse_clamp_low
  | parse_clamp_top
  | parse_config
  | parse_cache
  | parse_progress
  | parse_no_progress
  | parse_loud
  | parse_quiet
  | parse_paranoid
  | parse_less_paranoid
  | parse_merge_directories
  | show_help
  | show_version.

(** What [arg_data] points to. *)
Inductive ArgData : Type :=
  | int_field (f : RmIntField)
  | sort_criteria_field
  | bool_field (f : RmBoolField)
  | FUNC (name : RmCallback)
  | paths_variable.

Record GOptionEntry : Type := {
  long_name : string;
  short_name : ascii;
  entry_flags : Z;
  arg : GOptionArg;
  arg_data : ArgData
}.

Definition DISABLE : Z := G_OPTION_FLAG_REVERSE.
Definition EMPTY : Z := G_OPTION_FLAG_NO_ARG.

Definition option_entries : list GOptionEntry :=
  let e := Build_GOptionEntry in
  let c (s : string) : ascii := deref s in
  [ e "threads"          (c "t") 0 G_OPTION_ARG_INT      (int_field cfg_threads);
    e "max-depth"        (c "d") 0 G_OPTION_ARG_INT      (int_field cfg_depth);
    e "sortcriteria"     (c "S") 0 G_OPTION_ARG_STRING   sort_criteria_field;
    e "types"            (c "T") 0 G_OPTION_ARG_CALLBACK (FUNC parse_lint_types);
    e "size"             (c "s") 0 G_OPTION_ARG_CALLBACK (FUNC parse_limit_sizes);
    e "algorithm"        (c "a") 0 G_OPTION_ARG_CALLBACK (FUNC parse_algorithm);
    e "output"           (c "o") 0 G_OPTION_ARG_CALLBACK (FUNC parse_small_output);
    e "add-output"       (c "O") 0 G_OPTION_ARG_CALLBACK (FUNC parse_large_output);
    e "max-paranoid-mem" (c "u") 0 G_OPTION_ARG_CALLBACK (FUNC parse_paranoid_mem);
    e "newer-than-stamp" (c "n") 0 G_OPTION_ARG_CALLBACK (FUNC parse_timestamp_file);
    e "newer-than"       (c "N") 0 G_OPTION_ARG_CALLBACK (FUNC parse_timestamp);
    e "clamp-low"        (c "q") 0 G_OPTION_ARG_CALLBACK (FUNC parse_clamp_low);
    e "clamp-top"        (c "Q") 0 G_OPTION_ARG_CALLBACK (FUNC parse_clamp_top);
    e "config"           (c "c") 0 G_OPTION_ARG_CALLBACK (FUNC parse_config);
    e "cache"            (c "C") 0 G_OPTION_ARG_CALLBACK (FUNC parse_cache);

    e "progress"    (c "g") EMPTY G_OPTION_ARG_CALLBACK (FUNC parse_progress);
    e "no-progress" (c "G") EMPTY G_OPTION_ARG_CALLBACK (FUNC parse_no_progress);
    e "loud"        (c "v") EMPTY G_OPTION_ARG_CALLBACK (FUNC parse_loud);
    e "quiet"       (c "V") EMPTY G_OPTION_ARG_CALLBACK (FUNC parse_quiet);

    e "with-color"                 (c "w") 0       G_OPTION_ARG_NONE (bool_field color);
    e "no-with-color"              (c "W") DISABLE G_OPTION_ARG_NONE (bool_field color);
    e "hidden"                     (c "r") DISABLE G_OPTION_ARG_NONE (bool_field ignore_hidden);
    e "no-hidden"                  (c "R") 0       G_OPTION_ARG_NONE (bool_field ignore_hidden);
    e "followlinks"                (c "f") 0       G_OPTION_ARG_NONE (bool_field followlinks);
    e "no-followlinks"             (c "F") DISABLE G_OPTION_ARG_NONE (bool_field followlinks);
    e "see-symlinks"               (c "@") 0       G_OPTION_ARG_NONE (bool_field see_symlinks);
    e "crossdev"                   (c "x") 0       G_OPTION_ARG_NONE (bool_field samepart);
    e "no-crossdev"                (c "X") DISABLE G_OPTION_ARG_NONE (bool_field samepart);
    e "paranoid"                   (c "p") EMPTY   G_OPTION_ARG_CALLBACK (FUNC parse_paranoid);
    e "less-paranoid"              (c "P") EMPTY   G_OPTION_ARG_CALLBACK (FUNC parse_less_paranoid);
    e "keep-all-tagged"            (c "k") 0       G_OPTION_ARG_NONE (bool_field keep_all_tagged);
    e "keep-all-untagged"          (c "K") 0       G_OPTION_ARG_NONE (bool_field keep_all_untagged);
    e "must-match-tagged"          (c "m") 0       G_OPTION_ARG_NONE (bool_field must_match_tagged);
    e "must-match-untagged"        (c "M") 0       G_OPTION_ARG_NONE (bool_field must_match_untagged);
    e "hardlinked"                 (c "l") 0       G_OPTION_ARG_NONE (bool_field find_hardlinked_dupes);
    e "no-hardlinked"              (c "L") DISABLE G_OPTION_ARG_NONE (bool_field find_hardlinked_dupes);
    e "match-basename"             (c "b") 0       G_OPTION_ARG_NONE (bool_field match_basename);
    e "no-match-basename"          (c "B") DISABLE G_OPTION_ARG_NONE (bool_field match_basename);
    e "match-extension"            (c "e") 0       G_OPTION_ARG_NONE (bool_field match_with_extension);
    e "no-match-extension"         (c "E") DISABLE G_OPTION_ARG_NONE (bool_field match_with_extension);
    e "match-without-extension"    (c "i") 0       G_OPTION_ARG_NONE (bool_field match_without_extension);
    e "no-match-without-extension" (c "I") DISABLE G_OPTION_ARG_NONE (bool_field match_without_extension);
    e "merge-directories"          (c "D") EMPTY   G_OPTION_ARG_CALLBACK (FUNC parse_merge_directories);
    e "xattr-write"                zero    0       G_OPTION_ARG_NONE (bool_field write_cksum_to_xattr);
    e "no-xattr-write"             zero    DISABLE G_OPTION_ARG_NONE (bool_field write_cksum_to_xattr);
    e "xattr-read"                 zero    0       G_OPTION_ARG_NONE (bool_field read_cksum_from_xattr);
    e "no-xattr-read"              zero    DISABLE G_OPTION_ARG_NONE (bool_field read_cksum_from_xattr);
    e "write-unfinished"           (c "U") 0       G_OPTION_ARG_NONE (bool_field write_unfinished);

    e "show-man" (c "H") EMPTY G_OPTION_ARG_CALLBACK (FUNC show_help);
    e "version"  zero    EMPTY G_OPTION_ARG_CALLBACK (FUNC show_version);

    e G_OPTION_REMAINING zero 0 G_OPTION_ARG_FILENAME_ARRAY paths_variable ].

Section Cmdline.

Context {F : Type} {FO : FloatOps F}.

Record RmSettings : Type := {
  flags : RmFlags;
  threads : Z;
  depth : Z;
  sort_criteria : string;
  minsize : Z;
  maxsize : Z;
  min_mtime : Z;
  paranoid_mem : Z;
  skip_start_factor : F;
  skip_start_offset : Z;
  skip_end_factor : F;
  skip_end_offset : Z;
  verbosity : Z;
  checksum_type : RmDigestType;
  paths : list string;
  is_prefd : list bool;
  iwd : string;
  joined_argv : string
}.

Definition set_flags (v : RmFlags) (s : RmSettings) : RmSettings :=
  {| flags := v; threads := threads s; depth := depth s;
     sort_criteria := sort_criteria s; minsize := minsize s;
     maxsize := maxsize s; min_mtime := min_mtime s;
     paranoid_mem := paranoid_mem s;
     skip_start_factor := skip_start_factor s;
     skip_start_offset := skip_start_offset s;
     skip_end_factor := skip_end_factor s;
     skip_end_offset := skip_end_offset s; verbosity := verbosity s;
     checksum_type := checksum_type s; paths := paths s;
     is_prefd := is_prefd s; iwd := iwd s; joined_argv := joined_argv s |}.

Definition set_threads (v : Z) (s : RmSettings) : RmSettings :=
  {| flags := flags s; threads := v; depth := depth s;
     sort_criteria := sort_criteria s; minsize := minsize s;
     maxsize := maxsize s; min_mtime := min_mtime s;
     paranoid_mem := paranoid_mem s;
     skip_start_factor := skip_start_factor s;
     skip_start_offset := skip_start_offset s;
     skip_end_factor := skip_end_factor s;
     skip_end_offset := skip_end_offset s; verbosity := verbosity s;
     checksum_type := checksum_type s; paths := paths s;
     is_prefd := is_prefd s; iwd := iwd s; joined_argv := joined_argv s |}.

Definition set_depth (v : Z) (s : RmSettings) : RmSettings :=
  {| flags := flags s; threads := threads s; depth := v;
     sort_criteria := sort_criteria s; minsize := minsize s;
     maxsize := maxsize s; min_mtime := min_mtime s;
     paranoid_mem := paranoid_mem s;
     skip_start_factor := skip_start_factor s;
     skip_start_offset := skip_start_offset s;
     skip_end_factor := skip_end_factor s;
     skip_end_offset := skip_end_offset s; verbosity := verbosity s;
     checksum_type := checksum_type s; paths := paths s;
     is_prefd := is_prefd s; iwd := iwd s; joined_argv := joined_argv s |}.

Definition set_sort_criteria (v : string) (s : RmSettings) : RmSettings :=
  {| flags := flags s; threads := threads s; depth := depth s;
     sort_criteria := v; minsize := minsize s; maxsize := maxsize s;
     min_mtime := min_mtime s; paranoid_mem := paranoid_mem s;
     skip_start_factor := skip_start_factor s;
     skip_start_offset := skip_start_offset s;
     skip_end_factor := skip_end_factor s;
     skip_end_offset := skip_end_offset s; verbosity := verbosity s;
     checksum_type := checksum_type s; paths := paths s;
     is_prefd := is_prefd s; iwd := iwd s; joined_argv := joined_argv s |}.

Definition set_minsize (v : Z) (s : RmSettings) : RmSettings :=
  {| flags := flags s; threads := threads s; depth := depth s;
     sort_criteria := sort_criteria s; minsize := v; maxsize := maxsize s;
     min_mtime := min_mtime s; paranoid_mem := paranoid_mem s;
     skip_start_factor := skip_start_factor s;
     skip_start_offset := skip_start_offset s;
     skip_end_factor := skip_end_factor s;
     skip_end_offset := skip_end_offset s; verbosity := verbosity s;
     checksum_type := checksum_type s; paths := paths s;
     is_prefd := is_prefd s; iwd := iwd s; joined_argv := joined_argv s |}.

Definition set_maxsize (v : Z) (s : RmSettings) : RmSettings :=
  {| flags := flags s; threads := threads s; depth := depth s;
     sort_criteria := sort_criteria s; minsize := minsize s; maxsize := v;
     min_mtime := min_mtime s; paranoid_mem := paranoid_mem s;
     skip_start_factor := skip_start_factor s;
     skip_start_offset := skip_start_offset s;
     skip_end_factor := skip_end_factor s;
     skip_end_offset := skip_end_offset s; verbosity := verbosity s;
     checksum_type := checksum_type s; paths := paths s;
     is_prefd := is_prefd s; iwd := iwd s; joined_argv := joined_argv s |}.

Definition set_min_mtime (v : Z) (s : RmSettings) : RmSettings :=
  {| flags := flags s; threads := threads s; depth := depth s;
     sort_criteria := sort_criteria s; minsize := minsize s;
     maxsize := maxsize s; min_mtime := v; paranoid_mem := paranoid_mem s;
     skip_start_factor := skip_start_factor s;
     skip_start_offset := skip_start_offset s;
     skip_end_factor := skip_end_factor s;
     skip_end_offset := skip_end_offset s; verbosity := verbosity s;
     checksum_type := checksum_type s; paths := paths s;
     is_prefd := is_prefd s; iwd := iwd s; joined_argv := joined_argv s |}.

Definition set_paranoid_mem (v : Z) (s : RmSettings) : RmSettings :=
  {| flags := flags s; threads := threads s; depth := depth s;
     sort_criteria := sort_criteria s; minsize := minsize s;
     maxsize := maxsize s; min_mtime := min_mtime s; paranoid_mem := v;
     skip_start_factor := skip_start_factor s;
     skip_start_offset := skip_start_offset s;
     skip_end_factor := skip_end_factor s;
     skip_end_offset := skip_end_offset s; verbosity := verbosity s;
     checksum_type := checksum_type s; paths := paths s;
     is_prefd := is_prefd s; iwd := iwd s; joined_argv := joined_argv s |}.

Definition set_skip_start_factor (v : F) (s : RmSettings) : RmSettings :=
  {| flags := flags s; threads := threads s; depth := depth s;
     sort_criteria := sort_criteria s; minsize := minsize s;
     maxsize := maxsize s; min_mtime := min_mtime s;
     paranoid_mem := paranoid_mem s; skip_start_factor := v;
     skip_start_offset := skip_start_offset s;
     skip_end_factor := skip_end_factor s;
     skip_end_offset := skip_end_offset s; verbosity := verbosity s;
     checksum_type := checksum_type s; paths := paths s;
     is_prefd := is_prefd s; iwd := iwd s; joined_argv := joined_argv s |}.

Definition set_skip_start_offset (v : Z) (s : RmSettings) : RmSettings :=
  {| flags := flags s; threads := threads s; depth := depth s;
     sort_criteria := sort_criteria s; minsize := minsize s;
     maxsize := maxsize s; min_mtime := min_mtime s;
     paranoid_mem := paranoid_mem s;
     skip_start_factor := skip_start_factor s; skip_start_offset := v;
     skip_end_factor := skip_end_factor s;
     skip_end_offset := skip_end_offset s; verbosity := verbosity s;
     checksum_type := checksum_type s; paths := paths s;
     is_prefd := is_prefd s; iwd := iwd s; joined_argv := joined_argv s |}.

Definition set_skip_end_factor (v : F) (s : RmSettings) : RmSettings :=
  {| flags := flags s; threads := threads s; depth := depth s;
     sort_criteria := sort_criteria s; minsize := minsize s;
     maxsize := maxsize s; min_mtime := min_mtime s;
     paranoid_mem := paranoid_mem s;
     skip_start_factor := skip_start_factor s;
     skip_start_offset := skip_start_offset s; skip_end_factor := v;
     skip_end_offset := skip_end_offset s; verbosity := verbosity s;
     checksum_type := checksum_type s; paths := paths s;
     is_prefd := is_prefd s; iwd := iwd s; joined_argv := joined_argv s |}.

Definition set_skip_end_offset (v : Z) (s : RmSettings) : RmSettings :=
  {| flags := flags s; threads := threads s; depth := depth s;
     sort_criteria := sort_criteria s; minsize := minsize s;
     maxsize := maxsize s; min_mtime := min_mtime s;
     paranoid_mem := paranoid_mem s;
     skip_start_factor := skip_start_factor s;
     skip_start_offset := skip_start_offset s;
     skip_end_factor := skip_end_factor s; skip_end_offset := v;
     verbosity := verbosity s; checksum_type := checksum_type s;
     paths := paths s; is_prefd := is_prefd s; iwd := iwd s;
     joined_argv := joined_argv s |}.

Definition set_verbosity (v : Z) (s : RmSettings) : RmSettings :=
  {| flags := flags s; threads := threads s; depth := depth s;
     sort_criteria := sort_criteria s; minsize := minsize s;
     maxsize := maxsize s; min_mtime := min_mtime s;
     paranoid_mem := paranoid_mem s;
     skip_start_factor := skip_start_factor s;
     skip_start_offset := skip_start_offset s;
     skip_end_factor := skip_end_factor s;
     skip_end_offset := skip_end_offset s; verbosity := v;
     checksum_type := checksum_type s; paths := paths s;
     is_prefd := is_prefd s; iwd := iwd s; joined_argv := joined_argv s |}.

Definition set_checksum_type (v : RmDigestType) (s : RmSettings) : RmSettings :=
  {| flags := flags s; threads := threads s; depth := depth s;
     sort_criteria := sort_criteria s; minsize := minsize s;
     maxsize := maxsize s; min_mtime := min_mtime s;
     paranoid_mem := paranoid_mem s;
     skip_start_factor := skip_start_factor s;
     skip_start_offset := skip_start_offset s;
     skip_end_factor := skip_end_factor s;
     skip_end_offset := skip_end_offset s; verbosity := verbosity s;
     checksum_type := v; paths := paths s; is_prefd := is_prefd s;
     iwd := iwd s; joined_argv := joined_argv s |}.

Definition set_paths (v : list string) (s : RmSettings) : RmSettings :=
  {| flags := flags s; threads := threads s; depth := depth s;
     sort_criteria := sort_criteria s; minsize := minsize s;
     maxsize := maxsize s; min_mtime := min_mtime s;
     paranoid_mem := paranoid_mem s;
     skip_start_factor := skip_start_factor s;
     skip_start_offset := skip_start_offset s;
     skip_end_factor := skip_end_factor s;
     skip_end_offset := skip_end_offset s; verbosity := verbosity s;
     checksum_type := checksum_type s; paths := v; is_prefd := is_prefd s;
     iwd := iwd s; joined_argv := joined_argv s |}.

Definition set_is_prefd (v : list bool) (s : RmSettings) : RmSettings :=
  {| flags := flags s; threads := threads s; depth := depth s;
     sort_criteria := sort_criteria s; minsize := minsize s;
     maxsize := maxsize s; min_mtime := min_mtime s;
     paranoid_mem := paranoid_mem s;
     skip_start_factor := skip_start_factor s;
     skip_start_offset := skip_start_offset s;
     skip_end_factor := skip_end_factor s;
     skip_end_offset := skip_end_offset s; verbosity := verbosity s;
     checksum_type := checksum_type s; paths := paths s; is_prefd := v;
     iwd := iwd s; joined_argv := joined_argv s |}.

Definition set_iwd (v : string) (s : RmSettings) : RmSettings :=
  {| flags := flags s; threads := threads s; depth := depth s;
     sort_criteria := sort_criteria s; minsize := minsize s;
     maxsize := maxsize s; min_mtime := min_mtime s;
     paranoid_mem := paranoid_mem s;
     skip_start_factor := skip_start_factor s;
     skip_start_offset := skip_start_offset s;
     skip_end_factor := skip_end_factor s;
     skip_end_offset := skip_end_offset s; verbosity := verbosity s;
     checksum_type := checksum_type s; paths := paths s;
     is_prefd := is_prefd s; iwd := v; joined_argv := joined_argv s |}.

Definition set_joined_argv (v : string) (s : RmSettings) : RmSettings :=
  {| flags := flags s; threads := threads s; depth := depth s;
     sort_criteria := sort_criteria s; minsize := minsize s;
     maxsize := maxsize s; min_mtime := min_mtime s;
     paranoid_mem := paranoid_mem s;
     skip_start_factor := skip_start_factor s;
     skip_start_offset := skip_start_offset s;
     skip_end_factor := skip_end_factor s;
     skip_end_offset := skip_end_offset s; verbosity := verbosity s;
     checksum_type := checksum_type s; paths := paths s;
     is_prefd := is_prefd s; iwd := iwd s; joined_argv := v |}.

Record RmSession : Type := {
  settings : RmSettings;
  formats : RmFmtTable;
  output_cnt : Z * Z;
  verbosity_count : Z;
  paranoia_count : Z;
  cache_list : list string;
  hash_seed1 : Z;
  hash_seed2 : Z;
  mounts : option RmMountTable;
  dir_merger : option RmTreeMerger;
  total_files : Z
}.

Definition set_settings (v : RmSettings) (s : RmSession) : RmSession :=
  {| settings := v; formats := formats s; output_cnt := output_cnt s;
     verbosity_count := verbosity_count s;
     paranoia_count := paranoia_count s; cache_list := cache_list s;
     hash_seed1 := hash_seed1 s; hash_seed2 := hash_seed2 s;
     mounts := mounts s; dir_merger := dir_merger s;
     total_files := total_files s |}.

Definition set_formats (v : RmFmtTable) (s : RmSession) : RmSession :=
  {| settings := settings s; formats := v; output_cnt := output_cnt s;
     verbosity_count := verbosity_count s;
     paranoia_count := paranoia_count s; cache_list := cache_list s;
     hash_seed1 := hash_seed1 s; hash_seed2 := hash_seed2 s;
     mounts := mounts s; dir_merger := dir_merger s;
     total_files := total_files s |}.

Definition set_output_cnt (v : Z * Z) (s : RmSession) : RmSession :=
  {| settings := settings s; formats := formats s; output_cnt := v;
     verbosity_count := verbosity_count s;
     paranoia_count := paranoia_count s; cache_list := cache_list s;
     hash_seed1 := hash_seed1 s; hash_seed2 := hash_seed2 s;
     mounts := mounts s; dir_merger := dir_merger s;
     total_files := total_files s |}.

Definition set_verbosity_count (v : Z) (s : RmSession) : RmSession :=
  {| settings := settings s; formats := formats s;
     output_cnt := output_cnt s; verbosity_count := v;
     paranoia_count := paranoia_count s; cache_list := cache_list s;
     hash_seed1 := hash_seed1 s; hash_seed2 := hash_seed2 s;
     mounts := mounts s; dir_merger := dir_merger s;
     total_files := total_files s |}.

Definition set_paranoia_count (v : Z) (s : RmSession) : RmSession :=
  {| settings := settings s; formats := formats s;
     output_cnt := output_cnt s; verbosity_count := verbosity_count s;
     paranoia_count := v; cache_list := cache_list s;
     hash_seed1 := hash_seed1 s; hash_seed2 := hash_seed2 s;
     mounts := mounts s; dir_merger := dir_merger s;
     total_files := total_files s |}.

Definition set_cache_list (v : list string) (s : RmSession) : RmSession :=
  {| settings := settings s; formats := formats s;
     output_cnt := output_cnt s; verbosity_count := verbosity_count s;
     paranoia_count := paranoia_count s; cache_list := v;
     hash_seed1 := hash_seed1 s; hash_seed2 := hash_seed2 s;
     mounts := mounts s; dir_merger := dir_merger s;
     total_files := total_files s |}.

Definition set_hash_seed1 (v : Z) (s : RmSession) : RmSession :=
  {| settings := settings s; formats := formats s;
     output_cnt := output_cnt s; verbosity_count := verbosity_count s;
     paranoia_count := paranoia_count s; cache_list := cache_list s;
     hash_seed1 := v; hash_seed2 := hash_seed2 s; mounts := mounts s;
     dir_merger := dir_merger s; total_files := total_files s |}.

Definition set_hash_seed2 (v : Z) (s : RmSession) : RmSession :=
  {| settings := settings s; formats := formats s;
     output_cnt := output_cnt s; verbosity_count := verbosity_count s;
     paranoia_count := paranoia_count s; cache_list := cache_list s;
     hash_seed1 := hash_seed1 s; hash_seed2 := v; mounts := mounts s;
     dir_merger := dir_merger s; total_files := total_files s |}.

Definition set_mounts (v : option RmMountTable) (s : RmSession) : RmSession :=
  {| settings := settings s; formats := formats s;
     output_cnt := output_cnt s; verbosity_count := verbosity_count s;
     paranoia_count := paranoia_count s; cache_list := cache_list s;
     hash_seed1 := hash_seed1 s; hash_seed2 := hash_seed2 s; mounts := v;
     dir_merger := dir_merger s; total_files := total_files s |}.

Definition set_dir_merger (v : option RmTreeMerger) (s : RmSession) : RmSession :=
  {| settings := settings s; formats := formats s;
     output_cnt := output_cnt s; verbosity_count := verbosity_count s;
     paranoia_count := paranoia_count s; cache_list := cache_list s;
     hash_seed1 := hash_seed1 s; hash_seed2 := hash_seed2 s;
     mounts := mounts s; dir_merger := v; total_files := total_files s |}.

Definition set_total_files (v : Z) (s : RmSession) : RmSession :=
  {| settings := settings s; formats := formats s;
     output_cnt := output_cnt s; verbosity_count := verbosity_count s;
     paranoia_count := paranoia_count s; cache_list := cache_list s;
     hash_seed1 := hash_seed1 s; hash_seed2 := hash_seed2 s;
     mounts := mounts s; dir_merger := dir_merger s; total_files := v |}.


(** The process around the session: the chunks [fgets] will still read
    from standard input, the log lines written so far, and the phases the
    formatters were notified of (by [rm_fmt_set_state], in call order). *)
Record State : Type := {
  session : RmSession;
  stdin : list string;
  log : list (LogLevel * string);
  notified : list RmFmtProgressState
}.

Definition set_session (v : RmSession) (st : State) : State :=
  {| session := v; stdin := stdin st; log := log st; notified := notified st |}.

Definition set_stdin (v : list string) (st : State) : State :=
  {| session := session st; stdin := v; log := log st; notified := notified st |}.

Definition set_log (v : list (LogLevel * string)) (st : State) : State :=
  {| session := session st; stdin := stdin st; log := v; notified := notified st |}.

Definition set_notified (v : list RmFmtProgressState) (st : State) : State :=
  {| session := session st; stdin := stdin st; log := log st; notified := v |}.

(** What libc, GLib, the operating system and the modules of rmlint that
    are not under src/ answer. *)
Record Env : Type := {
  g_option_scan : list string -> list Token;
  g_parse_int : string -> option Z;
  getcwd : option string;
  faccessat : string -> bool;
  strerror_errno : option string -> string;
  realpath : string -> option string;
  isatty_stdout : bool;
  isatty_stderr : bool;
  time : Z;
  strtoll : string -> Z;
  system : string -> bool;
  g_file_test_is_regular : string -> bool;
  (** [fopen] then [fgets]: [None] when the file cannot be opened,
      [Some None] when no line can be read *)
  fopen_fgets : string -> option (option string);
  session_address : Z;
  session_pointer_address : Z;
  HAVE_SHA512 : bool;
  rm_iso8601_parse : string -> Z;
  rm_iso8601_format : Z -> string;
  rm_string_to_digest_type : string -> RmDigestType;
  rm_fmt_add_succeeds : string -> string -> bool;
  rm_session_clear : RmSession -> RmSession;
  rm_mounts_table_new : RmSession -> option RmMountTable;
  rm_traverse_tree : RmSession -> RmSession;
  rm_tm_new : RmSession -> RmTreeMerger;
  rm_preprocess : RmSession -> RmSession;
  rm_shred_run : RmSession -> RmSession;
  rm_tm_finish : RmSession -> RmSession
}.

(** A call returns with a value, or the process exits with a status. *)
Inductive Outcome (A : Type) : Type :=
  | Return (a : A) (st : State)
  | Exit (status : Z) (st : State).

Arguments Return {A} a st.
Arguments Exit {A} status st.

Definition M (A : Type) : Type := State -> Outcome A.

Definition ret {A : Type} (a : A) : M A := fun st => Return a st.

Definition bind {A B : Type} (m : M A) (k : A -> M B) : M B :=
  fun st =>
    match m st with
    | Return a st' => k a st'
    | Exit status st' => Exit status st'
    end.

Definition gets {A : Type} (f : State -> A) : M A := fun st => Return (f st) st.

Definition modify (f : State -> State) : M unit := fun st => Return tt (f st).

Local Notation "x <- m ;; k" := (bind m (fun x => k))
  (at level 61, m at next level, right associativity).
Local Notation "m ;; k" := (bind m (fun _ => k))
  (at level 61, right associativity).

Variable env : Env.

Definition flag (cfg : RmSettings) (f : RmBoolField) : bool :=
  get_flag (flags cfg) f.

Definition set_flag (f : RmBoolField) (v : bool) (cfg : RmSettings) : RmSettings :=
  set_flags (put_flag f v (flags cfg)) cfg.

Definition get_session : M RmSession := gets session.

(** Reading one member of the session or of its settings. *)
Definition session_get {A : Type} (f : RmSession -> A) : M A :=
  gets (fun st => f (session st)).

Definition settings_get {A : Type} (f : RmSettings -> A) : M A :=
  gets (fun st => f (settings (session st))).

Definition update_session (f : RmSession -> RmSession) : M unit :=
  modify (fun st => set_session (f (session st)) st).

Definition update_settings (f : RmSettings -> RmSettings) : M unit :=
  update_session (fun s => set_settings (f (settings s)) s).

Definition rm_log (level : LogLevel) (msg : string) : M unit :=
  modify (fun st => set_log (log st ++ [(level, msg)]) st).

Definition rm_log_debug : string -> M unit := rm_log LOG_DEBUG.
Definition rm_log_warning : string -> M unit := rm_log LOG_WARNING.
Definition rm_log_warning_line : string -> M unit := rm_log LOG_WARNING.
Definition rm_log_error_line : string -> M unit := rm_log LOG_ERROR.

(** [exit (status)]: nothing runs after it. *)
Definition exit {A : Type} (status : Z) : M A := fun st => Exit status st.

Definition rm_cmd_die {A : Type} (status : Z) : M A :=
  update_session (rm_session_clear env) ;;
  exit status.

Definition rm_cmd_show_version : M (bool * GError) := exit 0.

Definition rm_cmd_show_help : M (bool * GError) :=
  let found_manpage :=
    system env "man -P cat docs/rmlint.1.gz 2> /dev/null"
    || system env "man -P cat rmlint" in
  (if found_manpage then ret tt
   else rm_log_warning_line "You seem to have no manpage for rmlint.") ;;
  exit 0.

Definition rm_cmd_parse_limit_sizes (range_spec : string) (error : GError)
  : M (bool * GError) :=
  let r := rm_cmd_size_range_string_to_bytes range_spec in
  update_settings (fun cfg => set_maxsize (range_max r) (set_minsize (range_min r) cfg)) ;;
  if negb (range_ok r) then
    ret (false,
         g_set_error error
           ("cannot parse --limit: " ++
            match range_error r with Some m => m | None => "" end))
  else
    update_settings (set_flag limits_specified true) ;;
    ret (true, error).

Definition bool_to_int (b : bool) : Z := if b then 1 else 0.

(** The NULL terminated array [paths] and the array [is_prefd] after they
    were resized to hold the entry [index] and that entry was written:
    the entries before [index] are kept. *)
Definition array_store {A : Type} (a : list A) (index : Z) (v : A) : list A :=
  firstn (Z.to_nat index) a ++ [v].

(** [path] is NULL ([None]) when [strtok] found no token; [faccessat]
    fails on it. *)
Definition rm_cmd_add_path (is_prefd_ : bool) (index : Z) (path : option string)
  : M bool :=
  let readable :=
    match path with
    | Some p => faccessat env p
    | None => false
    end in
  match path, readable with
  | Some p, true =>
      update_settings (fun cfg =>
        let abs_path := realpath env p in
        set_paths
          (array_store (paths cfg) index
             (match abs_path with Some a => a | None => p end))
          (set_is_prefd (array_store (is_prefd cfg) index is_prefd_) cfg)) ;;
      ret true
  | _, _ =>
      rm_log_warning_line
        ("Can't open directory or file " ++ dquote ++
         match path with Some p => p | None => "(null)" end ++
         dquote ++ ": " ++ strerror_errno env path) ;;
      ret false
  end.

Fixpoint rm_cmd_read_paths_loop (chunks : list string) (is_prefd_ : bool)
    (index paths_added : Z) : M Z :=
  match chunks with
  | [] => ret paths_added
  | path_buf :: chunks' =>
      added <- rm_cmd_add_path is_prefd_ (index + paths_added) (strtok_nl path_buf) ;;
      rm_cmd_read_paths_loop chunks' is_prefd_ index (paths_added + bool_to_int added)
  end.

(** Reads standard input to its end. *)
Definition rm_cmd_read_paths_from_stdin (is_prefd_ : bool) (index : Z) : M Z :=
  chunks <- gets stdin ;;
  modify (set_stdin []) ;;
  rm_cmd_read_paths_loop chunks is_prefd_ index 0.

(** [s] up to the first [c], and what follows that [c]. *)
Fixpoint strchr_split (s : string) (c : ascii) : option (string * string) :=
  match s with
  | EmptyString => None
  | String a r =>
      if Ascii.eqb a c then Some (EmptyString, r)
      else match strchr_split r c with
           | Some (p, q) => Some (String a p, q)
           | None => None
           end
  end.

Definition rm_fmt_add (name path : string) : M bool :=
  if rm_fmt_add_succeeds env name path then
    update_session (fun s =>
      set_formats
        {| fmt_handlers := fmt_handlers (formats s) ++ [(name, path)];
           fmt_config := fmt_config (formats s) |} s) ;;
    ret true
  else ret false.

Definition rm_fmt_clear : M unit :=
  update_session (fun s =>
    set_formats {| fmt_handlers := []; fmt_config := fmt_config (formats s) |} s).

Definition rm_fmt_len (s : RmSession) : Z :=
  Z.of_nat (List.length (fmt_handlers (formats s))).

Definition rm_fmt_set_config_value (formatter key value : string) : M unit :=
  update_session (fun s =>
    set_formats
      {| fmt_handlers := fmt_handlers (formats s);
         fmt_config := fmt_config (formats s) ++ [(formatter, key, value)] |} s).

Definition rm_fmt_set_state (state : RmFmtProgressState) : M unit :=
  modify (fun st => set_notified (notified st ++ [state]) st).

(** [format_name] is a buffer of 100 characters.  A name of 100
    characters or more leaves it without a terminating NUL (and, in a pair
    without colon, is written past its end): what [rm_fmt_add] then reads
    is not defined; here it is the first 100 characters, or the whole
    pair. *)
Definition rm_cmd_parse_output_pair (pair : string) (error : GError)
  : M (bool * GError) :=
  let (format_name, full_path) :=
    match strchr_split pair ":"%char with
    | None => (pair, "stdout")
    | Some (before, after) =>
        (substring 0 (Nat.min 100 (String.length before)) before, after)
    end in
  ok <- rm_fmt_add format_name full_path ;;
  if negb ok then
    ret (false, g_set_error error ("Adding -o " ++ pair ++ " as output failed."))
  else ret (true, error).

Definition rm_cmd_parse_config_pair (pair : string) : M bool :=
  match strchr_split pair ":"%char with
  | None =>
      rm_log_warning_line
        ("No format (format:key[=val]) specified in '" ++ pair ++ "'.") ;;
      ret false
  | Some (formatter, domain1) =>
      let key_val := g_strsplit domain1 "="%char 2 in
      match key_val with
      | [] =>
          rm_log_warning_line
            ("Missing key (format:key[=val]) in '" ++ pair ++ "'.") ;;
          ret false
      | key :: rest =>
          let value :=
            match rest with
            | [v] => v
            | _ => "1"
            end in
          rm_fmt_set_config_value formatter key value ;;
          ret true
      end
  end.

Definition rm_cmd_parse_config (pair : string) (error : GError) : M (bool * GError) :=
  rm_cmd_parse_config_pair pair ;;
  ret (true, error).

Definition percent : ascii := "%"%char.

Definition rm_cmd_parse_clamp_factor (string_ : string) : M F :=
  let (factor, consumed) := g_strtod string_ in
  let error_loc := drop consumed string_ in
  (match error_loc with
   | String c _ =>
       if negb (Ascii.eqb c percent) then
         rm_log_error_line
           ("Unable to parse factor " ++ dquote ++ string_ ++ dquote
            ++ ": error begins at " ++ error_loc) ;;
         rm_cmd_die EXIT_FAILURE
       else ret tt
   | EmptyString => ret tt
   end) ;;
  let factor :=
    match error_loc with
    | String c _ => if Ascii.eqb c percent then fl_div factor (fl_of_Z 100) else factor
    | EmptyString => factor
    end in
  (if fl_ltb factor (fl_of_Z 0) || fl_ltb (fl_of_Z 1) factor then
     rm_log_error_line "factor value is not in range [0-1]" ;;
     rm_cmd_die EXIT_FAILURE
   else ret tt) ;;
  ret factor.

Definition rm_cmd_parse_clamp_offset (string_ : string) : M Z :=
  let (offset, error_msg) := rm_cmd_size_string_to_bytes string_ in
  match error_msg with
  | Some msg =>
      rm_log_error_line ("Unable to parse offset " ++ dquote ++ string_ ++ dquote ++ ": " ++ msg) ;;
      rm_cmd_die EXIT_FAILURE
  | None => ret offset
  end.

Fixpoint g_str_has_suffix (s suffix : string) : bool :=
  String.eqb s suffix ||
  match s with
  | EmptyString => false
  | String _ r => g_str_has_suffix r suffix
  end.

Definition rm_cmd_parse_clamp_option (string_ : string) (start_or_end : bool) : M unit :=
  if strchr string_ "."%char || g_str_has_suffix string_ "%" then
    factor <- rm_cmd_parse_clamp_factor string_ ;;
    if start_or_end then
      update_settings (fun cfg =>
        set_skip_start_factor factor (set_flag use_absolute_start_offset false cfg))
    else
      update_settings (fun cfg =>
        set_skip_end_factor factor (set_flag use_absolute_end_offset false cfg))
  else
    offset <- rm_cmd_parse_clamp_offset string_ ;;
    if start_or_end then
      update_settings (fun cfg =>
        set_skip_start_offset offset (set_flag use_absolute_start_offset true cfg))
    else
      update_settings (fun cfg =>
        set_skip_end_offset offset (set_flag use_absolute_end_offset true cfg)).

(** *** Lint types *)

Record RmLintTypeOption : Type := {
  names : list string;
  enable : list RmBoolField
}.

Definition rm_cmd_find_line_type_func (input : string) (option_ : RmLintTypeOption) : Z :=
  if existsb (String.eqb input) (names option_) then 0 else 1.

Fixpoint skip_alpha (s : string) : string :=
  match s with
  | String c r => if isalpha c then skip_alpha r else s
  | EmptyString => EmptyString
  end.

Definition rm_cmd_find_lint_types_sep (lint_string : string) : ascii :=
  let lint_string :=
    match lint_string with
    | String c r =>
        if Ascii.eqb c "+"%char || Ascii.eqb c "-"%char then r else lint_string
    | EmptyString => lint_string
    end in
  deref (skip_alpha lint_string).

Definition option_table : list RmLintTypeOption :=
  [ {| names := ["all"];
       enable := [findbadids; findbadlinks; findemptydirs; listemptyfiles;
                  nonstripped; searchdup; merge_directories] |};
    {| names := ["minimal"];
       enable := [findbadids; findbadlinks; searchdup] |};
    {| names := ["minimaldirs"];
       enable := [findbadids; findbadlinks; merge_directories] |};
    {| names := ["defaults"];
       enable := [findbadids; findbadlinks; findemptydirs; listemptyfiles;
                  searchdup] |};
    {| names := ["none"]; enable := [] |};
    {| names := ["badids"; "bi"]; enable := [findbadids] |};
    {| names := ["badlinks"; "bl"]; enable := [findbadlinks] |};
    {| names := ["emptydirs"; "ed"]; enable := [findemptydirs] |};
    {| names := ["emptyfiles"; "ef"]; enable := [listemptyfiles] |};
    {| names := ["nonstripped"; "ns"]; enable := [nonstripped] |};
    {| names := ["duplicates"; "df"; "dupes"]; enable := [searchdup] |};
    {| names := ["duplicatedirs"; "dd"; "dupedirs"]; enable := [merge_directories] |} ].

Definition all_opts : RmLintTypeOption :=
  match option_table with
  | o :: _ => o
  | [] => {| names := []; enable := [] |}
  end.

(** [*field = v] for every field of the list. *)
Definition store_all (fields : list RmBoolField) (v : bool) (cfg : RmSettings) : RmSettings :=
  fold_left (fun c f => set_flag f v c) fields cfg.

(** [lint_sep[0]]: the separator found, a comma when there is none. *)
Definition lint_sep (lint_string : string) : ascii :=
  let sep := rm_cmd_find_lint_types_sep lint_string in
  if Ascii.eqb sep zero then ","%char else sep.

(** [lint_types]: the selector split at the separator. *)
Definition lint_split (lint_string : string) : list string :=
  g_strsplit lint_string (lint_sep lint_string) (-1).

Fixpoint rm_cmd_parse_lint_types_loop (lint_types : list string) (index : Z) : M unit :=
  match lint_types with
  | [] => ret tt
  | lint_type :: rest =>
      let sign :=
        if Ascii.eqb (deref lint_type) "+"%char then 1
        else if Ascii.eqb (deref lint_type) "-"%char then -1
        else 0 in
      (if (0 <? index) && (sign =? 0) then
         rm_log_warning "lint types after first should be prefixed with '+' or '-'" ;;
         rm_log_warning
           ("or they would over-ride previously set options: [" ++ lint_type ++ "]")
       else
         let lint_type := drop (Z.to_nat (Z.abs sign)) lint_type in
         match find (fun o => rm_cmd_find_line_type_func lint_type o =? 0) option_table with
         | None => rm_log_warning ("lint type '" ++ lint_type ++ "' not recognised")
         | Some option_ =>
             (if sign =? 0 then update_settings (store_all (enable all_opts) false)
              else ret tt) ;;
             update_settings
               (store_all (enable option_) (if sign =? -1 then false else true))
         end) ;;
      rm_cmd_parse_lint_types_loop rest (index + 1)
  end.

Definition rm_cmd_parse_lint_types (lint_string : string) (error : GError)
  : M (bool * GError) :=
  rm_cmd_parse_lint_types_loop (lint_split lint_string) 0 ;;
  merge <- settings_get (fun cfg => flag cfg merge_directories) ;;
  (if merge then
     update_settings (fun cfg =>
       set_flag find_hardlinked_dupes true (set_flag ignore_hidden false cfg))
   else ret tt) ;;
  ret (true, error).

(** *** Time stamps *)

Definition rm_cmd_timestamp_is_plain (stamp : string) : bool :=
  if strchr stamp "T"%char then false else true.

Definition rm_cmd_parse_timestamp (string_ : string) (error : GError)
  : M (bool * GError) :=
  let plain := rm_cmd_timestamp_is_plain string_ in
  update_settings (set_flag filter_mtime false) ;;
  result <-
    (if plain then ret (strtoll env string_)
     else
       rm_log_debug ("timestamp understood as " ++ rm_iso8601_format env (time env)) ;;
       ret (rm_iso8601_parse env string_)) ;;
  if result <=? 0 then
    ret (false, g_set_error error ("Unable to parse time spec " ++ dquote ++ string_ ++ dquote))
  else
    update_settings (set_flag filter_mtime true) ;;
    (if time env <? result then
       if plain then rm_log_warning_line "-n is newer than current time."
       else rm_log_warning_line ("-N " ++ string_ ++ " is newer than current time.")
     else ret tt) ;;
    update_settings (set_min_mtime result) ;;
    ret (true, error).

Definition rm_cmd_parse_timestamp_file (timestamp_path : string) (error : GError)
  : M (bool * GError) :=
  update_settings (set_flag filter_mtime false) ;;
  r <-
    match fopen_fgets env timestamp_path with
    | Some (Some stamp_buf) =>
        let stamp_buf := g_strstrip stamp_buf in
        se <- rm_cmd_parse_timestamp stamp_buf error ;;
        ret (rm_cmd_timestamp_is_plain stamp_buf, se)
    | Some None => ret (true, (false, error))
    | None => ret (false, (false, error))
    end ;;
  let plain := fst r in
  let success := fst (snd r) in
  let error := snd (snd r) in
  if negb success then ret (false, error)
  else
    rm_fmt_add "stamp" timestamp_path ;;
    (if negb plain then rm_fmt_set_config_value "stamp" "iso8601" "true" else ret tt) ;;
    ret (success, error).

(** *** Counters, algorithm, outputs *)

Definition rm_cmd_set_verbosity_from_cnt (verbosity_counter : Z) : M unit :=
  update_settings
    (set_verbosity
       (nth (Z.to_nat
               (CLAMP verbosity_counter 0 (Z.of_nat (List.length VERBOSITY_TO_LOG_LEVEL) - 1)))
          VERBOSITY_TO_LOG_LEVEL 0)).

Definition rm_cmd_set_paranoia_from_cnt (paranoia_counter : Z) (error : GError) : M GError :=
  if paranoia_counter =? -2 then
    update_settings (set_checksum_type RM_DIGEST_SPOOKY32) ;; ret error
  else if paranoia_counter =? -1 then
    update_settings (set_checksum_type RM_DIGEST_SPOOKY64) ;; ret error
  else if paranoia_counter =? 0 then ret error
  else if paranoia_counter =? 1 then
    update_settings (set_checksum_type RM_DIGEST_BASTARD) ;; ret error
  else if paranoia_counter =? 2 then
    update_settings
      (set_checksum_type (if HAVE_SHA512 env then RM_DIGEST_SHA512 else RM_DIGEST_SHA256)) ;;
    ret error
  else if paranoia_counter =? 3 then
    update_settings (set_checksum_type RM_DIGEST_PARANOID) ;; ret error
  else ret (g_set_error error "Only up to -ppp or down to -P flags allowed.").

Definition rm_cmd_on_error {A : Type} (message : string) : M A :=
  rm_log_error_line (message ++ ".") ;;
  rm_cmd_die EXIT_FAILURE.

Definition is_digest (a b : RmDigestType) : bool :=
  match a, b with
  | RM_DIGEST_UNKNOWN, RM_DIGEST_UNKNOWN => true
  | RM_DIGEST_BASTARD, RM_DIGEST_BASTARD => true
  | _, _ => false
  end.

Definition GPOINTER_TO_UINT (p : Z) : Z := p mod 2 ^ 32.

Definition rm_cmd_parse_algorithm (value : string) (error : GError)
  : M (bool * GError) :=
  let checksum := rm_string_to_digest_type env value in
  update_settings (set_checksum_type checksum) ;;
  if is_digest checksum RM_DIGEST_UNKNOWN then
    ret (true, g_set_error error ("Unknown hash algorithm: '" ++ value ++ "'"))
  else if is_digest checksum RM_DIGEST_BASTARD then
    update_session (fun s =>
      set_hash_seed2 (GPOINTER_TO_UINT (session_pointer_address env))
        (set_hash_seed1
           ((time env * GPOINTER_TO_UINT (session_address env)) mod 2 ^ 64) s)) ;;
    ret (true, error)
  else ret (true, error).

Definition rm_cmd_parse_small_output (output_pair : string) (error : GError)
  : M (bool * GError) :=
  update_session (fun s =>
    set_output_cnt (Z.max (fst (output_cnt s)) 0, snd (output_cnt s)) s) ;;
  r <- rm_cmd_parse_output_pair output_pair error ;;
  update_session (fun s =>
    set_output_cnt (fst (output_cnt s) + bool_to_int (fst r), snd (output_cnt s)) s) ;;
  ret (true, snd r).

Definition rm_cmd_parse_large_output (output_pair : string) (error : GError)
  : M (bool * GError) :=
  update_session (fun s =>
    set_output_cnt (fst (output_cnt s), Z.max (snd (output_cnt s)) 0) s) ;;
  r <- rm_cmd_parse_output_pair output_pair error ;;
  update_session (fun s =>
    set_output_cnt (fst (output_cnt s), snd (output_cnt s) + bool_to_int (fst r)) s) ;;
  ret (true, snd r).

Definition rm_cmd_parse_paranoid_mem (size_spec : string) (error : GError)
  : M (bool * GError) :=
  let (size, parse_error) := rm_cmd_size_string_to_bytes size_spec in
  match parse_error with
  | Some msg =>
      ret (false,
           g_set_error error
             ("Invalid size description " ++ dquote ++ size_spec ++ dquote ++ ": " ++ msg))
  | None =>
      update_settings (set_paranoid_mem size) ;;
      ret (true, error)
  end.

Definition rm_cmd_parse_clamp_low (spec : string) (error : GError) : M (bool * GError) :=
  rm_cmd_parse_clamp_option spec true ;;
  ret (true, error).

Definition rm_cmd_parse_clamp_top (spec : string) (error : GError) : M (bool * GError) :=
  rm_cmd_parse_clamp_option spec false ;;
  ret (true, error).

Definition rm_cmd_parse_cache (cache_path : string) (error : GError)
  : M (bool * GError) :=
  if negb (g_file_test_is_regular env cache_path) then
    ret (false, g_set_error error ("There is no cache at `" ++ cache_path ++ "'"))
  else
    update_session (fun s => set_cache_list (cache_list s ++ [cache_path]) s) ;;
    ret (true, error).

Definition rm_cmd_parse_progress (error : GError) : M (bool * GError) :=
  rm_fmt_clear ;;
  rm_fmt_add "progressbar" "stdout" ;;
  rm_fmt_add "summary" "stdout" ;;
  rm_fmt_add "sh" "rmlint.sh" ;;
  ret (true, error).

Definition rm_cmd_parse_no_progress (error : GError) : M (bool * GError) :=
  rm_fmt_clear ;;
  rm_fmt_add "pretty" "stdout" ;;
  rm_fmt_add "summary" "stdout" ;;
  rm_fmt_add "sh" "rmlint.sh" ;;
  ret (true, error).

Definition rm_cmd_parse_loud (error : GError) : M (bool * GError) :=
  update_session (fun s => set_verbosity_count (verbosity_count s + 1) s) ;;
  cnt <- session_get verbosity_count ;;
  rm_cmd_set_verbosity_from_cnt cnt ;;
  ret (true, error).

Definition rm_cmd_parse_quiet (error : GError) : M (bool * GError) :=
  update_session (fun s => set_verbosity_count (verbosity_count s - 1) s) ;;
  cnt <- session_get verbosity_count ;;
  rm_cmd_set_verbosity_from_cnt cnt ;;
  ret (true, error).

Definition rm_cmd_parse_paranoid (error : GError) : M (bool * GError) :=
  update_session (fun s => set_paranoia_count (paranoia_count s + 1) s) ;;
  cnt <- session_get paranoia_count ;;
  error <- rm_cmd_set_paranoia_from_cnt cnt error ;;
  ret (true, error).

Definition rm_cmd_parse_less_paranoid (error : GError) : M (bool * GError) :=
  update_session (fun s => set_paranoia_count (paranoia_count s - 1) s) ;;
  cnt <- session_get paranoia_count ;;
  error <- rm_cmd_set_paranoia_from_cnt cnt error ;;
  ret (true, error).

Definition rm_cmd_parse_merge_directories (error : GError) : M (bool * GError) :=
  update_settings (set_flag merge_directories true) ;;
  update_settings (set_flag find_hardlinked_dupes true) ;;
  update_settings (set_flag ignore_hidden false) ;;
  ret (true, error).

(** *** Paths and outputs *)

Definition rm_cmd_set_cwd : M bool :=
  match getcwd env with
  | None => rm_log LOG_ERROR "getcwd" ;; ret false
  | Some cwd_buf =>
      update_settings (set_iwd (cwd_buf ++ "/")) ;;
      ret true
  end.

Definition rm_cmd_set_cmdline (argv : list string) : M bool :=
  update_settings (set_joined_argv (String.concat " " argv)) ;;
  ret true.

(** The loop of [rm_cmd_set_paths]: the values of [path_index],
    [is_prefd] and [not_all_paths_read] when it ends. *)
Fixpoint rm_cmd_set_paths_loop (paths_ : list string) (path_index : Z)
    (is_prefd_ not_all_paths_read : bool) : M (Z * bool * bool) :=
  match paths_ with
  | [] => ret (path_index, is_prefd_, not_all_paths_read)
  | dir_path :: rest =>
      r <-
        (if strncmp_eq0 dir_path "-" then
           read_paths <- rm_cmd_read_paths_from_stdin is_prefd_ path_index ;;
           ret (read_paths, is_prefd_)
         else if strncmp_eq0 dir_path "//" then
           ret (0, negb is_prefd_)
         else
           added <- rm_cmd_add_path is_prefd_ path_index (Some dir_path) ;;
           ret (bool_to_int added, is_prefd_)) ;;
      let read_paths := fst r in
      let is_prefd_ := snd r in
      if read_paths =? 0 then
        rm_cmd_set_paths_loop rest path_index is_prefd_ true
      else
        rm_cmd_set_paths_loop rest (path_index + read_paths) is_prefd_ not_all_paths_read
  end.

Definition rm_cmd_set_paths (paths_ : list string) : M bool :=
  r <- rm_cmd_set_paths_loop paths_ 0 false false ;;
  let path_index := fst (fst r) in
  let is_prefd_ := snd (fst r) in
  let not_all_paths_read := snd r in
  if (path_index =? 0) && negb not_all_paths_read then
    cwd <- settings_get iwd ;;
    rm_cmd_add_path is_prefd_ path_index (Some cwd) ;;
    ret true
  else if (path_index =? 0) && not_all_paths_read then ret false
  else ret true.

Definition rm_cmd_set_outputs (error : GError) : M (bool * GError) :=
  cnt <- session_get output_cnt ;;
  len <- session_get rm_fmt_len ;;
  if (0 <=? fst cnt) && (0 <=? snd cnt) then
    ret (false, g_set_error error "Specifiyng both -o and -O is not allowed.")
  else if (fst cnt <? 0) && (snd cnt <? 0) && (len =? 0) then
    rm_fmt_add "pretty" "stdout" ;;
    rm_fmt_add "summary" "stdout" ;;
    rm_fmt_add "sh" "rmlint.sh" ;;
    ret (true, error)
  else ret (true, error).

(** *** The option parser of GLib over the table *)

Definition run_callback (name : RmCallback) (value : string) (error : GError)
  : M (bool * GError) :=
  match name with
  | parse_lint_types => rm_cmd_parse_lint_types value error
  | parse_limit_sizes => rm_cmd_parse_limit_sizes value error
  | parse_algorithm => rm_cmd_parse_algorithm value error
  | parse_small_output => rm_cmd_parse_small_output value error
  | parse_large_output => rm_cmd_parse_large_output value error
  | parse_paranoid_mem => rm_cmd_parse_paranoid_mem value error
  | parse_timestamp_file => rm_cmd_parse_timestamp_file value error
  | parse_timestamp => rm_cmd_parse_timestamp value error
  | parse_clamp_low => rm_cmd_parse_clamp_low value error
  | parse_clamp_top => rm_cmd_parse_clamp_top value error
  | parse_config => rm_cmd_parse_config value error
  | parse_cache => rm_cmd_parse_cache value error
  | parse_progress => rm_cmd_parse_progress error
  | parse_no_progress => rm_cmd_parse_no_progress error
  | parse_loud => rm_cmd_parse_loud error
  | parse_quiet => rm_cmd_parse_quiet error
  | parse_paranoid => rm_cmd_parse_paranoid error
  | parse_less_paranoid => rm_cmd_parse_less_paranoid error
  | parse_merge_directories => rm_cmd_parse_merge_directories error
  | show_help => rm_cmd_show_help
  | show_version => rm_cmd_show_version
  end.

Definition has_flag (entry : GOptionEntry) (f : Z) : bool :=
  negb (Z.land (entry_flags entry) f =? 0).

Definition store_int (f : RmIntField) (v : Z) (cfg : RmSettings) : RmSettings :=
  match f with
  | cfg_threads => set_threads v cfg
  | cfg_depth => set_depth v cfg
  end.

(** GLib's [parse_arg]: store the value of one option, or call its
    callback.  An option that takes no argument ignores a value given
    with "=": a flag is set all the same and the callback gets no data.
    An option that needs a value and has none is refused.  A callback
    that fails without setting the error gets GLib's own message. *)
Definition parse_arg (entry : GOptionEntry) (value : option string) (error : GError)
  : M (bool * GError) :=
  match arg entry, arg_data entry, value with
  | G_OPTION_ARG_NONE, bool_field f, _ =>
      update_settings (set_flag f (negb (has_flag entry G_OPTION_FLAG_REVERSE))) ;;
      ret (true, error)
  | G_OPTION_ARG_INT, int_field f, Some v =>
      match g_parse_int env v with
      | Some n => update_settings (store_int f n) ;; ret (true, error)
      | None => ret (false, g_set_error error ("Cannot parse integer value for " ++ long_name entry))
      end
  | G_OPTION_ARG_STRING, sort_criteria_field, Some v =>
      update_settings (set_sort_criteria v) ;;
      ret (true, error)
  | G_OPTION_ARG_CALLBACK, FUNC name, _ =>
      match has_flag entry G_OPTION_FLAG_NO_ARG, value with
      | false, None =>
          ret (false, g_set_error error ("Missing argument for " ++ long_name entry))
      | no_arg, _ =>
          let data := match value with Some v => if no_arg then "" else v | None => "" end in
          r <- run_callback name data error ;;
          if fst r then ret r
          else ret (false, g_set_error (snd r) ("Error parsing option " ++ long_name entry))
      end
  | _, _, _ => ret (false, g_set_error error ("Missing argument for " ++ long_name entry))
  end.

Definition find_entry (tok : Token) : option GOptionEntry :=
  match tok with
  | LongOpt name _ =>
      find (fun e => String.eqb (long_name e) name
                     && negb (String.eqb name G_OPTION_REMAINING)) option_entries
  | ShortOpt ch _ =>
      find (fun e => Ascii.eqb (short_name e) ch && negb (Ascii.eqb ch zero)) option_entries
  | Leftover _ => None
  end.

(** The help options GLib adds to every context: the argument "--help" or
    "--help-all" as a whole (with "=VALUE" it is an option of another
    name; "--help-GROUP" needs a group added to the context, and this
    context has only its main group), and the short options 'h' and '?'. *)
Definition is_help_option (tok : Token) : bool :=
  match tok with
  | LongOpt name None => String.eqb name "help" || String.eqb name "help-all"
  | LongOpt _ (Some _) => false
  | ShortOpt ch _ => Ascii.eqb ch "h"%char || Ascii.eqb ch "?"%char
  | Leftover _ => false
  end.

Definition token_value (tok : Token) : option string :=
  match tok with
  | LongOpt _ v => v
  | ShortOpt _ v => v
  | Leftover _ => None
  end.

(** [g_option_context_parse] with the error hook [rm_cmd_on_error]: the
    options are applied in order, the left over arguments collected in
    [paths]; the first failure calls the hook, which ends the process. *)
Fixpoint g_option_context_parse (tokens : list Token) (error : GError)
    (paths_ : list string) : M (GError * list string) :=
  match tokens with
  | [] => ret (error, paths_)
  | Leftover a :: rest => g_option_context_parse rest error (paths_ ++ [a])
  | tok :: rest =>
      if is_help_option tok then exit 0
      else
        r <-
          match find_entry tok with
          | Some entry => parse_arg entry (token_value tok) error
          | None => ret (false, g_set_error error "Unknown option")
          end ;;
        if fst r then g_option_context_parse rest (snd r) paths_
        else rm_cmd_on_error (match snd r with Some m => m | None => "" end)
  end.

(** *** rm_cmd_parse_args *)

Definition rm_cmd_parse_args (argv : list string) : M bool :=
  cnt <- session_get verbosity_count ;;
  rm_cmd_set_verbosity_from_cnt cnt ;;
  cwd_ok <- rm_cmd_set_cwd ;;
  if negb cwd_ok then ret false
  else
    cmdline_ok <- rm_cmd_set_cmdline argv ;;
    if negb cmdline_ok then ret false
    else
      r <- g_option_context_parse (g_option_scan env argv) None [] ;;
      let error := fst r in
      let paths_ := snd r in
      update_settings (fun cfg => set_threads (CLAMP (threads cfg) 1 128) cfg) ;;
      update_settings (fun cfg => set_depth (CLAMP (depth cfg) 1 (PATH_MAX / 2 + 1)) cfg) ;;
      update_settings (set_flag color (isatty_stdout env && isatty_stderr env)) ;;
      keep_both <-
        settings_get (fun cfg => flag cfg keep_all_tagged && flag cfg keep_all_untagged) ;;
      clamp_crossed <-
        settings_get (fun cfg => fl_leb (skip_end_factor cfg) (skip_start_factor cfg)) ;;
      error <-
        (if keep_both then
           ret (Some "can't specify both --keep-all-tagged and --keep-all-untagged")
         else if clamp_crossed then
           ret (Some "-q (--clamp-low) should be lower than -Q (--clamp-top)!")
         else
           paths_ok <- rm_cmd_set_paths paths_ ;;
           if negb paths_ok then ret (Some "No valid paths given.")
           else
             o <- rm_cmd_set_outputs error ;;
             ret (snd o)) ;;
      match error with
      | Some message => rm_cmd_on_error message
      | None => ret true
      end.

(** *** rm_cmd_main *)

Definition rm_cmd_main : M Z :=
  rm_fmt_set_state RM_PROGRESS_STATE_INIT ;;
  rm_fmt_set_state RM_PROGRESS_STATE_TRAVERSE ;;
  update_session (fun s => set_mounts (rm_mounts_table_new env s) s) ;;
  s <- get_session ;;
  exit_state <-
    match mounts s with
    | None => ret EXIT_FAILURE
    | Some _ =>
        update_session (rm_traverse_tree env) ;;
        rm_log_debug "List build finished" ;;
        s <- get_session ;;
        (if flag (settings s) merge_directories then
           update_session (fun s => set_dir_merger (Some (rm_tm_new env s)) s)
         else ret tt) ;;
        s <- get_session ;;
        (if 1 <=? total_files s then
           rm_fmt_set_state RM_PROGRESS_STATE_PREPROCESS ;;
           update_session (rm_preprocess env) ;;
           s <- get_session ;;
           if flag (settings s) searchdup || flag (settings s) merge_directories then
             update_session (rm_shred_run env) ;;
             rm_log_debug "Dupe search finished"
           else ret tt
         else ret tt) ;;
        s <- get_session ;;
        (if flag (settings s) merge_directories then
           rm_fmt_set_state RM_PROGRESS_STATE_MERGE ;;
           update_session (rm_tm_finish env)
         else ret tt) ;;
        rm_fmt_set_state RM_PROGRESS_STATE_PRE_SHUTDOWN ;;
        rm_fmt_set_state RM_PROGRESS_STATE_SUMMARY ;;
        ret EXIT_SUCCESS
    end ;;
  update_session (rm_session_clear env) ;;
  ret exit_state.

End Cmdline.

Arguments RmSettings : clear implicits.
Arguments RmSession : clear implicits.
Arguments State : clear implicits.
Arguments Env : clear implicits.
Arguments Outcome : clear implicits.
Arguments Return {F A} a st.
Arguments Exit {F A} status st.
Arguments M : clear implicits.

(** ** An exact instance of the floating point operations

    Values are rationals and the arithmetic is exact; the two parsers read
    decimal numerals ("12", "1.5", ".5", "2e3"), where those of libc also
    read hexadecimal numerals, infinities and NaN.  Conversion to [RmOff]
    drops the fraction; out of the range of [RmOff], where C leaves the
    conversion undefined, it wraps.  It obeys [FloatLaws] and
    [FloatExact]. *)
Module ExactFloat.

Definition isspace (c : ascii) : bool :=
  let n := char_code c in (n =? 32) || ((9 <=? n) && (n <=? 13)).

Definition isdigit (c : ascii) : bool :=
  let n := char_code c in (48 <=? n) && (n <=? 57).

Fixpoint skip_space (s : string) : nat * string :=
  match s with
  | String c r =>
      if isspace c then let (n, rest) := skip_space r in (S n, rest) else (O, s)
  | EmptyString => (O, s)
  end.

Definition read_sign (s : string) : bool * nat * string :=
  match s with
  | String c r =>
      if Ascii.eqb c "-"%char then (true, 1%nat, r)
      else if Ascii.eqb c "+"%char then (false, 1%nat, r)
      else (false, O, s)
  | EmptyString => (false, O, s)
  end.

(** The digits at the start of [s], read after the digits that gave
    [acc]: the number, how many digits were read, and the rest. *)
Fixpoint read_digits (s : string) (acc : Z) : Z * nat * string :=
  match s with
  | String c r =>
      if isdigit c then
        let '(v, n, rest) := read_digits r (acc * 10 + (char_code c - 48)) in
        (v, S n, rest)
      else (acc, O, s)
  | EmptyString => (acc, O, s)
  end.

Definition read_exponent (s : string) : Z * nat :=
  match s with
  | String c r =>
      if Ascii.eqb c "e"%char || Ascii.eqb c "E"%char then
        let '(eneg, nes, r2) := read_sign r in
        let '(ev, n3, _) := read_digits r2 0 in
        if Nat.eqb n3 O then (0, O)
        else (if eneg then - ev else ev, (1 + nes + n3)%nat)
      else (0, O)
  | EmptyString => (0, O)
  end.

Definition strtod_decimal (s : string) : Q * nat :=
  let '(nws, s1) := skip_space s in
  let '(neg, nsign, s2) := read_sign s1 in
  let '(ip, n1, s3) := read_digits s2 0 in
  let '(m, n2, ndot, s4) :=
    match s3 with
    | String c r =>
        if Ascii.eqb c "."%char then
          let '(v, n, rest) := read_digits r ip in (v, n, 1%nat, rest)
        else (ip, O, O, s3)
    | EmptyString => (ip, O, O, s3)
    end in
  if Nat.eqb (n1 + n2) O then (0%Q, O)
  else
    let (ex, nexp) := read_exponent s4 in
    let v := (inject_Z m * Qpower (inject_Z 10) (ex - Z.of_nat n2))%Q in
    (if neg then (- v)%Q else v, (nws + nsign + n1 + ndot + n2 + nexp)%nat).

(** Towards zero. *)
Definition Qtrunc (x : Q) : Z :=
  if Qle_bool 0 x then Qfloor x else Qceiling x.

(** [round]: to the nearest integer, halves away from zero. *)
Definition Qround_half_away (x : Q) : Q :=
  if Qle_bool 0 x then inject_Z (Qfloor (x + (1 # 2)))
  else inject_Z (Qceiling (x - (1 # 2))).

Definition to_RmOff (x : Q) : Z := Qtrunc x mod 2 ^ 64.

#[global] Instance exact_float : FloatOps Q := {|
  fl_of_Z := inject_Z;
  fl_eqb := Qeq_bool;
  fl_ltb := fun x y => negb (Qle_bool y x);
  fl_leb := Qle_bool;
  fl_mul := Qmult;
  fl_div := Qdiv;
  pow := fun x y => Qpower x (Qfloor y);
  round := Qround_half_away;
  fl_to_RmOff := to_RmOff;
  strtold := strtod_decimal;
  g_strtod := strtod_decimal
|}.

End ExactFloat.

(** ** A sample environment and session

    Used to evaluate the model: every path below /missing is unreadable,
    the scanner reads "--name", "--name=value", "-n" and "-nVALUE",
    standard output is a terminal and standard error is not. *)
Module Demo.

Definition scan_arg (a : string) : Token :=
  match a with
  | String c1 (String c2 r) =>
      if Ascii.eqb c1 "-"%char then
        if Ascii.eqb c2 "-"%char then
          match strchr_split r "="%char with
          | Some (name, value) => LongOpt name (Some value)
          | None => LongOpt r None
          end
        else ShortOpt c2 (match r with EmptyString => None | _ => Some r end)
      else Leftover a
  | _ => Leftover a
  end.

Definition parse_decimal (s : string) : option Z :=
  let '(v, n, rest) := ExactFloat.read_digits s 0 in
  if negb (Nat.eqb n O) && String.eqb rest EmptyString then Some v else None.

Definition leading_decimal (s : string) : Z :=
  fst (fst (ExactFloat.read_digits s 0)).

Definition env (files : Z) : Env Q := {|
  g_option_scan := fun argv => map scan_arg (tl argv);
  g_parse_int := parse_decimal;
  getcwd := Some "/home/user";
  faccessat := fun p => negb (String.prefix "/missing" p);
  strerror_errno := fun _ => "No such file or directory";
  realpath := fun p => Some p;
  isatty_stdout := true;
  isatty_stderr := false;
  time := 1400000000;
  strtoll := leading_decimal;
  system := fun _ => false;
  g_file_test_is_regular := fun _ => false;
  fopen_fgets := fun _ => None;
  session_address := 4096;
  session_pointer_address := 8192;
  HAVE_SHA512 := true;
  rm_iso8601_parse := fun _ => 0;
  rm_iso8601_format := fun _ => "";
  rm_string_to_digest_type := fun _ => RM_DIGEST_UNKNOWN;
  rm_fmt_add_succeeds := fun _ _ => true;
  rm_session_clear := fun s => s;
  rm_mounts_table_new := fun _ => Some 1;
  rm_traverse_tree := set_total_files files;
  rm_tm_new := fun _ => 1;
  rm_preprocess := fun s => s;
  rm_shred_run := fun s => s;
  rm_tm_finish := fun s => s
|}.

(** The same environment in a working directory that cannot be read,
    with no terminal at all. *)
Definition env_without_cwd (files : Z) : Env Q := {|
  g_option_scan := g_option_scan (env files);
  g_parse_int := g_parse_int (env files);
  getcwd := None;
  faccessat := faccessat (env files);
  strerror_errno := strerror_errno (env files);
  realpath := realpath (env files);
  isatty_stdout := false;
  isatty_stderr := false;
  time := time (env files);
  strtoll := strtoll (env files);
  system := system (env files);
  g_file_test_is_regular := g_file_test_is_regular (env files);
  fopen_fgets := fopen_fgets (env files);
  session_address := session_address (env files);
  session_pointer_address := session_pointer_address (env files);
  HAVE_SHA512 := HAVE_SHA512 (env files);
  rm_iso8601_parse := rm_iso8601_parse (env files);
  rm_iso8601_format := rm_iso8601_format (env files);
  rm_string_to_digest_type := rm_string_to_digest_type (env files);
  rm_fmt_add_succeeds := rm_fmt_add_succeeds (env files);
  rm_session_clear := rm_session_clear (env files);
  rm_mounts_table_new := rm_mounts_table_new (env files);
  rm_traverse_tree := rm_traverse_tree (env files);
  rm_tm_new := rm_tm_new (env files);
  rm_preprocess := rm_preprocess (env files);
  rm_shred_run := rm_shred_run (env files);
  rm_tm_finish := rm_tm_finish (env files)
|}.

Definition default_flags : RmFlags :=
  fold_left (fun fl f => put_flag f true fl)
    [color; ignore_hidden; samepart; findbadids; findbadlinks; findemptydirs;
     listemptyfiles; searchdup]
    (Build_RmFlags false false false false false false false false false
       false false false false false false false false false false false
       false false false false false false false).

Definition default_settings : RmSettings Q := {|
  flags := default_flags;
  threads := 16;
  depth := PATH_MAX / 2;
  sort_criteria := "m";
  minsize := 0;
  maxsize := G_MAXULONG;
  min_mtime := 0;
  paranoid_mem := 256 * 1024 * 1024;
  skip_start_factor := 0%Q;
  skip_start_offset := 0;
  skip_end_factor := 1%Q;
  skip_end_offset := 0;
  verbosity := G_LOG_LEVEL_WARNING;
  checksum_type := RM_DIGEST_SPOOKY64;
  paths := [];
  is_prefd := [];
  iwd := "";
  joined_argv := ""
|}.

Definition fresh_session : RmSession Q := {|
  settings := default_settings;
  formats := {| fmt_handlers := []; fmt_config := [] |};
  output_cnt := (-1, -1);
  verbosity_count := 2;
  paranoia_count := 0;
  cache_list := [];
  hash_seed1 := 0;
  hash_seed2 := 0;
  mounts := None;
  dir_merger := None;
  total_files := 0
|}.

Definition start (input : list string) : State Q := {|
  session := fresh_session;
  stdin := input;
  log := [];
  notified := []
|}.

End Demo.

(** * The vocabulary of the properties *)

(** ** The suffix table *)

Definition nul_free (s : string) : bool := negb (strchr s zero).

Definition table_entry (f : FormatSpec) : Z * Z := (base f, exponent f).

Definition lookup_suffix (key : string) : option FormatSpec :=
  bsearch {| id := key; base := 0; exponent := 0 |}
    SIZE_FORMAT_TABLE SIZE_FORMAT_TABLE_N rm_cmd_compare_spec_elem.

Section Vocabulary.

Context {F : Type} {FO : FloatOps F}.

Variable env : Env F.

Local Notation "x <- m ;; k" := (bind m (fun x => k))
  (at level 61, m at next level, right associativity).
Local Notation "m ;; k" := (bind m (fun _ => k))
  (at level 61, right associativity).

(** ** Calls *)

Definition cfg_flag (st : State F) (f : RmBoolField) : bool :=
  flag (settings (session st)) f.

(** A call that always returns. *)
Definition returns {A : Type} (m : M F A) : Prop :=
  forall st, exists a st', m st = Return a st'.

(** ** Lists of lint types *)

Fixpoint all_alpha (s : string) : bool :=
  match s with
  | String c r => isalpha c && all_alpha r
  | EmptyString => true
  end.

Definition is_sign (c : ascii) : bool :=
  Ascii.eqb c "+"%char || Ascii.eqb c "-"%char.

(** An alphabetic word with an optional leading sign. *)
Definition is_signed_word (w : string) : bool :=
  match w with
  | String c r => if is_sign c then all_alpha r else all_alpha w
  | EmptyString => true
  end.

(** No comma, colon or semicolon. *)
Definition sep_free (w : string) : bool :=
  negb (strchr w ","%char || strchr w ":"%char || strchr w ";"%char).

Definition is_list_sep (c : ascii) : bool :=
  Ascii.eqb c ","%char || Ascii.eqb c ":"%char || Ascii.eqb c ";"%char.

(** A well formed selector list: a signed word first, no separator
    character inside the elements. *)
Definition lint_list_ok (ws : list string) : Prop :=
  match ws with
  | w :: _ => is_signed_word w = true
  | [] => False
  end
  /\ (forall x, In x ws -> sep_free x = true)
  /\ Z.of_nat (List.length ws) < G_MAXINT.

(** ** Input roots

    The roots that [rm_cmd_set_paths] leaves in the session, as a function
    of the leftover arguments and of the lines on standard input: "//"
    toggles the preferred flag, "-" takes the roots from the lines of
    standard input, every other argument is a root if it can be read; a
    root carries the preferred flag in effect. *)

Definition resolve (p : string) : string :=
  match realpath env p with
  | Some a => a
  | None => p
  end.

Definition root_of (preferred : bool) (path : option string) : list (string * bool) :=
  match path with
  | Some p => if faccessat env p then [(resolve p, preferred)] else []
  | None => []
  end.

Fixpoint roots_of_args (args : list string) (preferred : bool) (input : list string)
  : list (string * bool) :=
  match args with
  | [] => []
  | a :: rest =>
      if String.eqb a "-" then
        flat_map (fun line => root_of preferred (strtok_nl line)) input
        ++ roots_of_args rest preferred []
      else if String.eqb a "//" then roots_of_args rest (negb preferred) input
      else root_of preferred (Some a) ++ roots_of_args rest preferred input
  end.

(** The same with every root added, readable or not: the specification
    to the letter. *)
Fixpoint claimed_roots (args : list string) (preferred : bool) (input : list string)
  : list (string * bool) :=
  match args with
  | [] => []
  | a :: rest =>
      if String.eqb a "-" then
        flat_map (fun line => match strtok_nl line with
                              | Some p => [(resolve p, preferred)]
                              | None => []
                              end) input
        ++ claimed_roots rest preferred []
      else if String.eqb a "//" then claimed_roots rest (negb preferred) input
      else (resolve a, preferred) :: claimed_roots rest preferred input
  end.

(** An argument that starts neither with '-' nor with "//". *)
Definition plain_root (a : string) : bool :=
  negb (strncmp_eq0 a "-") && negb (strncmp_eq0 a "//").

(** The roots of the session with their preferred flags. *)
Definition roots (st : State F) : list (string * bool) :=
  combine (paths (settings (session st))) (is_prefd (settings (session st))).

Definition roots_after {A : Type} (o : Outcome F A) : list (string * bool) :=
  match o with
  | Return _ st => roots st
  | Exit _ st => roots st
  end.

Definition warned (st : State F) (path : option string) : State F :=
  set_log
    (log st ++
     [(LOG_WARNING,
       "Can't open directory or file " ++ dquote ++
       match path with Some p => p | None => "(null)" end ++
       dquote ++ ": " ++ strerror_errno env path)]) st.

Definition stored (st : State F) (preferred : bool) (index : Z) (p : string) : State F :=
  set_session
    (set_settings
       (set_paths (array_store (paths (settings (session st))) index (resolve p))
          (set_is_prefd (array_store (is_prefd (settings (session st))) index preferred)
             (settings (session st))))
       (session st)) st.

(** The two arrays hold [index] entries each. *)
Definition filled (st : State F) (index : Z) : Prop :=
  index = Z.of_nat (List.length (paths (settings (session st))))
  /\ List.length (paths (settings (session st)))
     = List.length (is_prefd (settings (session st))).

Definition well_formed_arg (a : string) : Prop :=
  a = "-" \/ a = "//" \/ plain_root a = true.

(** ** The phases of a run *)

(** The phases [rm_cmd_main] itself notifies the formatters of. *)
Definition own_notifications (mounts_ok preprocess merge : bool)
  : list RmFmtProgressState :=
  [RM_PROGRESS_STATE_INIT; RM_PROGRESS_STATE_TRAVERSE]
  ++ (if mounts_ok then
        (if preprocess then [RM_PROGRESS_STATE_PREPROCESS] else [])
        ++ (if merge then [RM_PROGRESS_STATE_MERGE] else [])
        ++ [RM_PROGRESS_STATE_PRE_SHUTDOWN; RM_PROGRESS_STATE_SUMMARY]
      else []).

Definition all_phases : list RmFmtProgressState :=
  [RM_PROGRESS_STATE_INIT; RM_PROGRESS_STATE_TRAVERSE; RM_PROGRESS_STATE_PREPROCESS;
   RM_PROGRESS_STATE_SHRED; RM_PROGRESS_STATE_MERGE; RM_PROGRESS_STATE_PRE_SHUTDOWN;
   RM_PROGRESS_STATE_SUMMARY].

(** The session after the traversal. *)
Definition traversed (s : RmSession F) : RmSession F :=
  rm_traverse_tree env (set_mounts (rm_mounts_table_new env s) s).

(** The session in which [rm_cmd_main] asks whether directories are to be
    merged: after the traversal, after the directory merger was set up
    and, when the traversal found a file, after the preprocessing and the
    search for duplicates. *)
Definition searched (s : RmSession F) : RmSession F :=
  let s2 := traversed s in
  let s3 :=
    if flag (settings s2) merge_directories
    then set_dir_merger (Some (rm_tm_new env s2)) s2 else s2 in
  if 1 <=? total_files s3 then
    let s4 := rm_preprocess env s3 in
    if flag (settings s4) searchdup || flag (settings s4) merge_directories
    then rm_shred_run env s4 else s4
  else s3.

(** [l] keeps the order of [full], leaving elements out. *)
Inductive subsequence {A : Type} : list A -> list A -> Prop :=
  | subsequence_nil : subsequence [] []
  | subsequence_keep (x : A) (l full : list A) :
      subsequence l full -> subsequence (x :: l) (x :: full)
  | subsequence_skip (x : A) (l full : list A) :
      subsequence l full -> subsequence l (x :: full).

(** ** The steps of [rm_cmd_parse_args] *)

(** The state in which the options are read. *)
Definition before_options (argv : list string) (cwd : string) (st : State F) : State F :=
  set_session
    (set_settings
       (set_joined_argv (String.concat " " argv)
          (set_iwd (cwd ++ "/")
             (set_verbosity
                (nth (Z.to_nat
                        (CLAMP (verbosity_count (session st)) 0
                           (Z.of_nat (List.length VERBOSITY_TO_LOG_LEVEL) - 1)))
                   VERBOSITY_TO_LOG_LEVEL 0)
                (settings (session st)))))
       (session st)) st.

(** What [rm_cmd_parse_args] does with the result of the option parser:
    it fixes three settings, then checks the options, the paths and the
    outputs. *)
Definition check_options (r : GError * list string) : M F bool :=
  let error := fst r in
  let paths_ := snd r in
  keep_both <-
    settings_get (fun cfg => flag cfg keep_all_tagged && flag cfg keep_all_untagged) ;;
  clamp_crossed <-
    settings_get (fun cfg => fl_leb (skip_end_factor cfg) (skip_start_factor cfg)) ;;
  error <-
    (if keep_both then
       ret (Some "can't specify both --keep-all-tagged and --keep-all-untagged")
     else if clamp_crossed then
       ret (Some "-q (--clamp-low) should be lower than -Q (--clamp-top)!")
     else
       paths_ok <- rm_cmd_set_paths env paths_ ;;
       if negb paths_ok then ret (Some "No valid paths given.")
       else
         o <- rm_cmd_set_outputs env error ;;
         ret (snd o)) ;;
  match error with
  | Some message => rm_cmd_on_error env message
  | None => ret true
  end.

Definition fix_options (st : State F) : State F :=
  set_session
    (set_settings
       (set_flag color (isatty_stdout env && isatty_stderr env)
          (set_depth (CLAMP (depth (settings (session st))) 1 (PATH_MAX / 2 + 1))
             (set_threads (CLAMP (threads (settings (session st))) 1 128)
                (settings (session st)))))
       (session st)) st.

Definition after_options (r : GError * list string) : M F bool :=
  fun st => check_options r (fix_options st).

(** A property of the state that a call keeps when it returns. *)
Definition preserves {A : Type} (P : State F -> Prop) (m : M F A) : Prop :=
  forall st a st', P st -> m st = Return a st' -> P st'.

(** The options that the paths and the outputs leave alone. *)
Definition options_are (fl : RmFlags) (t d : Z) (st : State F) : Prop :=
  flags (settings (session st)) = fl
  /\ threads (settings (session st)) = t
  /\ depth (settings (session st)) = d.

(** ** What the colour flag can reach *)

(** The state with the colour flag and the joined command line wiped. *)
Definition erase (st : State F) : State F :=
  set_session
    (set_settings
       (set_joined_argv "" (set_flag color false (settings (session st))))
       (session st)) st.

(** What is seen of an outcome: the result and the state without the two
    wiped members, or the exit status. *)
Definition observe {A : Type} (o : Outcome F A) : (A * State F) + Z :=
  match o with
  | Return a st => inl (a, erase st)
  | Exit status _ => inr status
  end.

Definition secure {A : Type} (m : M F A) : Prop :=
  forall st, observe (m st) = observe (m (erase st)).

Definition erase_settings (cfg : RmSettings F) : RmSettings F :=
  set_joined_argv "" (set_flag color false cfg).

(** The two colour options; they take no argument, and a value given
    with one of them is ignored. *)
Definition is_color_option (tok : Token) : bool :=
  match tok with
  | LongOpt name _ => String.eqb name "with-color" || String.eqb name "no-with-color"
  | ShortOpt ch _ => Ascii.eqb ch "w"%char || Ascii.eqb ch "W"%char
  | Leftover _ => false
  end.

Definition without_color (tokens : list Token) : list Token :=
  filter (fun tok => negb (is_color_option tok)) tokens.

(** ** Configuration errors *)


(** The time [rm_cmd_parse_timestamp] reads from a time spec. *)
Definition time_of_spec (spec : string) : Z :=
  if rm_cmd_timestamp_is_plain spec then strtoll env spec
  else rm_iso8601_parse env spec.



End Vocabulary.

(** ** The vocabulary of the further properties *)

(** Only white space. *)
Fixpoint all_space (s : string) : bool :=
  match s with
  | String c r => g_ascii_isspace c && all_space r
  | EmptyString => true
  end.

(** The formatter name of an output pair "name:path" or "name". *)
Definition output_name (pair : string) : string :=
  match strchr_split pair ":"%char with
  | Some (before, _) => before
  | None => pair
  end.

Section FormatterVocabulary.

Context {F : Type} {FO : FloatOps F}.

Variable env : Env F.

(** The formatters registered in the session, and their configuration. *)
Definition formatters (st : State F) : list (string * string) :=
  fmt_handlers (formats (session st)).

Definition formatter_config (st : State F) : list (string * string * string) :=
  fmt_config (formats (session st)).

(** The formatters of a list that [rm_fmt_add] accepts. *)
Definition accepted (l : list (string * string)) : list (string * string) :=
  filter (fun h => rm_fmt_add_succeeds env (fst h) (snd h)) l.

End FormatterVocabulary.

(** The lint types a group of the table enables. *)
Definition in_group (o : RmLintTypeOption) (f : RmBoolField) : bool :=
  existsb (fun g => is_field g f) (enable o).

(** The option of the table that a name selects. *)
Definition lint_group (name : string) : option RmLintTypeOption :=
  find (fun o => rm_cmd_find_line_type_func name o =? 0) option_table.

(** The seven lint type settings. *)
Definition lint_flags : list RmBoolField := enable all_opts.

Section LintVocabulary.

Context {F : Type}.

(** Two settings that differ in their boolean members at most, two
    sessions that differ in their settings at most. *)
Definition same_but_flags (cfg cfg' : RmSettings F) : Prop :=
  set_flags (flags cfg) cfg' = set_flags (flags cfg) cfg.

Definition same_but_settings (s s' : RmSession F) : Prop :=
  set_settings (settings s) s' = set_settings (settings s) s.

(** What parsing the lint types may change: the lint types and the two
    settings that directory merging pulls in, and the log. *)
Definition lint_frame (st st' : State F) : Prop :=
  same_but_flags (settings (session st)) (settings (session st'))
  /\ same_but_settings (session st) (session st')
  /\ stdin st' = stdin st
  /\ notified st' = notified st
  /\ forall f, ~ In f (ignore_hidden :: find_hardlinked_dupes :: lint_flags) ->
               cfg_flag st' f = cfg_flag st f.

End LintVocabulary.

Section FrameVocabulary.

Context {F : Type}.

(** What setting the paths may change: the two arrays of the roots,
    standard input and the log. *)
Definition paths_frame (st st' : State F) : Prop :=
  set_paths [] (set_is_prefd [] (settings (session st')))
  = set_paths [] (set_is_prefd [] (settings (session st)))
  /\ same_but_settings (session st) (session st')
  /\ notified st' = notified st.

(** What setting the outputs may change: the formatters. *)
Definition outputs_frame (st st' : State F) : Prop :=
  set_formats (formats (session st)) (session st')
  = set_formats (formats (session st)) (session st)
  /\ stdin st' = stdin st
  /\ log st' = log st
  /\ notified st' = notified st.

End FrameVocabulary.

Section ErrorVocabulary.

Context {F : Type}.

(** Every result a call returns satisfies [Q]. *)
Definition results {A : Type} (Q : A -> Prop) (m : M F A) : Prop :=
  forall st a st', m st = Return a st' -> Q a.

(** The error of a result is set. *)
Definition error_set (r : bool * GError) : Prop := snd r <> None.

End ErrorVocabulary.

Section ExitVocabulary.

Context {F : Type}.

(** Every status a call ends the process with satisfies [S]. *)
Definition exits {A : Type} (S : Z -> Prop) (m : M F A) : Prop :=
  forall st status st', m st = Exit status st' -> S status.

(** The two statuses of the command line parser. *)
Definition parser_status (status : Z) : Prop :=
  status = 0 \/ status = EXIT_FAILURE.

End ExitVocabulary.

(** * Properties *)

(** ** The exact instance obeys the laws *)

Module ExactFloatLaws.

Import ExactFloat.

Lemma skip_space_length (s : string) :
  (fst (skip_space s) + String.length (snd (skip_space s)) = String.length s)%nat.
Proof.
  induction s as [|c r IH]; simpl; [reflexivity|].
  destruct (isspace c); simpl; [|reflexivity].
  destruct (skip_space r) as [n rest]; simpl in *; lia.
Qed.

Lemma read_sign_length (s : string) :
  (snd (fst (read_sign s)) + String.length (snd (read_sign s)) = String.length s)%nat.
Proof.
  destruct s as [|c r]; simpl; [reflexivity|].
  destruct (Ascii.eqb c "-"); simpl; [reflexivity|].
  destruct (Ascii.eqb c "+"); simpl; reflexivity.
Qed.

Lemma read_digits_length (s : string) (acc : Z) :
  (snd (fst (read_digits s acc)) + String.length (snd (read_digits s acc))
   = String.length s)%nat.
Proof.
  revert acc; induction s as [|c r IH]; intros acc; simpl; [reflexivity|].
  destruct (isdigit c); simpl; [|reflexivity].
  specialize (IH (acc * 10 + (char_code c - 48))).
  destruct (read_digits r _) as [[v n] rest]; simpl in *; lia.
Qed.

Lemma read_exponent_length (s : string) :
  (snd (read_exponent s) <= String.length s)%nat.
Proof.
  destruct s as [|c r]; simpl; [lia|].
  destruct (Ascii.eqb c "e" || Ascii.eqb c "E"); simpl; [|lia].
  pose proof (read_sign_length r) as Hs.
  destruct (read_sign r) as [[eneg nes] r2]; simpl in *.
  pose proof (read_digits_length r2 0) as Hd.
  destruct (read_digits r2 0) as [[ev n3] rest]; simpl in *.
  destruct (Nat.eqb n3 O); simpl; lia.
Qed.

Lemma strtod_decimal_consumed (s : string) :
  (snd (strtod_decimal s) <= String.length s)%nat.
Proof.
  unfold strtod_decimal.
  pose proof (skip_space_length s) as H1.
  destruct (skip_space s) as [nws s1]; simpl in H1.
  pose proof (read_sign_length s1) as H2.
  destruct (read_sign s1) as [[neg nsign] s2]; simpl in H2.
  pose proof (read_digits_length s2 0) as H3.
  destruct (read_digits s2 0) as [[ip n1] s3]; simpl in H3.
  assert (H4 : forall m n2 ndot s4,
             (ndot + n2 + String.length s4 = String.length s3)%nat ->
             (snd (if Nat.eqb (n1 + n2) O then (0%Q, O)
                   else let (ex, nexp) := read_exponent s4 in
                        (if neg
                         then (- (inject_Z m * Qpower (inject_Z 10) (ex - Z.of_nat n2)))%Q
                         else (inject_Z m * Qpower (inject_Z 10) (ex - Z.of_nat n2))%Q,
                         (nws + nsign + n1 + ndot + n2 + nexp)%nat))
              <= String.length s)%nat).
  { intros m n2 ndot s4 Hlen.
    destruct (Nat.eqb (n1 + n2) O); simpl; [lia|].
    pose proof (read_exponent_length s4) as H5.
    destruct (read_exponent s4) as [ex nexp]; simpl in *; lia. }
  destruct s3 as [|c r]; [apply H4; reflexivity|].
  destruct (Ascii.eqb c "."); [|apply H4; reflexivity].
  pose proof (read_digits_length r ip) as H6.
  destruct (read_digits r ip) as [[v n] rest]; simpl in H6.
  apply H4; simpl; lia.
Qed.

Lemma strtod_decimal_no_conversion (s : string) :
  snd (strtod_decimal s) = O -> Qeq_bool (fst (strtod_decimal s)) (inject_Z 0) = true.
Proof.
  unfold strtod_decimal.
  destruct (skip_space s) as [nws s1].
  destruct (read_sign s1) as [[neg nsign] s2].
  destruct (read_digits s2 0) as [[ip n1] s3].
  assert (H4 : forall m n2 ndot s4,
             let r := if Nat.eqb (n1 + n2) O then (0%Q, O)
                      else let (ex, nexp) := read_exponent s4 in
                        (if neg
                         then (- (inject_Z m * Qpower (inject_Z 10) (ex - Z.of_nat n2)))%Q
                         else (inject_Z m * Qpower (inject_Z 10) (ex - Z.of_nat n2))%Q,
                         (nws + nsign + n1 + ndot + n2 + nexp)%nat) in
             snd r = O -> Qeq_bool (fst r) (inject_Z 0) = true).
  { intros m n2 ndot s4.
    destruct (Nat.eqb (n1 + n2) O) eqn:E; simpl; [reflexivity|].
    destruct (read_exponent s4) as [ex nexp]; simpl.
    apply Nat.eqb_neq in E. lia. }
  destruct s3 as [|c r]; [apply H4|].
  destruct (Ascii.eqb c "."); [|apply H4].
  destruct (read_digits r ip) as [[v n] rest]. apply H4.
Qed.

Lemma to_RmOff_range (x : Q) : 0 <= to_RmOff x <= RmOff_MAX.
Proof.
  unfold to_RmOff, RmOff_MAX.
  pose proof (Z.mod_pos_bound (Qtrunc x) (2 ^ 64)) as H.
  lia.
Qed.

#[global] Instance exact_float_laws : FloatLaws Q := {|
  fl_to_RmOff_range := to_RmOff_range;
  strtold_no_conversion := strtod_decimal_no_conversion;
  strtold_consumed := strtod_decimal_consumed
|}.

Lemma exact_ltb_of_Z (a b : Z) :
  negb (Qle_bool (inject_Z b) (inject_Z a)) = (a <? b).
Proof.
  unfold Qle_bool, inject_Z. cbn [Qnum Qden].
  rewrite !Z.mul_1_r.
  destruct (Z.leb_spec b a), (Z.ltb_spec a b); try reflexivity; lia.
Qed.

Lemma Qpower_positive_of_Z (b : Z) (p : positive) :
  Qpower_positive (inject_Z b) p = inject_Z (b ^ Zpos p).
Proof.
  unfold Qpower_positive.
  induction p as [p IH|p IH|].
  - cbn [pow_pos]. rewrite IH. unfold Qmult, inject_Z. cbn [Qnum Qden Pos.mul].
    f_equal. rewrite Pos2Z.inj_xI.
    replace (2 * Zpos p + 1) with (1 + Zpos p + Zpos p) by lia.
    rewrite !Z.pow_add_r, Z.pow_1_r by lia. ring.
  - cbn [pow_pos]. rewrite IH. unfold Qmult, inject_Z. cbn [Qnum Qden Pos.mul].
    f_equal. rewrite Pos2Z.inj_xO.
    replace (2 * Zpos p) with (Zpos p + Zpos p) by lia.
    rewrite Z.pow_add_r by lia. reflexivity.
  - cbn [pow_pos]. unfold inject_Z. now rewrite Z.pow_1_r.
Qed.

Lemma exact_pow_of_Z (b e : Z) :
  0 <= e -> Qpower (inject_Z b) (Qfloor (inject_Z e)) = inject_Z (b ^ e).
Proof.
  intros He. rewrite Qfloor_Z.
  destruct e as [|p|p]; [reflexivity| |lia].
  apply Qpower_positive_of_Z.
Qed.

Lemma exact_round_of_Z (n : Z) : Qround_half_away (inject_Z n) = inject_Z n.
Proof.
  unfold Qround_half_away, Qle_bool, Qceiling, Qfloor, Qminus, Qplus, Qopp, inject_Z.
  cbn [Qnum Qden]. rewrite !Z.mul_1_r. cbn [Z.mul Pos.mul].
  destruct (0 <=? n) eqn:H; f_equal.
  - apply Z.leb_le in H. symmetry. apply (Z.div_unique _ _ _ 1); lia.
  - apply Z.leb_gt in H.
    assert (E : (- (n * 2 + - (1))) / 2 = - n).
    { symmetry. apply (Z.div_unique _ _ _ 1); lia. }
    rewrite E. lia.
Qed.

Lemma exact_to_RmOff_of_Z (v : Z) :
  0 <= v <= EXACT_MAX -> to_RmOff (inject_Z v) = v.
Proof.
  intros Hv. unfold to_RmOff, Qtrunc.
  replace (Qle_bool 0 (inject_Z v)) with true.
  2:{ symmetry. unfold Qle_bool, inject_Z. cbn [Qnum Qden]. apply Z.leb_le. lia. }
  rewrite Qfloor_Z.
  apply Z.mod_small. unfold EXACT_MAX in Hv.
  assert (2 ^ 53 < 2 ^ 64) by (apply Z.pow_lt_mono_r; lia). lia.
Qed.

#[global] Instance exact_float_exact : FloatExact Q := {|
  fl_ltb_of_Z := fun a b _ _ => exact_ltb_of_Z a b;
  fl_mul_of_Z := fun a b _ _ _ => eq_refl;
  pow_of_Z := fun b e _ He _ => exact_pow_of_Z b e (proj1 He);
  round_of_Z := fun n _ => exact_round_of_Z n;
  fl_to_RmOff_of_Z := exact_to_RmOff_of_Z
|}.

End ExactFloatLaws.

(** ** The suffix table and [bsearch] *)

Lemma tolower_zero (c : ascii) : tolower c = 0 -> c = zero.
Proof.
  destruct c as [[] [] [] [] [] [] [] []]; vm_compute; intros H;
    try reflexivity; discriminate H.
Qed.

Lemma nul_free_cons (c : ascii) (r : string) :
  nul_free (String c r) = true -> tolower c <> 0 /\ nul_free r = true.
Proof.
  unfold nul_free; simpl. intros H.
  apply negb_true_iff, orb_false_iff in H. destruct H as [Hc Hr].
  split.
  - intros Hz. apply tolower_zero in Hz. subst c. discriminate Hc.
  - now rewrite Hr.
Qed.

(** A key that compares equal to [a] compares with every other string the
    way [a] does. *)
Lemma strcasecmp_subst (a : string) :
  forall k b, nul_free a = true -> nul_free b = true ->
    strcasecmp k a = 0 -> strcasecmp k b = strcasecmp a b.
Proof.
  induction a as [|ca ra IH]; intros k b Ha Hb H.
  - destruct k as [|ck rk]; [reflexivity|]. simpl in H.
    destruct b as [|cb rb]; simpl; [exact H|].
    apply nul_free_cons in Hb. destruct Hb as [Hcb _].
    rewrite H. destruct (0 - tolower cb =? 0) eqn:E; [|reflexivity].
    apply Z.eqb_eq in E. lia.
  - apply nul_free_cons in Ha. destruct Ha as [Hca Hra].
    destruct k as [|ck rk]; simpl in H; [lia|].
    destruct (tolower ck - tolower ca =? 0) eqn:E.
    + apply Z.eqb_eq in E. assert (Hck : tolower ck = tolower ca) by lia.
      destruct b as [|cb rb]; simpl; [exact Hck|].
      rewrite Hck. apply nul_free_cons in Hb. destruct Hb as [_ Hrb].
      destruct (tolower ca - tolower cb =? 0); [|reflexivity].
      now apply IH.
    + apply Z.eqb_neq in E. lia.
Qed.

Lemma find_ext_in {A : Type} (f g : A -> bool) (l : list A) :
  (forall x, In x l -> f x = g x) -> find f l = find g l.
Proof.
  induction l as [|x l IH]; intros H; simpl; [reflexivity|].
  rewrite <- (H x (or_introl eq_refl)).
  destruct (f x); [reflexivity|].
  apply IH. intros y Hy. apply H. now right.
Qed.

Lemma bsearch_loop_ext {A : Type} (f g : A -> Z) (tbl : list A) :
  (forall p, In p tbl -> f p = g p) ->
  forall fuel l u, bsearch_loop fuel f tbl l u = bsearch_loop fuel g tbl l u.
Proof.
  intros H fuel. induction fuel as [|fuel IH]; intros l u; [reflexivity|].
  cbn [bsearch_loop]. set (idx := ((l + u) / 2)%nat).
  destruct (l <? u)%nat; [|reflexivity].
  destruct (nth_error tbl idx) as [p|] eqn:E; [|reflexivity].
  rewrite <- (H p (nth_error_In _ _ E)).
  destruct (f p <? 0); [apply IH|].
  destruct (0 <? f p); [apply IH|reflexivity].
Qed.

Lemma bsearch_loop_sound {A : Type} (f : A -> Z) (tbl : list A) :
  forall fuel l u p,
    bsearch_loop fuel f tbl l u = Some p -> f p = 0 /\ In p tbl.
Proof.
  intros fuel. induction fuel as [|fuel IH]; intros l u p; [discriminate|].
  cbn [bsearch_loop]. set (idx := ((l + u) / 2)%nat).
  destruct (l <? u)%nat; [|discriminate].
  destruct (nth_error tbl idx) as [q|] eqn:E; [|discriminate].
  destruct (f q <? 0) eqn:E1; [apply IH|].
  destruct (0 <? f q) eqn:E2; [apply IH|].
  intros H. injection H as <-.
  apply Z.ltb_ge in E1. apply Z.ltb_ge in E2.
  split; [lia|]. exact (nth_error_In _ _ E).
Qed.

(** The binary search over the sorted table finds the entry the
    specification's table gives, for every key. *)
Lemma lookup_suffix_spec (key : string) :
  option_map table_entry (lookup_suffix key) = spec_suffix key.
Proof.
  unfold lookup_suffix, bsearch, rm_cmd_compare_spec_elem, spec_suffix. simpl id.
  assert (Hids : forall t, In t SIZE_FORMAT_TABLE -> nul_free (id t) = true).
  { intros t Ht. repeat (destruct Ht as [<-|Ht]; [reflexivity|]). destruct Ht. }
  assert (Hspec : forall e, In e spec_suffix_table ->
                  nul_free (fst e) = true /\
                  exists t, In t SIZE_FORMAT_TABLE /\ id t = fst e).
  { intros e He.
    repeat (destruct He as [<-|He];
            [split; [reflexivity|];
             match goal with
             | |- exists t, _ /\ id t = fst (?s, _) =>
                 destruct (find (fun t => String.eqb (id t) s) SIZE_FORMAT_TABLE)
                   as [t|] eqn:Ef; [|discriminate Ef];
                 exists t; apply find_some in Ef; destruct Ef as [Hin Heq];
                 split; [exact Hin|now apply String.eqb_eq]
             end|]).
    destruct He. }
  destruct (find (fun t => strcasecmp key (id t) =? 0) SIZE_FORMAT_TABLE) as [t|] eqn:Hf.
  - apply find_some in Hf. destruct Hf as [Hin H0]. apply Z.eqb_eq in H0.
    rewrite (bsearch_loop_ext (fun p => strcasecmp key (id p))
               (fun p => strcasecmp (id t) (id p))).
    2:{ intros p Hp. apply strcasecmp_subst; auto. }
    rewrite (find_ext_in (fun e => strcasecmp key (fst e) =? 0)
               (fun e => strcasecmp (id t) (fst e) =? 0)).
    2:{ intros e He. f_equal. apply strcasecmp_subst; auto. now apply Hspec. }
    clear H0.
    repeat (destruct Hin as [<-|Hin]; [reflexivity|]). destruct Hin.
  - pose proof (find_none _ _ Hf) as Hnone.
    destruct (bsearch_loop _ _ _ _ _) as [p|] eqn:Hb.
    + apply bsearch_loop_sound in Hb. destruct Hb as [H0 Hin].
      specialize (Hnone p Hin). simpl in Hnone.
      apply Z.eqb_neq in Hnone. contradiction.
    + cbn [option_map].
      match goal with
      | |- context [find ?f spec_suffix_table] =>
          destruct (find f spec_suffix_table) as [e|] eqn:He; [|reflexivity]
      end.
      apply find_some in He. destruct He as [Hin H0].
      destruct (Hspec e Hin) as [_ [t [Ht Hid]]].
      specialize (Hnone t Ht). simpl in Hnone. rewrite Hid in Hnone. congruence.
Qed.

(** ** Size strings and size ranges *)

Section SizeProperties.

Context {F : Type} {FO : FloatOps F} {FL : FloatLaws F}.

Lemma g_strstrip_empty_suffix : spec_suffix (g_strstrip EmptyString) = None.
Proof. reflexivity. Qed.

(** What [rm_cmd_size_string_to_bytes] does once [strtold] has read a
    number that is not negative and something follows it. *)
Lemma size_string_suffix (size_spec : string) :
  snd (strtold size_spec) <> O ->
  fl_ltb (fst (strtold size_spec)) (fl_of_Z 0) = false ->
  drop (snd (strtold size_spec)) size_spec <> EmptyString ->
  rm_cmd_size_string_to_bytes size_spec =
    match lookup_suffix (g_strstrip (drop (snd (strtold size_spec)) size_spec)) with
    | Some found =>
        (fl_to_RmOff
           (fl_mul (fst (strtold size_spec))
              (pow (fl_of_Z (base found)) (fl_of_Z (exponent found)))), None)
    | None => (0, Some "Given format specifier not found")
    end.
Proof.
  unfold rm_cmd_size_string_to_bytes, lookup_suffix.
  destruct (strtold size_spec) as [decimal consumed]; simpl fst; simpl snd.
  intros Hn Hneg Hrest.
  replace (Nat.eqb consumed O) with false
    by (symmetry; now apply Nat.eqb_neq).
  rewrite andb_false_r, Hneg.
  destruct (drop consumed size_spec) as [|c r]; [contradiction|].
  reflexivity.
Qed.

(** Nothing converted: [strtold] gives zero and the end pointer stays
    on the start of the string. *)
Lemma size_string_no_number (size_spec : string) :
  snd (strtold size_spec) = O ->
  rm_cmd_size_string_to_bytes size_spec =
    (0, Some "This does not look like a number").
Proof.
  intros Hn. unfold rm_cmd_size_string_to_bytes.
  pose proof (strtold_no_conversion size_spec Hn) as Hz.
  destruct (strtold size_spec) as [decimal consumed]; simpl in *.
  now rewrite Hz, Hn.
Qed.

Lemma spec_suffix_bounds (suffix : string) (b e : Z) :
  spec_suffix suffix = Some (b, e) -> 1 <= b <= 1024 /\ 1 <= e <= 6.
Proof.
  unfold spec_suffix, spec_suffix_table. cbn [find fst].
  repeat (destruct (strcasecmp suffix _ =? 0);
          [cbn [option_map snd]; intros H; injection H as <- <-; lia|]).
  discriminate.
Qed.

(** C4, as the code has it: a number that is not negative, followed by a
    suffix of the table (b 512^1, c 1, k 1000^1, kb 1024^1, ... w 2^1,
    letter case ignored, white space around it stripped), gives
    [decimal * pow (base, exponent)], formed in floating point and
    converted to [RmOff].  For a whole number [n] this is
    [n * base ^ exponent], as long as the power and the product stay
    within the integers that floating point holds exactly.  A negative
    number, a string [strtold] reads no number from, and a suffix that is
    not in the table give 0 and set the error message. *)
Theorem C4_size_string_to_bytes {FE : FloatExact F} (size_spec : string) :
  let decimal := fst (strtold size_spec) in
  let consumed := snd (strtold size_spec) in
  let format := drop consumed size_spec in
  (forall b e,
      consumed <> O ->
      fl_ltb decimal (fl_of_Z 0) = false ->
      spec_suffix (g_strstrip format) = Some (b, e) ->
      rm_cmd_size_string_to_bytes size_spec =
        (fl_to_RmOff (fl_mul decimal (pow (fl_of_Z b) (fl_of_Z e))), None))
  /\ (forall n b e,
      consumed <> O ->
      decimal = fl_of_Z n ->
      0 <= n ->
      spec_suffix (g_strstrip format) = Some (b, e) ->
      b ^ e <= EXACT_MAX ->
      n * b ^ e <= EXACT_MAX ->
      rm_cmd_size_string_to_bytes size_spec = (n * b ^ e, None))
  /\ (consumed <> O ->
      fl_ltb decimal (fl_of_Z 0) = true ->
      rm_cmd_size_string_to_bytes size_spec =
        (0, Some "Negativ sizes are no good idea"))
  /\ (consumed = O ->
      rm_cmd_size_string_to_bytes size_spec =
        (0, Some "This does not look like a number"))
  /\ (consumed <> O ->
      fl_ltb decimal (fl_of_Z 0) = false ->
      format <> EmptyString ->
      spec_suffix (g_strstrip format) = None ->
      rm_cmd_size_string_to_bytes size_spec =
        (0, Some "Given format specifier not found")).
Proof.
  cbv zeta.
  assert (Hcode : forall b e,
             snd (strtold size_spec) <> O ->
             fl_ltb (fst (strtold size_spec)) (fl_of_Z 0) = false ->
             spec_suffix (g_strstrip (drop (snd (strtold size_spec)) size_spec))
             = Some (b, e) ->
             rm_cmd_size_string_to_bytes size_spec =
               (fl_to_RmOff
                  (fl_mul (fst (strtold size_spec)) (pow (fl_of_Z b) (fl_of_Z e))),
                None)).
  { intros b e Hn Hneg Hs.
    assert (Hrest : drop (snd (strtold size_spec)) size_spec <> EmptyString).
    { intros E. rewrite E, g_strstrip_empty_suffix in Hs. discriminate Hs. }
    rewrite (size_string_suffix size_spec Hn Hneg Hrest).
    rewrite <- lookup_suffix_spec in Hs.
    destruct (lookup_suffix _) as [found|]; [|discriminate Hs].
    injection Hs as <- <-. reflexivity. }
  split; [exact Hcode|]. split; [|repeat split].
  - intros n b e Hn Hd H0 Hs Hbe Hp.
    destruct (spec_suffix_bounds _ _ _ Hs) as [Hb He].
    assert (Hpow : 0 < b ^ e) by (apply Z.pow_pos_nonneg; lia).
    assert (Hle : n <= n * b ^ e) by nia.
    assert (Hneg : fl_ltb (fst (strtold size_spec)) (fl_of_Z 0) = false).
    { rewrite Hd, fl_ltb_of_Z by (unfold EXACT_MAX in *; lia).
      apply Z.ltb_ge. exact H0. }
    rewrite (Hcode b e Hn Hneg Hs), Hd.
    rewrite pow_of_Z, fl_mul_of_Z, fl_to_RmOff_of_Z by (unfold EXACT_MAX in *; lia).
    reflexivity.
  - intros Hn Hneg. unfold rm_cmd_size_string_to_bytes.
    destruct (strtold size_spec) as [decimal consumed]; simpl in *.
    replace (Nat.eqb consumed O) with false
      by (symmetry; now apply Nat.eqb_neq).
    now rewrite andb_false_r, Hneg.
  - apply size_string_no_number.
  - intros Hn Hneg Hrest Hs.
    rewrite (size_string_suffix size_spec Hn Hneg Hrest).
    rewrite <- lookup_suffix_spec in Hs.
    destruct (lookup_suffix _) as [found|]; [discriminate Hs|reflexivity].
Qed.

Lemma size_string_value_range (size_spec : string) :
  0 <= fst (rm_cmd_size_string_to_bytes size_spec) <= RmOff_MAX.
Proof.
  unfold rm_cmd_size_string_to_bytes, rm_cmd_size_format_error.
  destruct (strtold size_spec) as [decimal consumed].
  assert (H0 : 0 <= 0 <= RmOff_MAX) by (unfold RmOff_MAX; lia).
  destruct (_ && _); [exact H0|].
  destruct (fl_ltb _ _); [exact H0|].
  destruct (drop consumed size_spec); [apply fl_to_RmOff_range|].
  destruct (bsearch _ _ _ _); [apply fl_to_RmOff_range|exact H0].
Qed.

(** A size string without error is not empty. *)
Lemma size_string_ok_nonempty (size_spec : string) (v : Z) :
  rm_cmd_size_string_to_bytes size_spec = (v, None) -> size_spec <> EmptyString.
Proof.
  intros H E. subst size_spec.
  pose proof (strtold_consumed EmptyString) as Hc. simpl in Hc.
  assert (Hn : snd (strtold EmptyString) = O) by lia.
  rewrite (size_string_no_number EmptyString Hn) in H. discriminate H.
Qed.

Lemma g_strsplit_from_no_delim (s : string) (d : ascii) (n : Z) :
  strchr s d = false -> g_strsplit_from s d n = (s, []).
Proof.
  induction s as [|c r IH]; simpl; [reflexivity|].
  intros H. apply orb_false_iff in H. destruct H as [Hc Hr].
  rewrite Hc. simpl. now rewrite (IH Hr).
Qed.

Lemma g_strsplit_no_delim (s : string) (d : ascii) (n : Z) :
  strchr s d = false -> s <> EmptyString -> g_strsplit s d n = [s].
Proof.
  intros H Hs. unfold g_strsplit.
  destruct s as [|c r]; [contradiction|].
  now rewrite (g_strsplit_from_no_delim _ _ _ H).
Qed.

(** C3, as the code has it: a size range without '-' that is a valid size
    [v] succeeds with [*min == v], and [*max] keeps its initial value
    [G_MAXULONG]: a single value is a lower bound. *)
Theorem C3_single_size_is_lower_bound (range_spec : string) (v : Z) :
  strchr range_spec "-"%char = false ->
  rm_cmd_size_string_to_bytes range_spec = (v, None) ->
  rm_cmd_size_range_string_to_bytes range_spec =
    {| range_ok := true; range_min := v; range_max := G_MAXULONG;
       range_error := None |}.
Proof.
  intros Hdash Hv.
  pose proof (size_string_ok_nonempty _ _ Hv) as Hne.
  pose proof (size_string_value_range range_spec) as Hr.
  rewrite Hv in Hr. simpl in Hr.
  unfold rm_cmd_size_range_string_to_bytes.
  rewrite (g_strsplit_no_delim _ _ _ Hdash Hne). cbn [nth_error].
  rewrite Hv. cbv beta iota.
  replace (G_MAXULONG <? v) with false; [reflexivity|].
  symmetry. apply Z.ltb_ge. unfold G_MAXULONG, RmOff_MAX in *. lia.
Qed.

End SizeProperties.

(** A size with a suffix, evaluated with exact arithmetic. *)
Lemma C4_size_string_to_bytes_witness :
  rm_cmd_size_string_to_bytes (F := Q) "10kb" = (10 * 1024 ^ 1, None).
Proof.
  refine (proj1 (proj2 (C4_size_string_to_bytes (F := Q) "10kb")) 10 1024 1 _ _ _ _ _ _).
  - vm_compute. discriminate.
  - reflexivity.
  - lia.
  - reflexivity.
  - vm_compute. discriminate.
  - vm_compute. discriminate.
Defined.

(** C4 to the letter fails: the product is converted to [RmOff], which
    drops its fraction, so "1.5c" (one and a half times 1 ^ 1) gives 1. *)
Lemma C4_counterexample :
  ~ (forall (size_spec : string) (b e : Z),
        let decimal := fst (strtold (F := Q) size_spec) in
        let consumed := snd (strtold (F := Q) size_spec) in
        consumed <> O ->
        fl_ltb decimal (fl_of_Z 0) = false ->
        spec_suffix (g_strstrip (drop consumed size_spec)) = Some (b, e) ->
        (inject_Z (fst (rm_cmd_size_string_to_bytes (F := Q) size_spec))
         == decimal * inject_Z (b ^ e))%Q).
Proof.
  intros H.
  assert (Hn : snd (strtold (F := Q) "1.5c") <> O) by (vm_compute; discriminate).
  specialize (H "1.5c" 1 1 Hn eq_refl eq_refl).
  vm_compute in H. discriminate H.
Qed.

Lemma C3_single_size_is_lower_bound_witness :
  rm_cmd_size_range_string_to_bytes (F := Q) "100" =
    {| range_ok := true; range_min := 100; range_max := G_MAXULONG;
       range_error := None |}.
Proof.
  exact (C3_single_size_is_lower_bound (F := Q) "100" 100 eq_refl eq_refl).
Defined.

(** C3 as the specification words it ([*min == *max == v]) fails: for
    "100" the code leaves [*max] at [G_MAXULONG]. *)
Lemma C3_counterexample :
  ~ (forall (range_spec : string) (v : Z),
        strchr range_spec "-"%char = false ->
        rm_cmd_size_string_to_bytes (F := Q) range_spec = (v, None) ->
        let r := rm_cmd_size_range_string_to_bytes (F := Q) range_spec in
        range_ok r = true /\ range_min r = v /\ range_max r = v).
Proof.
  intros H.
  destruct (H "100" 100 eq_refl eq_refl) as (_ & _ & Hmax).
  vm_compute in Hmax. discriminate Hmax.
Qed.

(** ** Reasoning about calls *)

Section CallProperties.

Context {F : Type} {FO : FloatOps F}.

Lemma is_field_eq (f g : RmBoolField) : is_field f g = true <-> f = g.
Proof. destruct f, g; simpl; split; intros H; try reflexivity; discriminate H. Qed.

Lemma get_put_flag (f g : RmBoolField) (v : bool) (fl : RmFlags) :
  get_flag (put_flag f v fl) g = if is_field f g then v else get_flag fl g.
Proof. destruct g; reflexivity. Qed.

Lemma flag_set_flag (f g : RmBoolField) (v : bool) (cfg : RmSettings F) :
  flag (set_flag f v cfg) g = if is_field f g then v else flag cfg g.
Proof. unfold flag, set_flag. simpl. apply get_put_flag. Qed.

Lemma bind_Return {A B : Type} (m : M F A) (k : A -> M F B) (st st' : State F) (a : A) :
  m st = Return a st' -> bind m k st = k a st'.
Proof. unfold bind. now intros ->. Qed.

Lemma bind_Exit {A B : Type} (m : M F A) (k : A -> M F B) (st st' : State F) (x : Z) :
  m st = Exit x st' -> bind m k st = Exit x st'.
Proof. unfold bind. now intros ->. Qed.

Lemma bind_modify {B : Type} (f : State F -> State F) (k : unit -> M F B)
    (st : State F) :
  bind (modify f) k st = k tt (f st).
Proof. reflexivity. Qed.

Lemma bind_gets {A B : Type} (f : State F -> A) (k : A -> M F B) (st : State F) :
  bind (gets f) k st = k (f st) st.
Proof. reflexivity. Qed.

Lemma bind_ret {A B : Type} (a : A) (k : A -> M F B) (st : State F) :
  bind (ret a) k st = k a st.
Proof. reflexivity. Qed.

Lemma bind_bind {A B C : Type} (m : M F A) (f : A -> M F B) (g : B -> M F C)
    (st : State F) :
  bind (bind m f) g st = bind m (fun a => bind (f a) g) st.
Proof. unfold bind. destruct (m st); reflexivity. Qed.

Lemma returns_bind {A B : Type} (m : M F A) (k : A -> M F B) :
  returns m -> (forall a, returns (k a)) -> returns (bind m k).
Proof.
  intros Hm Hk st. destruct (Hm st) as (a & st' & E).
  rewrite (bind_Return _ _ _ _ _ E). apply Hk.
Qed.

Lemma returns_ret {A : Type} (a : A) : returns (ret (F := F) a).
Proof. intros st. now exists a, st. Qed.

Lemma returns_gets {A : Type} (f : State F -> A) : returns (gets f).
Proof. intros st. now exists (f st), st. Qed.

Lemma returns_modify (f : State F -> State F) : returns (modify f).
Proof. intros st. now exists tt, (f st). Qed.

End CallProperties.

(** Running a call whose result is named by the hypothesis [H]. *)
Ltac fields_in H :=
  cbn [session notified set_session set_notified set_log set_stdin mounts
       set_mounts settings total_files set_dir_merger log stdin fst snd] in H.

Ltac run_in H :=
  repeat (first [ rewrite bind_modify in H | rewrite bind_gets in H
                | rewrite bind_ret in H | rewrite bind_bind in H ];
          cbv beta in H);
  fields_in H.

Ltac branch_in H :=
  match type of H with
  | context [bind (if ?b then _ else _) _ _] => destruct b eqn:?
  | context [(if ?b then _ else _) _] => destruct b eqn:?
  end;
  run_in H.

Ltac returns_tac :=
  repeat first
    [ apply returns_ret
    | apply returns_gets
    | apply returns_modify
    | apply returns_bind; [|intros ?]
    | match goal with
      | |- returns (if ?b then _ else _) => destruct b
      | |- returns (match ?x with _ => _ end) => destruct x
      end
    | progress unfold update_settings, update_session, settings_get, session_get,
        get_session, rm_log_warning, rm_log_warning_line, rm_log_debug,
        rm_log_error_line, rm_log ].

(** ** Lint types *)

Section LintProperties.

Context {F : Type} {FO : FloatOps F}.

Lemma lint_loop_returns (lint_types : list string) :
  forall index, returns (rm_cmd_parse_lint_types_loop (F := F) lint_types index).
Proof.
  induction lint_types as [|t rest IH]; intros index; simpl.
  - apply returns_ret.
  - apply returns_bind; [|intros _; apply IH].
    returns_tac.
Qed.

(** C9: directory merge mode, whether it is switched on by
    --merge-directories or by a lint type selector that leaves
    [merge_directories] set (such as all, minimaldirs, duplicatedirs), sets
    [ignore_hidden] to false and [find_hardlinked_dupes] to true, whatever
    their values were. *)
Theorem C9_merge_directories_pulls_options :
  (forall (error : GError) (st : State F),
      exists st',
        rm_cmd_parse_merge_directories error st = Return (true, error) st'
        /\ cfg_flag st' merge_directories = true
        /\ cfg_flag st' ignore_hidden = false
        /\ cfg_flag st' find_hardlinked_dupes = true)
  /\ (forall (lint_string : string) (error : GError) (st : State F),
      exists st',
        rm_cmd_parse_lint_types lint_string error st = Return (true, error) st'
        /\ (cfg_flag st' merge_directories = true ->
            cfg_flag st' ignore_hidden = false
            /\ cfg_flag st' find_hardlinked_dupes = true))
  /\ (forall (lint_string : string) (error : GError) (st : State F),
      In lint_string ["all"; "minimaldirs"; "duplicatedirs"] ->
      exists st',
        rm_cmd_parse_lint_types lint_string error st = Return (true, error) st'
        /\ cfg_flag st' merge_directories = true
        /\ cfg_flag st' ignore_hidden = false
        /\ cfg_flag st' find_hardlinked_dupes = true).
Proof.
  split; [|split].
  - intros error st. eexists. split; [reflexivity|].
    repeat split.
  - intros lint_string error st.
    unfold rm_cmd_parse_lint_types.
    destruct (lint_loop_returns (lint_split lint_string) 0 st) as ([] & st1 & E).
    rewrite (bind_Return _ _ _ _ _ E).
    unfold settings_get, gets, bind at 1.
    destruct (flag (settings (session st1)) merge_directories) eqn:Hm.
    + eexists. split; [reflexivity|]. intros _. split; reflexivity.
    + eexists. split; [reflexivity|]. unfold cfg_flag. rewrite Hm. discriminate.
  - intros lint_string error st Hin.
    destruct Hin as [<-|[<-|[<-|[]]]];
      (eexists; split; [reflexivity|]; repeat split).
Qed.

(** *** The separator *)

Lemma skip_alpha_app (w rest : string) :
  all_alpha w = true -> isalpha (deref rest) = false ->
  skip_alpha (w ++ rest) = rest.
Proof.
  induction w as [|c r IH]; simpl; intros Hw Hrest.
  - destruct rest as [|c r]; [reflexivity|]. simpl in *. now rewrite Hrest.
  - apply andb_true_iff in Hw. destruct Hw as [Hc Hr].
    rewrite Hc. now apply IH.
Qed.

Lemma find_sep_signed_word (w rest : string) :
  is_signed_word w = true ->
  isalpha (deref rest) = false ->
  (w = EmptyString -> is_sign (deref rest) = false) ->
  rm_cmd_find_lint_types_sep (w ++ rest) = deref rest.
Proof.
  unfold rm_cmd_find_lint_types_sep, is_signed_word.
  intros Hw Hrest Hsign.
  destruct w as [|c r].
  - specialize (Hsign eq_refl). simpl.
    destruct rest as [|c r]; [reflexivity|].
    simpl in *. unfold is_sign in Hsign. rewrite Hsign.
    simpl. now rewrite Hrest.
  - cbn [append]. unfold is_sign in Hw.
    destruct (Ascii.eqb c "+" || Ascii.eqb c "-").
    + now rewrite skip_alpha_app.
    + change (String c (r ++ rest)) with (String c r ++ rest).
      now rewrite skip_alpha_app.
Qed.

Lemma g_strsplit_from_concat (c : ascii) (ws : list string) :
  forall (w : string) (n : Z),
    (forall x, In x (w :: ws) -> strchr x c = false) ->
    Z.of_nat (List.length ws) < n ->
    g_strsplit_from (String.concat (String c EmptyString) (w :: ws)) c n = (w, ws).
Proof.
  induction ws as [|x xs IH]; intros w n Hfree Hn.
  - simpl. apply g_strsplit_from_no_delim. apply Hfree. now left.
  - change (String.concat (String c EmptyString) (w :: x :: xs))
      with (w ++ String c (String.concat (String c EmptyString) (x :: xs))).
    assert (Hw : strchr w c = false) by (apply Hfree; now left).
    assert (IHx : g_strsplit_from (String.concat (String c EmptyString) (x :: xs)) c (n - 1)
                  = (x, xs)).
    { apply IH.
      - intros y Hy. apply Hfree. now right.
      - simpl List.length in Hn. lia. }
    clear IH Hfree.
    induction w as [|a r IHw].
    + cbn [append g_strsplit_from]. rewrite Ascii.eqb_refl.
      replace (1 <? n) with true
        by (symmetry; apply Z.ltb_lt; simpl List.length in Hn; lia).
      cbn [andb]. now rewrite IHx.
    + simpl in Hw. apply orb_false_iff in Hw. destruct Hw as [Ha Hr].
      cbn [append g_strsplit_from]. rewrite Ha. cbn [andb]. now rewrite (IHw Hr).
Qed.

Lemma sep_free_strchr (w : string) (c : ascii) :
  sep_free w = true -> is_list_sep c = true -> strchr w c = false.
Proof.
  unfold sep_free, is_list_sep. intros Hw Hc.
  apply negb_true_iff in Hw.
  apply orb_false_iff in Hw. destruct Hw as [Hw H3].
  apply orb_false_iff in Hw. destruct Hw as [H1 H2].
  apply orb_true_iff in Hc. destruct Hc as [Hc|Hc].
  - apply orb_true_iff in Hc. destruct Hc as [Hc|Hc];
      apply Ascii.eqb_eq in Hc; now subst c.
  - apply Ascii.eqb_eq in Hc. now subst c.
Qed.

Lemma is_list_sep_facts (c : ascii) :
  is_list_sep c = true ->
  isalpha c = false /\ is_sign c = false /\ Ascii.eqb c zero = false.
Proof.
  unfold is_list_sep. intros H.
  apply orb_true_iff in H. destruct H as [H|H].
  - apply orb_true_iff in H. destruct H as [H|H];
      apply Ascii.eqb_eq in H; subst c; repeat split.
  - apply Ascii.eqb_eq in H. subst c. repeat split.
Qed.

Lemma all_alpha_nonempty_split (w : string) :
  is_signed_word w = true -> w <> EmptyString -> sep_free w = true ->
  lint_split w = [w].
Proof.
  intros Hw Hne Hfree.
  unfold lint_split, lint_sep.
  pose proof (find_sep_signed_word w EmptyString Hw eq_refl (fun _ => eq_refl)) as E.
  assert (Happ : (w ++ "")%string = w).
  { clear. induction w as [|c r IH]; simpl; [reflexivity|now rewrite IH]. }
  rewrite Happ in E. rewrite E. simpl.
  apply g_strsplit_no_delim; [|exact Hne].
  now apply sep_free_strchr.
Qed.

Lemma lint_split_concat (c : ascii) (ws : list string) :
  is_list_sep c = true -> lint_list_ok ws ->
  ws <> [EmptyString] ->
  lint_split (String.concat (String c EmptyString) ws) = ws.
Proof.
  intros Hc (Hfirst & Hfree & Hlen) Hne.
  destruct ws as [|w ws]; [contradiction|].
  destruct ws as [|x xs].
  - simpl. apply all_alpha_nonempty_split; [exact Hfirst| |apply Hfree; now left].
    intros E. apply Hne. now rewrite E.
  - destruct (is_list_sep_facts c Hc) as (Halpha & Hsign & Hzero).
    change (String.concat (String c EmptyString) (w :: x :: xs))
      with (w ++ String c (String.concat (String c EmptyString) (x :: xs))).
    unfold lint_split, lint_sep.
    rewrite find_sep_signed_word; [|exact Hfirst|exact Halpha|intros _; exact Hsign].
    simpl deref. rewrite Hzero.
    unfold g_strsplit.
    change (w ++ String c (String.concat (String c EmptyString) (x :: xs)))
      with (String.concat (String c EmptyString) (w :: x :: xs)).
    rewrite (g_strsplit_from_concat c (x :: xs) w).
    + destruct (String.concat _ _) eqn:E; [|reflexivity].
      exfalso. clear - E.
      change (String.concat (String c EmptyString) (w :: x :: xs))
        with (w ++ String c (String.concat (String c EmptyString) (x :: xs))) in E.
      destruct w; discriminate E.
    + intros y Hy. apply sep_free_strchr; [now apply Hfree|exact Hc].
    + change (-1 <? 1) with true. cbv iota.
      cbn [List.length] in *. lia.
Qed.

(** C8: the separator of a lint type selector is the first character that
    is neither alphabetic nor a leading sign, a comma when the selector is
    one signed word; lists separated by commas, colons or semicolons are
    split into the same elements and parsed to the same result. *)
Theorem C8_lint_separator_inferred :
  (forall (w rest : string) (c : ascii),
      is_signed_word w = true ->
      isalpha c = false ->
      c <> zero ->
      (w = EmptyString -> is_sign c = false) ->
      lint_sep (w ++ String c rest) = c)
  /\ (forall w : string, is_signed_word w = true -> lint_sep w = ","%char)
  /\ (forall (ws : list string) (c1 c2 : ascii),
      lint_list_ok ws ->
      is_list_sep c1 = true ->
      is_list_sep c2 = true ->
      let s1 := String.concat (String c1 EmptyString) ws in
      let s2 := String.concat (String c2 EmptyString) ws in
      lint_split s1 = lint_split s2
      /\ (ws <> [EmptyString] -> lint_split s1 = ws)
      /\ forall (error : GError) (st : State F),
           rm_cmd_parse_lint_types s1 error st = rm_cmd_parse_lint_types s2 error st).
Proof.
  split; [|split].
  - intros w rest c Hw Halpha Hz Hsign. unfold lint_sep.
    rewrite find_sep_signed_word; try assumption.
    simpl deref. destruct (Ascii.eqb c zero) eqn:E; [|reflexivity].
    apply Ascii.eqb_eq in E. contradiction.
  - intros w Hw. unfold lint_sep.
    pose proof (find_sep_signed_word w EmptyString Hw eq_refl (fun _ => eq_refl)) as E.
    assert (Happ : (w ++ "")%string = w).
    { clear. induction w as [|c r IH]; simpl; [reflexivity|now rewrite IH]. }
    rewrite Happ in E. now rewrite E.
  - intros ws c1 c2 Hok H1 H2 s1 s2.
    assert (Hsplit : lint_split s1 = lint_split s2).
    { destruct (list_eq_dec string_dec ws [EmptyString]) as [->|Hne].
      - reflexivity.
      - subst s1 s2. now rewrite !lint_split_concat. }
    split; [exact Hsplit|]. split.
    + intros Hne. subst s1. now apply lint_split_concat.
    + intros error st. unfold rm_cmd_parse_lint_types. now rewrite Hsplit.
Qed.

End LintProperties.

(** ** Input roots *)

(** One step of [rm_cmd_add_path] and of the two loops over the roots. *)
Section RootsSpec.

Context {F : Type} {FO : FloatOps F}.

Variable env : Env F.

Lemma add_path_unreadable (preferred : bool) (index : Z) (p : string) (st : State F) :
  faccessat env p = false ->
  rm_cmd_add_path env preferred index (Some p) st = Return false (warned env st (Some p)).
Proof. unfold rm_cmd_add_path. intros ->. reflexivity. Qed.

Lemma add_path_null (preferred : bool) (index : Z) (st : State F) :
  rm_cmd_add_path env preferred index None st = Return false (warned env st None).
Proof. reflexivity. Qed.

Lemma add_path_readable (preferred : bool) (index : Z) (p : string) (st : State F) :
  faccessat env p = true ->
  rm_cmd_add_path env preferred index (Some p) st = Return true (stored env st preferred index p).
Proof. unfold rm_cmd_add_path. intros ->. reflexivity. Qed.

Lemma array_store_full {A : Type} (a : list A) (v : A) :
  array_store a (Z.of_nat (List.length a)) v = (a ++ [v])%list.
Proof. unfold array_store. now rewrite Nat2Z.id, firstn_all. Qed.

Lemma combine_snoc {A B : Type} (l1 : list A) (l2 : list B) (a : A) (b : B) :
  List.length l1 = List.length l2 ->
  combine (l1 ++ [a]) (l2 ++ [b]) = (combine l1 l2 ++ [(a, b)])%list.
Proof.
  revert l2. induction l1 as [|x l1 IH]; intros [|y l2] H; simpl in *;
    try discriminate; [reflexivity|].
  f_equal. apply IH. now injection H.
Qed.

(** One call of [rm_cmd_add_path] on arrays that hold [index] entries. *)
Lemma add_path_step (preferred : bool) (index : Z) (path : option string) (st : State F) :
  filled st index ->
  exists b st',
    rm_cmd_add_path env preferred index path st = Return b st'
    /\ filled st' (index + bool_to_int b)
    /\ roots st' = (roots st ++ root_of env preferred path)%list
    /\ stdin st' = stdin st
    /\ iwd (settings (session st')) = iwd (settings (session st))
    /\ (b = false -> paths (settings (session st')) = paths (settings (session st)))
    /\ (b = true <-> exists p, path = Some p /\ faccessat env p = true).
Proof.
  intros [Hidx Hlen].
  destruct path as [p|].
  - destruct (faccessat env p) eqn:Hacc.
    + exists true, (stored env st preferred index p).
      split; [exact (add_path_readable _ _ _ _ Hacc)|].
      assert (Hp : paths (settings (session (stored env st preferred index p)))
                   = (paths (settings (session st)) ++ [resolve env p])%list).
      { unfold stored. cbn. rewrite Hidx. apply array_store_full. }
      assert (Hq : is_prefd (settings (session (stored env st preferred index p)))
                   = (is_prefd (settings (session st)) ++ [preferred])%list).
      { unfold stored. cbn. rewrite Hidx, Hlen. apply array_store_full. }
      unfold filled, roots, root_of. rewrite Hacc, Hp, Hq, !length_app.
      cbn [List.length bool_to_int].
      split; [split; lia|].
      split; [now apply combine_snoc|].
      split; [reflexivity|]. split; [reflexivity|].
      split; [discriminate|].
      split; [intros _; now exists p|reflexivity].
    + exists false, (warned env st (Some p)).
      split; [exact (add_path_unreadable _ _ _ _ Hacc)|].
      unfold filled, roots, root_of, warned. rewrite Hacc. cbn.
      rewrite app_nil_r, Z.add_0_r.
      split; [split; assumption|].
      do 4 (split; [reflexivity|]).
      split; [discriminate|].
      intros (q & Hq & Hr). injection Hq as <-. congruence.
  - exists false, (warned env st None).
    split; [apply add_path_null|].
    unfold filled, roots, warned. cbn.
    rewrite app_nil_r, Z.add_0_r.
    split; [split; assumption|].
    do 4 (split; [reflexivity|]).
    split; [discriminate|].
    intros (q & Hq & _). discriminate Hq.
Qed.

Lemma read_paths_loop_step (chunks : list string) (preferred : bool) (index : Z) :
  forall (paths_added : Z) (st : State F),
    filled st (index + paths_added) ->
    exists added st',
      rm_cmd_read_paths_loop env chunks preferred index paths_added st = Return added st'
      /\ filled st' (index + added)
      /\ paths_added <= added
      /\ roots st' = (roots st
                     ++ flat_map (fun line => root_of env preferred (strtok_nl line)) chunks)%list
      /\ stdin st' = stdin st
      /\ iwd (settings (session st')) = iwd (settings (session st))
      /\ (added = paths_added ->
          paths (settings (session st')) = paths (settings (session st))).
Proof.
  induction chunks as [|c rest IH]; intros paths_added st Hfill.
  - exists paths_added, st. simpl. rewrite app_nil_r.
    repeat split; try assumption; try lia; apply Hfill.
  - destruct (add_path_step preferred (index + paths_added) (strtok_nl c) st Hfill)
      as (b & st1 & E & Hfill1 & Hroots1 & Hin1 & Hiwd1 & Hsame1 & _).
    rewrite <- Z.add_assoc in Hfill1.
    destruct (IH (paths_added + bool_to_int b) st1 Hfill1)
      as (added & st' & E' & Hfill' & Hle & Hroots' & Hin' & Hiwd' & Hsame').
    exists added, st'. simpl.
    rewrite (bind_Return _ _ _ _ _ E), E'.
    assert (Hb : 0 <= bool_to_int b) by (destruct b; simpl; lia).
    repeat split; try apply Hfill'; try lia; try congruence.
    + rewrite Hroots', Hroots1. now rewrite <- app_assoc.
    + intros Hadd. assert (b = false) by (destruct b; simpl in *; [lia|reflexivity]).
      subst b. rewrite Hsame'; [now apply Hsame1|simpl; lia].
Qed.

Lemma plain_root_not_special (a : string) :
  plain_root a = true -> String.eqb a "-" = false /\ String.eqb a "//" = false.
Proof.
  unfold plain_root, strncmp_eq0. intros H.
  apply andb_true_iff in H. destruct H as [H1 H2].
  split; destruct (String.eqb_spec a "-") as [->|]; try reflexivity;
    try discriminate;
    destruct (String.eqb_spec a "//") as [->|]; try reflexivity; discriminate.
Qed.

(** The loop of [rm_cmd_set_paths] over well formed arguments. *)
Lemma set_paths_loop_step (args : list string) :
  forall (path_index : Z) (preferred not_all : bool) (st : State F),
    filled st path_index ->
    Forall well_formed_arg args ->
    exists idx' pf' na' st',
      rm_cmd_set_paths_loop env args path_index preferred not_all st
      = Return (idx', pf', na') st'
      /\ filled st' idx'
      /\ path_index <= idx'
      /\ roots st' = (roots st ++ roots_of_args env args preferred (stdin st))%list
      /\ iwd (settings (session st')) = iwd (settings (session st))
      /\ (args <> [] -> path_index < idx' \/ na' = true)
      /\ (args = [] -> na' = not_all).
Proof.
  induction args as [|a rest IH]; intros path_index preferred not_all st Hfill Hwf.
  - exists path_index, preferred, not_all, st. simpl. rewrite app_nil_r.
    split; [reflexivity|]. split; [exact Hfill|]. split; [lia|].
    split; [reflexivity|]. split; [reflexivity|].
    split; [intros H; now contradiction H|reflexivity].
  - apply Forall_cons_iff in Hwf. destruct Hwf as [Ha Hwf].
    cbn [rm_cmd_set_paths_loop roots_of_args].
    (* the rest of the loop, run from the state [st1] the first argument
       leaves, when that argument read no path ... *)
    assert (Hnone : forall st1 pf1,
      filled st1 path_index ->
      iwd (settings (session st1)) = iwd (settings (session st)) ->
      forall front,
      roots st1 = (roots st ++ front)%list ->
      exists idx' pf' na' st',
        rm_cmd_set_paths_loop env rest path_index pf1 true st1
        = Return (idx', pf', na') st'
        /\ filled st' idx'
        /\ path_index <= idx'
        /\ roots st' = (roots st ++ front ++ roots_of_args env rest pf1 (stdin st1))%list
        /\ iwd (settings (session st')) = iwd (settings (session st))
        /\ (a :: rest <> [] -> path_index < idx' \/ na' = true)
        /\ (a :: rest = [] -> na' = not_all)).
    { intros st1 pf1 Hfill1 Hiwd1 front Hroots1.
      destruct (IH path_index pf1 true st1 Hfill1 Hwf)
        as (idx' & pf' & na' & st' & E' & Hfill' & Hle' & Hroots' & Hiwd' & Hprog & Hnil).
      exists idx', pf', na', st'.
      split; [exact E'|]. split; [exact Hfill'|]. split; [lia|].
      split; [rewrite Hroots', Hroots1; now rewrite <- app_assoc|].
      split; [congruence|].
      split; [|discriminate].
      intros _. destruct rest as [|b rest'].
      - right. now apply Hnil.
      - destruct Hprog as [Hp|Hp]; [discriminate|now left|now right]. }
    (* ... and when it read [n > 0] paths *)
    assert (Hsome : forall st1 n,
      0 < n ->
      filled st1 (path_index + n) ->
      iwd (settings (session st1)) = iwd (settings (session st)) ->
      forall front,
      roots st1 = (roots st ++ front)%list ->
      exists idx' pf' na' st',
        rm_cmd_set_paths_loop env rest (path_index + n) preferred not_all st1
        = Return (idx', pf', na') st'
        /\ filled st' idx'
        /\ path_index <= idx'
        /\ roots st' = (roots st ++ front ++ roots_of_args env rest preferred (stdin st1))%list
        /\ iwd (settings (session st')) = iwd (settings (session st))
        /\ (a :: rest <> [] -> path_index < idx' \/ na' = true)
        /\ (a :: rest = [] -> na' = not_all)).
    { intros st1 n Hn Hfill1 Hiwd1 front Hroots1.
      destruct (IH (path_index + n) preferred not_all st1 Hfill1 Hwf)
        as (idx' & pf' & na' & st' & E' & Hfill' & Hle' & Hroots' & Hiwd' & _ & _).
      exists idx', pf', na', st'.
      split; [exact E'|]. split; [exact Hfill'|]. split; [lia|].
      split; [rewrite Hroots', Hroots1; now rewrite <- app_assoc|].
      split; [congruence|].
      split; [intros _; left; lia|discriminate]. }
    clear IH.
    destruct Ha as [->|[->|Hplain]].
    + (* "-" *)
      change (strncmp_eq0 "-" "-") with true. cbv iota.
      change (String.eqb "-" "-") with true. cbv iota.
      assert (Hfill0 : filled (set_stdin [] st) (path_index + 0))
        by (rewrite Z.add_0_r; exact Hfill).
      destruct (read_paths_loop_step (stdin st) preferred path_index 0
                  (set_stdin [] st) Hfill0)
        as (added & st1 & E & Hfill1 & Hle & Hroots1 & Hin1 & Hiwd1 & _).
      assert (Estep :
        bind (bind (rm_cmd_read_paths_from_stdin env preferred path_index)
                (fun read_paths => ret (read_paths, preferred)))
          (fun r =>
             if fst r =? 0
             then rm_cmd_set_paths_loop env rest path_index (snd r) true
             else rm_cmd_set_paths_loop env rest (path_index + fst r) (snd r) not_all) st
        = (if added =? 0
           then rm_cmd_set_paths_loop env rest path_index preferred true
           else rm_cmd_set_paths_loop env rest (path_index + added) preferred not_all) st1).
      { unfold rm_cmd_read_paths_from_stdin, bind, gets, modify, ret.
        unfold bind, ret in E. now rewrite E. }
      rewrite Estep. clear Estep.
      change (stdin (set_stdin [] st)) with (@nil string) in Hin1.
      change (roots (set_stdin [] st)) with (roots st) in Hroots1.
      destruct (added =? 0) eqn:Hz.
      * apply Z.eqb_eq in Hz. subst added. rewrite Z.add_0_r in Hfill1.
        destruct (Hnone st1 preferred Hfill1 Hiwd1 _ Hroots1)
          as (idx' & pf' & na' & st' & H').
        exists idx', pf', na', st'. now rewrite Hin1 in H'.
      * apply Z.eqb_neq in Hz.
        destruct (Hsome st1 added ltac:(lia) Hfill1 Hiwd1 _ Hroots1)
          as (idx' & pf' & na' & st' & H').
        exists idx', pf', na', st'. now rewrite Hin1 in H'.
    + (* "//" *)
      change (strncmp_eq0 "//" "-") with false. cbv iota.
      change (strncmp_eq0 "//" "//") with true. cbv iota.
      change (String.eqb "//" "-") with false. cbv iota.
      change (String.eqb "//" "//") with true. cbv iota.
      destruct (Hnone st (negb preferred) Hfill eq_refl [] (eq_sym (app_nil_r _)))
        as (idx' & pf' & na' & st' & H').
      exists idx', pf', na', st'. exact H'.
    + (* a root *)
      destruct (plain_root_not_special a Hplain) as [E1 E2]. rewrite E1, E2.
      unfold plain_root in Hplain. apply andb_true_iff in Hplain.
      destruct Hplain as [P1 P2].
      apply negb_true_iff in P1. apply negb_true_iff in P2. rewrite P1, P2.
      destruct (add_path_step preferred path_index (Some a) st Hfill)
        as (b & st1 & E & Hfill1 & Hroots1 & Hin1 & Hiwd1 & _ & _).
      assert (Estep :
        bind (bind (rm_cmd_add_path env preferred path_index (Some a))
                (fun added => ret (bool_to_int added, preferred)))
          (fun r =>
             if fst r =? 0
             then rm_cmd_set_paths_loop env rest path_index (snd r) true
             else rm_cmd_set_paths_loop env rest (path_index + fst r) (snd r) not_all) st
        = (if bool_to_int b =? 0
           then rm_cmd_set_paths_loop env rest path_index preferred true
           else rm_cmd_set_paths_loop env rest (path_index + bool_to_int b)
                  preferred not_all) st1).
      { unfold bind, ret. now rewrite E. }
      rewrite Estep. clear Estep.
      destruct b; cbn [bool_to_int] in *.
      * change (1 =? 0) with false. cbv iota.
        destruct (Hsome st1 1 ltac:(lia) Hfill1 Hiwd1 _ Hroots1)
          as (idx' & pf' & na' & st' & H').
        exists idx', pf', na', st'. now rewrite Hin1 in H'.
      * change (0 =? 0) with true. cbv iota. rewrite Z.add_0_r in Hfill1.
        destruct (Hnone st1 preferred Hfill1 Hiwd1 _ Hroots1)
          as (idx' & pf' & na' & st' & H').
        exists idx', pf', na', st'. now rewrite Hin1 in H'.
Qed.

End RootsSpec.

Section RootsProperties.

Context {F : Type} {FO : FloatOps F}.

Variable env : Env F.

Lemma add_path_result (preferred : bool) (index : Z) (path : option string)
    (st : State F) :
  exists b st',
    rm_cmd_add_path env preferred index path st = Return b st'
    /\ (b = false -> paths (settings (session st')) = paths (settings (session st)))
    /\ (b = false -> forall p, path = Some p -> faccessat env p = false).
Proof.
  destruct path as [p|].
  - destruct (faccessat env p) eqn:Hacc.
    + exists true, (stored env st preferred index p).
      split; [now apply add_path_readable|]. split; discriminate.
    + exists false, (warned env st (Some p)).
      split; [now apply add_path_unreadable|]. split; [reflexivity|].
      intros _ q Hq. now injection Hq as <-.
  - exists false, (warned env st None).
    split; [apply add_path_null|]. split; [reflexivity|]. discriminate.
Qed.

Lemma read_paths_loop_result (chunks : list string) (preferred : bool) (index : Z) :
  forall (paths_added : Z) (st : State F),
    exists added st',
      rm_cmd_read_paths_loop env chunks preferred index paths_added st = Return added st'
      /\ paths_added <= added
      /\ (added = paths_added ->
          paths (settings (session st')) = paths (settings (session st))).
Proof.
  induction chunks as [|c rest IH]; intros paths_added st.
  - exists paths_added, st. simpl. split; [reflexivity|]. split; [lia|reflexivity].
  - destruct (add_path_result preferred (index + paths_added) (strtok_nl c) st)
      as (b & st1 & E & Hsame1 & _).
    destruct (IH (paths_added + bool_to_int b) st1) as (added & st' & E' & Hle & Hsame').
    exists added, st'. simpl. rewrite (bind_Return _ _ _ _ _ E), E'.
    assert (Hb : 0 <= bool_to_int b) by (destruct b; simpl; lia).
    split; [reflexivity|]. split; [lia|].
    intros Hadd. assert (b = false) by (destruct b; simpl in *; [lia|reflexivity]).
    subst b. rewrite Hsame'; [now apply Hsame1|simpl; lia].
Qed.

(** The loop returns; when [path_index] did not move, no root was added
    and every argument that is a root was unreadable. *)
Lemma set_paths_loop_result (args : list string) :
  forall (path_index : Z) (preferred not_all : bool) (st : State F),
    exists idx' pf' na' st',
      rm_cmd_set_paths_loop env args path_index preferred not_all st
      = Return (idx', pf', na') st'
      /\ path_index <= idx'
      /\ (idx' = path_index ->
          paths (settings (session st')) = paths (settings (session st))
          /\ forall p, In p args -> plain_root p = true -> faccessat env p = false).
Proof.
  induction args as [|a rest IH]; intros path_index preferred not_all st.
  - exists path_index, preferred, not_all, st. simpl.
    split; [reflexivity|]. split; [lia|]. intros _. split; [reflexivity|].
    intros p [].
  - cbn [rm_cmd_set_paths_loop].
    destruct (strncmp_eq0 a "-") eqn:P1; [|destruct (strncmp_eq0 a "//") eqn:P2].
    + destruct (read_paths_loop_result (stdin st) preferred path_index 0 (set_stdin [] st))
        as (added & st1 & E & Hle & Hsame).
      assert (Estep :
        bind (bind (rm_cmd_read_paths_from_stdin env preferred path_index)
                (fun read_paths => ret (read_paths, preferred)))
          (fun r =>
             if fst r =? 0
             then rm_cmd_set_paths_loop env rest path_index (snd r) true
             else rm_cmd_set_paths_loop env rest (path_index + fst r) (snd r) not_all) st
        = (if added =? 0
           then rm_cmd_set_paths_loop env rest path_index preferred true
           else rm_cmd_set_paths_loop env rest (path_index + added) preferred not_all) st1).
      { unfold rm_cmd_read_paths_from_stdin, bind, gets, modify, ret.
        unfold bind, ret in E. now rewrite E. }
      rewrite Estep. clear Estep.
      destruct (added =? 0) eqn:Hz.
      * apply Z.eqb_eq in Hz.
        destruct (IH path_index preferred true st1)
          as (idx' & pf' & na' & st' & E' & Hle' & Hkeep).
        exists idx', pf', na', st'.
        split; [exact E'|]. split; [lia|]. intros Hi.
        destruct (Hkeep Hi) as [Hp Hu]. split.
        -- rewrite Hp. now apply Hsame.
        -- intros p [<-|Hin] Hplain; [|now apply Hu].
           unfold plain_root in Hplain. rewrite P1 in Hplain. discriminate.
      * apply Z.eqb_neq in Hz.
        destruct (IH (path_index + added) preferred not_all st1)
          as (idx' & pf' & na' & st' & E' & Hle' & _).
        exists idx', pf', na', st'.
        split; [exact E'|]. split; lia.
    + unfold bind at 1. unfold ret at 1. cbn [fst snd].
      change (0 =? 0) with true. cbv iota.
      destruct (IH path_index (negb preferred) true st)
        as (idx' & pf' & na' & st' & E' & Hle' & Hkeep).
      exists idx', pf', na', st'.
      split; [exact E'|]. split; [lia|]. intros Hi.
      destruct (Hkeep Hi) as [Hp Hu]. split; [exact Hp|].
      intros p [<-|Hin] Hplain; [|now apply Hu].
      unfold plain_root in Hplain. rewrite P2, andb_false_r in Hplain. discriminate.
    + destruct (add_path_result preferred path_index (Some a) st)
        as (b & st1 & E & Hsame & Hun).
      assert (Estep :
        bind (bind (rm_cmd_add_path env preferred path_index (Some a))
                (fun added => ret (bool_to_int added, preferred)))
          (fun r =>
             if fst r =? 0
             then rm_cmd_set_paths_loop env rest path_index (snd r) true
             else rm_cmd_set_paths_loop env rest (path_index + fst r) (snd r) not_all) st
        = (if bool_to_int b =? 0
           then rm_cmd_set_paths_loop env rest path_index preferred true
           else rm_cmd_set_paths_loop env rest (path_index + bool_to_int b)
                  preferred not_all) st1).
      { unfold bind, ret. now rewrite E. }
      rewrite Estep. clear Estep.
      destruct b; cbn [bool_to_int].
      * change (1 =? 0) with false. cbv iota.
        destruct (IH (path_index + 1) preferred not_all st1)
          as (idx' & pf' & na' & st' & E' & Hle' & _).
        exists idx', pf', na', st'.
        split; [exact E'|]. split; lia.
      * change (0 =? 0) with true. cbv iota.
        destruct (IH path_index preferred true st1)
          as (idx' & pf' & na' & st' & E' & Hle' & Hkeep).
        exists idx', pf', na', st'.
        split; [exact E'|]. split; [lia|]. intros Hi.
        destruct (Hkeep Hi) as [Hp Hu]. split.
        -- rewrite Hp. now apply Hsame.
        -- intros p [<-|Hin] Hplain; [|now apply Hu].
           now apply (Hun eq_refl).
Qed.

(** C7: an unreadable root is not added, a warning is logged, and the
    loop goes on with the roots that follow; [rm_cmd_set_paths] fails (the
    "No valid paths given" error of [rm_cmd_parse_args]) only when no root
    was added: every argument that is a root was unreadable. *)
Theorem C7_unreadable_root_is_skipped :
  (forall (preferred : bool) (index : Z) (path : string) (st : State F),
      faccessat env path = false ->
      exists warning,
        rm_cmd_add_path env preferred index (Some path) st
        = Return false (set_log (log st ++ [(LOG_WARNING, warning)]) st))
  /\ (forall (path : string) (rest : list string) (path_index : Z)
             (preferred not_all : bool) (st : State F),
      plain_root path = true ->
      faccessat env path = false ->
      exists warning,
        rm_cmd_set_paths_loop env (path :: rest) path_index preferred not_all st
        = rm_cmd_set_paths_loop env rest path_index preferred true
            (set_log (log st ++ [(LOG_WARNING, warning)]) st))
  /\ (forall (args : list string) (st st' : State F),
      rm_cmd_set_paths env args st = Return false st' ->
      paths (settings (session st')) = paths (settings (session st))
      /\ forall p, In p args -> plain_root p = true -> faccessat env p = false).
Proof.
  split; [|split].
  - intros preferred index path st Hacc. eexists.
    rewrite (add_path_unreadable env _ _ _ _ Hacc). reflexivity.
  - intros path rest path_index preferred not_all st Hplain Hacc. eexists.
    cbn [rm_cmd_set_paths_loop].
    unfold plain_root in Hplain. apply andb_true_iff in Hplain.
    destruct Hplain as [P1 P2].
    apply negb_true_iff in P1. apply negb_true_iff in P2. rewrite P1, P2.
    unfold bind at 1. unfold bind at 1.
    rewrite (add_path_unreadable env _ _ _ _ Hacc). reflexivity.
  - intros args st st' H.
    unfold rm_cmd_set_paths in H.
    destruct (set_paths_loop_result args 0 false false st)
      as (idx' & pf' & na' & st1 & E & Hle & Hkeep).
    rewrite (bind_Return _ _ _ _ _ E) in H. cbn [fst snd] in H.
    destruct (idx' =? 0) eqn:Hz.
    + apply Z.eqb_eq in Hz. destruct (Hkeep Hz) as [Hp Hu].
      destruct na'; cbn [negb andb] in H.
      * injection H as <-. now split.
      * unfold settings_get, gets, bind at 1 in H.
        destruct (add_path_result pf' idx' (Some (iwd (settings (session st1)))) st1)
          as (b & st2 & E2 & _).
        rewrite (bind_Return _ _ _ _ _ E2) in H. discriminate H.
    + cbn [andb] in H. discriminate H.
Qed.

(** C5, as the code has it: of the arguments that are "-", "//", or start
    with neither '-' nor "//", "//" toggles the preferred flag (false at
    first), "-" takes the roots from the lines of standard input, and
    every other argument is a root; the readable roots are added in order,
    each with the preferred flag in effect, the unreadable ones are
    skipped.  Without any argument the working directory is the root. *)
Theorem C5_roots_and_preferred_flag (args : list string) (st : State F) :
  paths (settings (session st)) = [] ->
  is_prefd (settings (session st)) = [] ->
  Forall well_formed_arg args ->
  exists b st',
    rm_cmd_set_paths env args st = Return b st'
    /\ roots st' =
         match args with
         | [] => root_of env false (Some (iwd (settings (session st))))
         | _ => roots_of_args env args false (stdin st)
         end.
Proof.
  intros Hp Hq Hwf.
  assert (Hfill : filled st 0) by (unfold filled; now rewrite Hp, Hq).
  assert (Hroots0 : roots st = []) by (unfold roots; now rewrite Hp).
  unfold rm_cmd_set_paths.
  destruct (set_paths_loop_step env args 0 false false st Hfill Hwf)
    as (idx' & pf' & na' & st1 & E & Hfill1 & Hle & Hroots1 & Hiwd1 & Hprog & Hnil).
  rewrite (bind_Return _ _ _ _ _ E). cbn [fst snd].
  rewrite Hroots0 in Hroots1. cbn [app] in Hroots1.
  destruct args as [|a rest].
  - specialize (Hnil eq_refl). subst na'.
    simpl in E. injection E as <- <- <-.
    change (0 =? 0) with true. cbn [negb andb].
    unfold settings_get, gets, bind at 1.
    destruct (add_path_step env false 0 (Some (iwd (settings (session st)))) st Hfill)
      as (b & st2 & E2 & _ & Hroots2 & _).
    rewrite (bind_Return _ _ _ _ _ E2).
    exists true, st2. split; [reflexivity|].
    rewrite Hroots2, Hroots0. reflexivity.
  - destruct (Hprog ltac:(discriminate)) as [Hpos|Hna].
    + replace (idx' =? 0) with false by (symmetry; apply Z.eqb_neq; lia).
      cbn [andb]. exists true, st1. now split.
    + subst na'. cbn [negb]. rewrite andb_false_r, andb_true_r.
      destruct (idx' =? 0); [exists false, st1|exists true, st1]; now split.
Qed.

End RootsProperties.

(** C5 to the letter fails twice on the sample environment: an unreadable
    root is not added, and an argument that only starts with "//" is taken
    for the separator. *)
Lemma C5_counterexample :
  roots_after (rm_cmd_set_paths (Demo.env 0) ["/missing/a"; "b"] (Demo.start []))
  <> claimed_roots (Demo.env 0) ["/missing/a"; "b"] false []
  /\ roots_after (rm_cmd_set_paths (Demo.env 0) ["//foo"; "b"] (Demo.start []))
  <> claimed_roots (Demo.env 0) ["//foo"; "b"] false [].
Proof. split; vm_compute; discriminate. Qed.

Lemma C5_roots_and_preferred_flag_witness :
  exists b st',
    rm_cmd_set_paths (Demo.env 0) ["a"; "//"; "-"; "/missing/c"; "d"]
      (Demo.start ["x" ++ String newline ""; "/missing/y"]) = Return b st'
    /\ roots st' = [("a", false); ("x", true); ("d", true)].
Proof.
  apply (C5_roots_and_preferred_flag (Demo.env 0)
           ["a"; "//"; "-"; "/missing/c"; "d"]
           (Demo.start ["x" ++ String newline ""; "/missing/y"]) eq_refl eq_refl).
  repeat (constructor;
          [first [left; reflexivity
                 |right; left; reflexivity
                 |right; right; reflexivity]|]).
  constructor.
Defined.

Lemma C7_unreadable_root_is_skipped_witness :
  exists warning,
    rm_cmd_set_paths_loop (Demo.env 0) ["/missing/a"; "b"] 0 false false (Demo.start [])
    = rm_cmd_set_paths_loop (Demo.env 0) ["b"] 0 false true
        (set_log (log (Demo.start []) ++ [(LOG_WARNING, warning)]) (Demo.start [])).
Proof.
  apply (proj1 (proj2 (C7_unreadable_root_is_skipped (Demo.env 0)))); reflexivity.
Defined.

(** ** The orchestrator *)

Section MainProperties.

Context {F : Type} {FO : FloatOps F}.

Variable env : Env F.

Lemma own_notifications_in_order (mounts_ok preprocess merge : bool) :
  subsequence (own_notifications mounts_ok preprocess merge) all_phases
  /\ ~ In RM_PROGRESS_STATE_SHRED (own_notifications mounts_ok preprocess merge).
Proof.
  destruct mounts_ok, preprocess, merge; (split; [repeat constructor|]);
    simpl; intuition discriminate.
Qed.

(** What a run of [rm_cmd_main] returns and notifies. *)
Lemma main_run (st : State F) :
  let mounts_ok := is_some (rm_mounts_table_new env (session st)) in
  exists (status : Z) (st' : State F),
    rm_cmd_main env st = Return status st'
    /\ status = (if mounts_ok then EXIT_SUCCESS else EXIT_FAILURE)
    /\ notified st' =
         (notified st
          ++ own_notifications mounts_ok
               (1 <=? total_files (traversed env (session st)))
               (flag (settings (searched env (session st))) merge_directories))%list.
Proof.
  intros mounts_ok. subst mounts_ok.
  remember (rm_cmd_main env st) as o eqn:E.
  unfold rm_cmd_main, rm_fmt_set_state, update_session, get_session,
    rm_log_debug, rm_log in E.
  run_in E. cbn [mounts set_mounts is_some].
  destruct (rm_mounts_table_new env (session st)) as [m|] eqn:Hm.
  - run_in E. repeat branch_in E.
    all: try discriminate.
    all: unfold modify, ret in E; fields_in E; subst o.
    all: do 2 eexists.
    all: split; [reflexivity|]; split; [reflexivity|].
    all: cbn [is_some mounts set_mounts notified set_notified set_session].
    all: unfold searched, traversed; rewrite Hm.
    all: repeat (match goal with
                 | H : ?b = _ |- context [?b] => rewrite H
                 end;
                 cbn [total_files set_dir_merger settings]).
    all: unfold own_notifications; cbn [app];
      repeat rewrite <- app_assoc; reflexivity.
  - run_in E. unfold ret in E. subst o.
    do 2 eexists. split; [reflexivity|].
    split; [reflexivity|]. cbn [notified set_session set_notified is_some].
    unfold own_notifications. repeat rewrite <- app_assoc. reflexivity.
Qed.

(** C1, as the code has it: [rm_cmd_main] returns; it notifies the
    formatters of INIT and TRAVERSE, then, when the mount table could be
    built, of PREPROCESS exactly if the traversal found a file, of MERGE
    exactly if [merge_directories] is set in the session the search for
    duplicates leaves, and of PRE_SHUTDOWN and SUMMARY: always in the
    order of the state machine, never of SHRED, and not of every phase. *)
Theorem C1_main_notifications (st : State F) :
  let mounts_ok := is_some (rm_mounts_table_new env (session st)) in
  let preprocess := 1 <=? total_files (traversed env (session st)) in
  let merge := flag (settings (searched env (session st))) merge_directories in
  exists (status : Z) (st' : State F),
    rm_cmd_main env st = Return status st'
    /\ status = (if mounts_ok then EXIT_SUCCESS else EXIT_FAILURE)
    /\ notified st' = (notified st ++ own_notifications mounts_ok preprocess merge)%list
    /\ subsequence (own_notifications mounts_ok preprocess merge) all_phases
    /\ ~ In RM_PROGRESS_STATE_SHRED (own_notifications mounts_ok preprocess merge).
Proof.
  intros mounts_ok preprocess merge.
  destruct (main_run st) as (status & st' & E & Hs & Hn).
  exists status, st'.
  split; [exact E|]. split; [exact Hs|]. split; [exact Hn|].
  apply own_notifications_in_order.
Qed.

End MainProperties.

(** C1 to the letter fails: a run whose traversal finds no file is not
    notified of PREPROCESS, SHRED and MERGE. *)
Lemma C1_counterexample :
  ~ (forall (env : Env Q) (st : State Q),
        exists status st',
          rm_cmd_main env st = Return status st'
          /\ notified st' = (notified st ++ all_phases)%list).
Proof.
  intros H.
  destruct (H (Demo.env 0) (Demo.start [])) as (status & st' & E & Hn).
  vm_compute in E. injection E as _ <-.
  vm_compute in Hn. discriminate Hn.
Qed.

Ltac fields :=
  cbn [session notified set_session set_notified set_log set_stdin mounts
       set_mounts settings total_files set_dir_merger log stdin fst snd].

Ltac run :=
  repeat (first [ rewrite bind_modify | rewrite bind_gets
                | rewrite bind_ret | rewrite bind_bind ];
          cbv beta);
  fields.

(** ** rm_cmd_parse_args *)

Section ParseArgs.

Context {F : Type} {FO : FloatOps F}.

Variable env : Env F.

Local Notation "x <- m ;; k" := (bind m (fun x => k))
  (at level 61, m at next level, right associativity).

Local Notation "m ;; k" := (bind m (fun _ => k))
  (at level 61, right associativity).

Lemma parse_args_unfold (argv : list string) (cwd : string) (st : State F) :
  getcwd env = Some cwd ->
  rm_cmd_parse_args env argv st
  = bind (g_option_context_parse env (g_option_scan env argv) None [])
      (after_options env) (before_options argv cwd st).
Proof.
  intros Hcwd.
  unfold rm_cmd_parse_args, rm_cmd_set_cwd, rm_cmd_set_cmdline,
    rm_cmd_set_verbosity_from_cnt, session_get, update_settings, update_session.
  rewrite Hcwd. run. reflexivity.
Qed.

Lemma parse_args_no_cwd (argv : list string) (st : State F) :
  getcwd env = None ->
  exists st', rm_cmd_parse_args env argv st = Return false st'
              /\ flags (settings (session st')) = flags (settings (session st))
              /\ threads (settings (session st')) = threads (settings (session st))
              /\ depth (settings (session st')) = depth (settings (session st)).
Proof.
  intros Hcwd.
  unfold rm_cmd_parse_args, rm_cmd_set_cwd, rm_cmd_set_cmdline,
    rm_cmd_set_verbosity_from_cnt, session_get, update_settings, update_session, rm_log.
  rewrite Hcwd. run. eexists. split; [reflexivity|]. repeat split.
Qed.

Lemma preserves_ret {A : Type} (P : State F -> Prop) (a : A) : preserves P (ret a).
Proof. intros st b st' H E. injection E as _ <-. exact H. Qed.

Lemma preserves_gets {A : Type} (P : State F -> Prop) (f : State F -> A) :
  preserves P (gets f).
Proof. intros st b st' H E. injection E as _ <-. exact H. Qed.

Lemma preserves_modify (P : State F -> Prop) (f : State F -> State F) :
  (forall st, P st -> P (f st)) -> preserves P (modify f).
Proof. intros Hf st b st' H E. injection E as _ <-. now apply Hf. Qed.

Lemma preserves_bind {A B : Type} (P : State F -> Prop) (m : M F A) (k : A -> M F B) :
  preserves P m -> (forall a, preserves P (k a)) -> preserves P (bind m k).
Proof.
  intros Hm Hk st b st' H E. unfold bind in E.
  destruct (m st) as [a st1|x st1] eqn:Em; [|discriminate E].
  exact (Hk a st1 b st' (Hm st a st1 H Em) E).
Qed.

Ltac preserves_tac :=
  repeat first
    [ apply preserves_ret
    | apply preserves_gets
    | apply preserves_modify; intros ? ?; assumption
    | apply preserves_bind; [|intros ?]
    | match goal with
      | |- preserves _ (if ?b then _ else _) => destruct b
      | |- preserves _ (match ?x with _ => _ end) => destruct x
      | |- preserves _ (let (_, _) := ?x in _) => destruct x
      end
    | progress unfold update_settings, update_session, settings_get, session_get,
        get_session, rm_log_warning, rm_log_warning_line, rm_log_debug,
        rm_log_error_line, rm_log, rm_fmt_add ].

Lemma add_path_options (fl : RmFlags) (t d : Z) (preferred : bool) (index : Z)
    (path : option string) :
  preserves (options_are fl t d) (rm_cmd_add_path env preferred index path).
Proof. unfold rm_cmd_add_path. preserves_tac. Qed.

Lemma read_paths_loop_options (fl : RmFlags) (t d : Z) (chunks : list string)
    (preferred : bool) (index : Z) :
  forall paths_added,
    preserves (options_are fl t d)
      (rm_cmd_read_paths_loop env chunks preferred index paths_added).
Proof.
  induction chunks as [|c rest IH]; intros paths_added; simpl.
  - apply preserves_ret.
  - apply preserves_bind; [apply add_path_options|intros b; apply IH].
Qed.

Lemma set_paths_loop_options (fl : RmFlags) (t d : Z) (args : list string) :
  forall path_index preferred not_all,
    preserves (options_are fl t d)
      (rm_cmd_set_paths_loop env args path_index preferred not_all).
Proof.
  induction args as [|a rest IH]; intros path_index preferred not_all;
    cbn [rm_cmd_set_paths_loop].
  - apply preserves_ret.
  - apply preserves_bind.
    + destruct (strncmp_eq0 a "-"); [|destruct (strncmp_eq0 a "//")].
      * apply preserves_bind; [|intros ?; apply preserves_ret].
        unfold rm_cmd_read_paths_from_stdin.
        apply preserves_bind; [apply preserves_gets|intros chunks].
        apply preserves_bind; [apply preserves_modify; intros ? ?; assumption|intros _].
        apply read_paths_loop_options.
      * apply preserves_ret.
      * apply preserves_bind; [apply add_path_options|intros ?; apply preserves_ret].
    + intros r. destruct (fst r =? 0); apply IH.
Qed.

Lemma set_paths_options (fl : RmFlags) (t d : Z) (args : list string) :
  preserves (options_are fl t d) (rm_cmd_set_paths env args).
Proof.
  unfold rm_cmd_set_paths.
  apply preserves_bind; [apply set_paths_loop_options|intros r].
  destruct ((fst (fst r) =? 0) && negb (snd r)).
  - apply preserves_bind; [apply preserves_gets|intros cwd].
    apply preserves_bind; [apply add_path_options|intros ?; apply preserves_ret].
  - destruct ((fst (fst r) =? 0) && snd r); apply preserves_ret.
Qed.

Lemma set_outputs_options (fl : RmFlags) (t d : Z) (error : GError) :
  preserves (options_are fl t d) (rm_cmd_set_outputs env error).
Proof. unfold rm_cmd_set_outputs. preserves_tac. Qed.

Lemma on_error_exits {A : Type} (message : string) (st : State F) :
  exists st', rm_cmd_on_error (A := A) env message st = Exit EXIT_FAILURE st'.
Proof. eexists. reflexivity. Qed.

Lemma on_error_never_returns {A : Type} (message : string) (st st' : State F) (a : A) :
  rm_cmd_on_error env message st <> Return a st'.
Proof. discriminate. Qed.

Lemma check_options_returns (r : GError * list string) (st2 st' : State F) (b : bool) :
  check_options env r st2 = Return b st' ->
  b = true
  /\ options_are (flags (settings (session st2))) (threads (settings (session st2)))
       (depth (settings (session st2))) st'.
Proof.
  intros H. unfold check_options, settings_get in H.
  run_in H.
  destruct (_ && _) in H.
  { run_in H. now apply on_error_never_returns in H. }
  destruct (fl_leb _ _) in H.
  { run_in H. now apply on_error_never_returns in H. }
  run_in H.
  destruct (rm_cmd_set_paths env (snd r) st2) as [ok st3|x st3] eqn:Ep.
  2:{ rewrite (bind_Exit _ _ _ _ _ Ep) in H. discriminate H. }
  rewrite (bind_Return _ _ _ _ _ Ep) in H.
  assert (H3 : options_are (flags (settings (session st2)))
                 (threads (settings (session st2))) (depth (settings (session st2))) st3).
  { apply (set_paths_options _ _ _ _ _ _ _ (conj eq_refl (conj eq_refl eq_refl)) Ep). }
  destruct ok; cbn [negb] in H.
  2:{ run_in H. now apply on_error_never_returns in H. }
  run_in H.
  destruct (rm_cmd_set_outputs env (fst r) st3) as [o st4|x st4] eqn:Eo.
  2:{ rewrite (bind_Exit _ _ _ _ _ Eo) in H. discriminate H. }
  rewrite (bind_Return _ _ _ _ _ Eo) in H.
  pose proof (set_outputs_options _ _ _ _ _ _ _ H3 Eo) as H4.
  run_in H.
  destruct (snd o).
  { now apply on_error_never_returns in H. }
  injection H as <- <-. now split.
Qed.

Lemma after_options_returns (r : GError * list string) (st1 st' : State F) (b : bool) :
  after_options env r st1 = Return b st' ->
  b = true
  /\ flag (settings (session st')) color = (isatty_stdout env && isatty_stderr env)
  /\ threads (settings (session st')) = CLAMP (threads (settings (session st1))) 1 128
  /\ depth (settings (session st')) = CLAMP (depth (settings (session st1))) 1 (PATH_MAX / 2 + 1).
Proof.
  intros H. apply check_options_returns in H. destruct H as [Hb (Hf & Ht & Hd)].
  split; [exact Hb|]. unfold flag. rewrite Hf, Ht, Hd. repeat split.
Qed.

Lemma CLAMP_range (x low high : Z) : low <= high -> low <= CLAMP x low high <= high.
Proof.
  intros H. unfold CLAMP.
  destruct (high <? x) eqn:E1; [lia|].
  destruct (x <? low) eqn:E2; [lia|].
  apply Z.ltb_ge in E1. apply Z.ltb_ge in E2. lia.
Qed.

(** C10: when [rm_cmd_parse_args] returns true, the thread count is in
    [1, 128] and the traversal depth in [1, PATH_MAX / 2 + 1], whatever
    numbers the options gave: the values are clamped, the call is not
    refused.  It returns false only when [getcwd] fails, before any option
    is read: the two settings then still hold what the session was set up
    with. *)
Theorem C10_threads_and_depth_clamped (argv : list string) (st st' : State F) (b : bool) :
  rm_cmd_parse_args env argv st = Return b st' ->
  (b = true ->
   1 <= threads (settings (session st')) <= 128
   /\ 1 <= depth (settings (session st')) <= PATH_MAX / 2 + 1)
  /\ (b = false ->
      getcwd env = None
      /\ threads (settings (session st')) = threads (settings (session st))
      /\ depth (settings (session st')) = depth (settings (session st))).
Proof.
  intros H.
  destruct (getcwd env) as [cwd|] eqn:Hcwd.
  - rewrite (parse_args_unfold argv cwd st Hcwd) in H.
    destruct (g_option_context_parse env (g_option_scan env argv) None []
                (before_options argv cwd st)) as [r st1|x st1] eqn:E.
    2:{ rewrite (bind_Exit _ _ _ _ _ E) in H. discriminate H. }
    rewrite (bind_Return _ _ _ _ _ E) in H.
    apply after_options_returns in H. destruct H as (Hb & _ & Ht & Hd).
    split; [|intros Hf; rewrite Hb in Hf; discriminate Hf].
    intros _. rewrite Ht, Hd.
    split; apply CLAMP_range; unfold PATH_MAX; simpl; lia.
  - destruct (parse_args_no_cwd argv st Hcwd) as (st0 & E & _ & Ht & Hd).
    rewrite E in H. injection H as <- <-.
    split; [intros Hf; discriminate Hf|].
    intros _. split; [reflexivity|]. split; [exact Ht|exact Hd].
Qed.

(** *** The colour flag does not flow into anything else *)

Lemma erase_erase (st : State F) : erase (erase st) = erase st.
Proof. reflexivity. Qed.

Lemma secure_ret {A : Type} (a : A) : secure (ret (F := F) a).
Proof. intros st. reflexivity. Qed.

Lemma secure_exit {A : Type} (status : Z) : secure (exit (F := F) (A := A) status).
Proof. intros st. reflexivity. Qed.

Lemma secure_gets {A : Type} (f : State F -> A) :
  (forall st, f st = f (erase st)) -> secure (gets f).
Proof. intros H st. unfold gets, observe. now rewrite <- H. Qed.

Lemma secure_modify (f : State F -> State F) :
  (forall st, erase (f st) = erase (f (erase st))) -> secure (modify f).
Proof. intros H st. unfold modify, observe. now rewrite <- H. Qed.

Lemma secure_bind {A B : Type} (m : M F A) (k : A -> M F B) :
  secure m -> (forall a, secure (k a)) -> secure (bind m k).
Proof.
  intros Hm Hk st. specialize (Hm st). unfold bind.
  destruct (m st) as [a s1|x s1], (m (erase st)) as [a' s1'|x' s1'];
    simpl in Hm; try discriminate Hm.
  - assert (Hinj : forall (a1 a2 : A) (e1 e2 : State F),
               @inl (A * State F) Z (a1, e1) = inl (a2, e2) -> a1 = a2 /\ e1 = e2).
    { intros a1 a2 e1 e2 E. now injection E. }
    destruct (Hinj _ _ _ _ Hm) as [<- He].
    rewrite (Hk a s1), (Hk a s1'). now rewrite He.
  - injection Hm as <-. reflexivity.
Qed.

Lemma secure_die {A : Type} (status : Z) : secure (rm_cmd_die (A := A) env status).
Proof. intros st. reflexivity. Qed.

Lemma erase_store_all (fields : list RmBoolField) (v : bool) :
  forall cfg : RmSettings F,
    erase_settings (store_all fields v cfg)
    = erase_settings (store_all fields v (erase_settings cfg)).
Proof.
  unfold store_all.
  induction fields as [|f rest IH]; intros cfg; simpl; [reflexivity|].
  rewrite IH. rewrite (IH (set_flag f v (erase_settings cfg))).
  reflexivity.
Qed.

Lemma secure_store_all (fields : list RmBoolField) (v : bool) :
  secure (F := F) (update_settings (store_all fields v)).
Proof.
  apply secure_modify. intros st.
  change (erase (set_session
                   (set_settings (store_all fields v (settings (session st))) (session st))
                   st))
    with (set_session
            (set_settings (erase_settings (store_all fields v (settings (session st))))
               (session st)) st).
  rewrite erase_store_all. reflexivity.
Qed.

Ltac head_of t :=
  match t with
  | ?f _ => head_of f
  | _ => t
  end.

Ltac secure_step :=
  lazymatch goal with
  | |- secure (ret _) => apply secure_ret
  | |- secure (exit _) => apply secure_exit
  | |- secure (rm_cmd_die _ _) => apply secure_die
  | |- secure (update_settings (store_all _ _)) => apply secure_store_all
  | |- secure (gets _) => apply secure_gets; intros ?; reflexivity
  | |- secure (modify _) => apply secure_modify; intros ?; reflexivity
  | |- secure (bind _ _) => apply secure_bind; [|intros ?]
  | |- secure (if ?b then _ else _) => destruct b
  | |- secure (match ?x with _ => _ end) => destruct x
  | |- secure ?m => let h := head_of m in unfold h
  end.

Ltac secure_tac := repeat secure_step.

Lemma secure_lint_loop (l : list string) :
  forall index, secure (rm_cmd_parse_lint_types_loop (F := F) l index).
Proof.
  induction l as [|t rest IH]; intros index; simpl.
  - apply secure_ret.
  - apply secure_bind; [|intros _; apply IH]. secure_tac.
Qed.

Lemma secure_callback (name : RmCallback) (value : string) (error : GError) :
  secure (run_callback env name value error).
Proof.
  destruct name; cbn [run_callback].
  - unfold rm_cmd_parse_lint_types.
    apply secure_bind; [apply secure_lint_loop|intros _]. secure_tac.
  - unfold rm_cmd_parse_limit_sizes. secure_tac.
  - unfold rm_cmd_parse_algorithm. secure_tac.
  - unfold rm_cmd_parse_small_output, rm_cmd_parse_output_pair. secure_tac.
  - unfold rm_cmd_parse_large_output, rm_cmd_parse_output_pair. secure_tac.
  - unfold rm_cmd_parse_paranoid_mem. secure_tac.
  - unfold rm_cmd_parse_timestamp_file, rm_cmd_parse_timestamp. secure_tac.
  - unfold rm_cmd_parse_timestamp. secure_tac.
  - unfold rm_cmd_parse_clamp_low, rm_cmd_parse_clamp_option,
      rm_cmd_parse_clamp_factor, rm_cmd_parse_clamp_offset. secure_tac.
  - unfold rm_cmd_parse_clamp_top, rm_cmd_parse_clamp_option,
      rm_cmd_parse_clamp_factor, rm_cmd_parse_clamp_offset. secure_tac.
  - unfold rm_cmd_parse_config, rm_cmd_parse_config_pair. secure_tac.
  - unfold rm_cmd_parse_cache. secure_tac.
  - unfold rm_cmd_parse_progress. secure_tac.
  - unfold rm_cmd_parse_no_progress. secure_tac.
  - unfold rm_cmd_parse_loud, rm_cmd_set_verbosity_from_cnt. secure_tac.
  - unfold rm_cmd_parse_quiet, rm_cmd_set_verbosity_from_cnt. secure_tac.
  - unfold rm_cmd_parse_paranoid, rm_cmd_set_paranoia_from_cnt. secure_tac.
  - unfold rm_cmd_parse_less_paranoid, rm_cmd_set_paranoia_from_cnt. secure_tac.
  - unfold rm_cmd_parse_merge_directories. secure_tac.
  - unfold rm_cmd_show_help. secure_tac.
  - unfold rm_cmd_show_version. secure_tac.
Qed.

Lemma secure_parse_arg (entry : GOptionEntry) (value : option string) (error : GError) :
  secure (parse_arg env entry value error).
Proof.
  unfold parse_arg.
  repeat lazymatch goal with
         | |- secure (run_callback _ _ _ _) => apply secure_callback
         | |- secure (update_settings (store_int ?f _)) =>
             is_var f; destruct f; unfold store_int
         | _ => secure_step
         end.
Qed.

Lemma secure_option_parser (tokens : list Token) :
  forall error paths_, secure (g_option_context_parse env tokens error paths_).
Proof.
  induction tokens as [|tok rest IH]; intros error paths_.
  - apply secure_ret.
  - destruct tok as [name value|ch value|a]; cbn [g_option_context_parse].
    3:{ apply IH. }
    all: match goal with |- secure (if ?b then _ else _) => destruct b end;
      [apply secure_exit|].
    all: apply secure_bind;
      [ match goal with |- secure (match ?x with _ => _ end) => destruct x end;
        [apply secure_parse_arg|apply secure_ret]
      | intros r; destruct (fst r); [apply IH|secure_tac] ].
Qed.

Lemma secure_add_path (preferred : bool) (index : Z) (path : option string) :
  secure (rm_cmd_add_path env preferred index path).
Proof. unfold rm_cmd_add_path. secure_tac. Qed.

Lemma secure_read_paths_loop (chunks : list string) (preferred : bool) (index : Z) :
  forall paths_added,
    secure (rm_cmd_read_paths_loop env chunks preferred index paths_added).
Proof.
  induction chunks as [|c rest IH]; intros paths_added; simpl.
  - apply secure_ret.
  - apply secure_bind; [apply secure_add_path|intros b; apply IH].
Qed.

Lemma secure_set_paths_loop (args : list string) :
  forall path_index preferred not_all,
    secure (rm_cmd_set_paths_loop env args path_index preferred not_all).
Proof.
  induction args as [|a rest IH]; intros path_index preferred not_all;
    cbn [rm_cmd_set_paths_loop].
  - apply secure_ret.
  - apply secure_bind.
    + destruct (strncmp_eq0 a "-"); [|destruct (strncmp_eq0 a "//")].
      * apply secure_bind; [|intros ?; apply secure_ret].
        unfold rm_cmd_read_paths_from_stdin.
        apply secure_bind; [secure_tac|intros chunks].
        apply secure_bind; [secure_tac|intros _].
        apply secure_read_paths_loop.
      * apply secure_ret.
      * apply secure_bind; [apply secure_add_path|intros ?; apply secure_ret].
    + intros r. destruct (fst r =? 0); apply IH.
Qed.

Lemma secure_set_paths (args : list string) : secure (rm_cmd_set_paths env args).
Proof.
  unfold rm_cmd_set_paths.
  apply secure_bind; [apply secure_set_paths_loop|intros r].
  destruct ((fst (fst r) =? 0) && negb (snd r)).
  - apply secure_bind; [secure_tac|intros cwd].
    apply secure_bind; [apply secure_add_path|intros ?; apply secure_ret].
  - destruct ((fst (fst r) =? 0) && snd r); apply secure_ret.
Qed.

Lemma secure_set_outputs (error : GError) : secure (rm_cmd_set_outputs env error).
Proof. unfold rm_cmd_set_outputs. secure_tac. Qed.

Lemma secure_check_options (r : GError * list string) : secure (check_options env r).
Proof.
  unfold check_options.
  apply secure_bind; [secure_tac|intros keep_both].
  apply secure_bind; [secure_tac|intros clamp_crossed].
  apply secure_bind.
  - destruct keep_both; [apply secure_ret|].
    destruct clamp_crossed; [apply secure_ret|].
    apply secure_bind; [apply secure_set_paths|intros ok].
    destruct (negb ok); [apply secure_ret|].
    apply secure_bind; [apply secure_set_outputs|intros ?; apply secure_ret].
  - intros error. destruct error; secure_tac.
Qed.

Lemma fix_options_erase (st : State F) :
  erase (fix_options env st) = erase (fix_options env (erase st)).
Proof. reflexivity. Qed.

Lemma secure_after_options (r : GError * list string) : secure (after_options env r).
Proof.
  intros st. unfold after_options.
  rewrite (secure_check_options r (fix_options env st)).
  rewrite (secure_check_options r (fix_options env (erase st))).
  now rewrite fix_options_erase.
Qed.

(** A colour option only stores the colour flag. *)
Lemma color_option_step (tok : Token) (rest : list Token) (error : GError)
    (paths_ : list string) (st : State F) :
  is_color_option tok = true ->
  exists v,
    g_option_context_parse env (tok :: rest) error paths_ st
    = g_option_context_parse env rest error paths_
        (set_session (set_settings (set_flag color v (settings (session st))) (session st)) st).
Proof.
  destruct tok as [name [value|]|ch [value|]|a]; try discriminate; cbn [is_color_option];
    intros H; apply orb_true_iff in H; destruct H as [H|H].
  1-4: apply String.eqb_eq in H; subst name; eexists; reflexivity.
  1-4: apply Ascii.eqb_eq in H; subst ch; eexists; reflexivity.
Qed.

Lemma observe_bind_ext {A B : Type} (m : M F A) (k1 k2 : A -> M F B) (st : State F) :
  (forall a s, observe (k1 a s) = observe (k2 a s)) ->
  observe (bind m k1 st) = observe (bind m k2 st).
Proof. intros H. unfold bind. destruct (m st); [apply H|reflexivity]. Qed.

Lemma option_parser_without_color (tokens : list Token) :
  forall error paths_ st,
    observe (g_option_context_parse env tokens error paths_ st)
    = observe (g_option_context_parse env (without_color tokens) error paths_ st).
Proof.
  induction tokens as [|tok rest IH]; intros error paths_ st; [reflexivity|].
  unfold without_color. cbn [filter]. fold (without_color rest).
  destruct (is_color_option tok) eqn:Hc; cbn [negb].
  - destruct (color_option_step tok rest error paths_ st Hc) as [v E].
    rewrite E, IH.
    rewrite (secure_option_parser (without_color rest) error paths_ st).
    rewrite (secure_option_parser (without_color rest) error paths_ _).
    reflexivity.
  - destruct tok as [name value|ch value|a]; cbn [g_option_context_parse].
    3:{ apply IH. }
    all: match goal with |- context [if ?b then _ else _] => destruct b end;
      [reflexivity|].
    all: apply observe_bind_ext; intros r s1;
      destruct (fst r); [apply IH|reflexivity].
Qed.

Lemma observe_bind_cong {A B : Type} (m1 m2 : M F A) (k : A -> M F B) (st1 st2 : State F) :
  observe (m1 st1) = observe (m2 st2) ->
  (forall a, secure (k a)) ->
  observe (bind m1 k st1) = observe (bind m2 k st2).
Proof.
  intros Hm Hk. unfold bind.
  destruct (m1 st1) as [a s1|x s1], (m2 st2) as [a' s1'|x' s1'];
    simpl in Hm; try discriminate Hm.
  - assert (Hinj : forall (a1 a2 : A) (e1 e2 : State F),
               @inl (A * State F) Z (a1, e1) = inl (a2, e2) -> a1 = a2 /\ e1 = e2).
    { intros a1 a2 e1 e2 E. now injection E. }
    destruct (Hinj _ _ _ _ Hm) as [<- He].
    rewrite (Hk a s1), (Hk a s1'). now rewrite He.
  - injection Hm as <-. reflexivity.
Qed.

(** Two command lines that differ in colour options only are told apart
    by nothing but the colour flag and the joined command line. *)
Lemma parse_args_without_color (argv1 argv2 : list string) (st : State F) :
  without_color (g_option_scan env argv1) = without_color (g_option_scan env argv2) ->
  observe (rm_cmd_parse_args env argv1 st) = observe (rm_cmd_parse_args env argv2 st).
Proof.
  intros Hsame.
  destruct (getcwd env) as [cwd|] eqn:Hcwd.
  - rewrite !(parse_args_unfold _ cwd st Hcwd).
    apply observe_bind_cong; [|apply secure_after_options].
    rewrite (option_parser_without_color (g_option_scan env argv1)).
    rewrite (option_parser_without_color (g_option_scan env argv2)).
    rewrite Hsame.
    rewrite (secure_option_parser _ None [] (before_options argv1 cwd st)).
    rewrite (secure_option_parser _ None [] (before_options argv2 cwd st)).
    reflexivity.
  - unfold rm_cmd_parse_args, rm_cmd_set_cwd, rm_cmd_set_verbosity_from_cnt,
      session_get, update_settings, update_session, rm_log.
    rewrite Hcwd. reflexivity.
Qed.

Lemma parse_args_returns (argv : list string) (st st' : State F) (b : bool) :
  rm_cmd_parse_args env argv st = Return b st' ->
  (b = true
   /\ flag (settings (session st')) color = (isatty_stdout env && isatty_stderr env))
  \/ (b = false
      /\ getcwd env = None
      /\ flag (settings (session st')) color = flag (settings (session st)) color).
Proof.
  intros H.
  destruct (getcwd env) as [cwd|] eqn:Hcwd.
  - left. rewrite (parse_args_unfold argv cwd st Hcwd) in H.
    destruct (g_option_context_parse env (g_option_scan env argv) None []
                (before_options argv cwd st)) as [r st1|x st1] eqn:E.
    2:{ rewrite (bind_Exit _ _ _ _ _ E) in H. discriminate H. }
    rewrite (bind_Return _ _ _ _ _ E) in H.
    apply after_options_returns in H. destruct H as (Hb & Hc & _). now split.
  - right. destruct (parse_args_no_cwd argv st Hcwd) as (st0 & E & Hf & _).
    rewrite E in H. injection H as <- <-.
    split; [reflexivity|]. split; [reflexivity|]. unfold flag. now rewrite Hf.
Qed.

(** C2, as the code has it: two command lines that differ only in
    --with-color and --no-with-color options end the same way (both exit
    with the same status, or both return the same result), with the same
    value of [cfg->color].  When the working directory can be read,
    [rm_cmd_parse_args] returns true or ends the process, and on return
    [cfg->color] is isatty (stdout) && isatty (stderr).  When it cannot be
    read, it returns false before any option is looked at, and
    [cfg->color] is what it was before the call. *)
Theorem C2_color_flag_has_no_effect (argv1 argv2 : list string) (st : State F) :
  without_color (g_option_scan env argv1) = without_color (g_option_scan env argv2) ->
  match rm_cmd_parse_args env argv1 st, rm_cmd_parse_args env argv2 st with
  | Return b1 s1, Return b2 s2 =>
      b1 = b2
      /\ flag (settings (session s1)) color = flag (settings (session s2)) color
      /\ (if b1
          then getcwd env <> None
               /\ flag (settings (session s1)) color
                  = (isatty_stdout env && isatty_stderr env)
          else getcwd env = None
               /\ flag (settings (session s1)) color
                  = flag (settings (session st)) color)
  | Exit x1 _, Exit x2 _ => x1 = x2 /\ getcwd env <> None
  | _, _ => False
  end.
Proof.
  intros Hsame.
  pose proof (parse_args_without_color argv1 argv2 st Hsame) as Hobs.
  destruct (rm_cmd_parse_args env argv1 st) as [b1 s1|x1 s1] eqn:E1,
           (rm_cmd_parse_args env argv2 st) as [b2 s2|x2 s2] eqn:E2;
    simpl in Hobs; try discriminate Hobs.
  - assert (Hb : b1 = b2).
    { apply (f_equal (fun o => match o with inl (b, _) => b | inr _ => true end)) in Hobs.
      exact Hobs. }
    subst b2. split; [reflexivity|].
    destruct (parse_args_returns _ _ _ _ E1) as [[Hb1 Hc1]|(Hb1 & Hcwd & Hc1)],
             (parse_args_returns _ _ _ _ E2) as [[Hb2 Hc2]|(Hb2 & _ & Hc2)];
      try congruence; subst b1.
    + split; [congruence|]. split; [|exact Hc1].
      intros Hcwd. destruct (parse_args_no_cwd argv1 st Hcwd) as (st0 & E & _).
      rewrite E in E1. discriminate E1.
    + split; [congruence|]. split; [exact Hcwd|exact Hc1].
  - split; [now injection Hobs|].
    intros Hcwd. destruct (parse_args_no_cwd argv1 st Hcwd) as (st0 & E & _).
    rewrite E in E1. discriminate E1.
Qed.

End ParseArgs.

(** ** Configuration errors *)

Section ConfigErrors.

Context {F : Type} {FO : FloatOps F}.

Variable env : Env F.



Lemma bind_ext {A B : Type} (m : M F A) (k1 k2 : A -> M F B) (st : State F) :
  (forall a s, k1 a s = k2 a s) -> bind m k1 st = bind m k2 st.
Proof. intros H. unfold bind. destruct (m st); [apply H|reflexivity]. Qed.

Lemma option_parser_app (l1 l2 : list Token) :
  forall error paths_ st,
    g_option_context_parse env (l1 ++ l2) error paths_ st
    = bind (g_option_context_parse env l1 error paths_)
        (fun r => g_option_context_parse env l2 (fst r) (snd r)) st.
Proof.
  induction l1 as [|tok rest IH]; intros error paths_ st; [reflexivity|].
  destruct tok as [n v|c v|a]; cbn [app g_option_context_parse].
  3:{ apply IH. }
  all: match goal with |- context [if ?b then _ else _] => destruct b end;
    [reflexivity|].
  all: rewrite bind_bind; apply bind_ext; intros r s1;
    destruct (fst r); [apply IH|reflexivity].
Qed.






End ConfigErrors.


Lemma C10_threads_and_depth_clamped_witness :
  exists st',
    rm_cmd_parse_args (Demo.env 3) ["rmlint"; "a"; "--threads=500"; "--max-depth=0"]
      (Demo.start []) = Return true st'
    /\ (1 <= threads (settings (session st')) <= 128
        /\ 1 <= depth (settings (session st')) <= PATH_MAX / 2 + 1).
Proof.
  eexists. split.
  - vm_compute. reflexivity.
  - refine (proj1 (C10_threads_and_depth_clamped (Demo.env 3)
                     ["rmlint"; "a"; "--threads=500"; "--max-depth=0"] (Demo.start [])
                     _ true _) eq_refl).
    vm_compute. reflexivity.
Defined.

(** C2 to the letter fails: when the working directory cannot be read,
    [rm_cmd_parse_args] returns before the colour setting is overridden,
    and [cfg->color] keeps its value: it is set in the fresh session, and
    there is no terminal. *)
Lemma C2_counterexample :
  ~ (forall (env : Env Q) (argv1 argv2 : list string) (st : State Q),
        without_color (g_option_scan env argv1) = without_color (g_option_scan env argv2) ->
        forall (b1 b2 : bool) (s1 s2 : State Q),
          rm_cmd_parse_args env argv1 st = Return b1 s1 ->
          rm_cmd_parse_args env argv2 st = Return b2 s2 ->
          flag (settings (session s1)) color = flag (settings (session s2)) color
          /\ flag (settings (session s1)) color
             = (isatty_stdout env && isatty_stderr env)).
Proof.
  intros H.
  destruct (H (Demo.env_without_cwd 3) ["rmlint"; "a"; "--with-color"] ["rmlint"; "a"]
              (Demo.start []) eq_refl false false _ _ eq_refl eq_refl) as [_ Hc].
  vm_compute in Hc. discriminate Hc.
Qed.

Lemma C2_color_flag_has_no_effect_witness :
  match rm_cmd_parse_args (Demo.env 3) ["rmlint"; "a"; "--with-color"] (Demo.start []),
        rm_cmd_parse_args (Demo.env 3) ["rmlint"; "-W"; "a"] (Demo.start []) with
  | Return b1 s1, Return b2 s2 =>
      b1 = true /\ b2 = true
      /\ flag (settings (session s1)) color = flag (settings (session s2)) color
      /\ flag (settings (session s1)) color
         = (isatty_stdout (Demo.env 3) && isatty_stderr (Demo.env 3))
  | _, _ => False
  end.
Proof.
  pose proof (C2_color_flag_has_no_effect (Demo.env 3)
                ["rmlint"; "a"; "--with-color"] ["rmlint"; "-W"; "a"] (Demo.start [])
                eq_refl) as H.
  destruct (rm_cmd_parse_args (Demo.env 3) ["rmlint"; "a"; "--with-color"] (Demo.start []))
    as [b1 s1|x1 s1] eqn:E1;
  destruct (rm_cmd_parse_args (Demo.env 3) ["rmlint"; "-W"; "a"] (Demo.start []))
    as [b2 s2|x2 s2] eqn:E2;
    try contradiction.
  - destruct H as (Hb & Hc & Hr). subst b2.
    destruct b1.
    + destruct Hr as [_ Hr]. repeat split; assumption.
    + destruct Hr as [Hr _]. discriminate Hr.
  - destruct H as [_ H]. vm_compute in E1. discriminate E1.
Defined.

Lemma C8_lint_separator_inferred_witness :
  lint_split "all,-ed,+bl" = lint_split "all:-ed:+bl"
  /\ (["all"; "-ed"; "+bl"] <> [EmptyString] -> lint_split "all,-ed,+bl" = ["all"; "-ed"; "+bl"])
  /\ forall (error : GError) (st : State Q),
       rm_cmd_parse_lint_types "all,-ed,+bl" error st
       = rm_cmd_parse_lint_types "all:-ed:+bl" error st.
Proof.
  apply (proj2 (proj2 (C8_lint_separator_inferred (F := Q)))
           ["all"; "-ed"; "+bl"] ","%char ":"%char).
  - split; [reflexivity|]. split.
    + intros x [<-|[<-|[<-|[]]]]; reflexivity.
    + vm_compute. reflexivity.
  - reflexivity.
  - reflexivity.
Defined.

Lemma C9_merge_directories_pulls_options_witness :
  exists st',
    rm_cmd_parse_lint_types "minimaldirs" None (Demo.start []) = Return (true, None) st'
    /\ cfg_flag st' merge_directories = true
    /\ cfg_flag st' ignore_hidden = false
    /\ cfg_flag st' find_hardlinked_dupes = true.
Proof.
  apply (proj2 (proj2 (C9_merge_directories_pulls_options (F := Q)))
           "minimaldirs" None (Demo.start [])).
  right. left. reflexivity.
Defined.

(** * Further properties of the callbacks and of the parser *)

(** ** Sizes and size ranges *)

Lemma g_strchug_all_space (s : string) :
  all_space s = true -> g_strchug s = EmptyString.
Proof.
  induction s as [|c r IH]; simpl; [reflexivity|].
  intros H. apply andb_true_iff in H. destruct H as [Hc Hr].
  rewrite Hc. exact (IH Hr).
Qed.

Lemma g_strsplit_from_first (a b : string) (d : ascii) :
  strchr a d = false ->
  g_strsplit_from (a ++ String d b) d 2 = (a, [b]).
Proof.
  induction a as [|c r IH]; simpl.
  - intros _. rewrite Ascii.eqb_refl. simpl.
    assert (H1 : forall s, g_strsplit_from s d 1 = (s, [])).
    { induction s as [|c r IHs]; simpl; [reflexivity|].
      rewrite andb_false_r. now rewrite IHs. }
    now rewrite H1.
  - intros H. apply orb_false_iff in H. destruct H as [Hc Hr].
    rewrite Hc. simpl. now rewrite (IH Hr).
Qed.

Lemma g_strsplit_first (a b : string) (d : ascii) :
  strchr a d = false ->
  g_strsplit (a ++ String d b) d 2 = [a; b].
Proof.
  intros H. unfold g_strsplit.
  destruct (a ++ String d b) eqn:E.
  - destruct a; discriminate E.
  - rewrite <- E. change (if 2 <? 1 then G_MAXINT else 2) with 2.
    now rewrite (g_strsplit_from_first a b d H).
Qed.

Section SizeEdges.

Context {F : Type} {FO : FloatOps F}.

Lemma size_string_error_zero (size_spec msg : string) :
  snd (rm_cmd_size_string_to_bytes size_spec) = Some msg ->
  fst (rm_cmd_size_string_to_bytes size_spec) = 0.
Proof.
  unfold rm_cmd_size_string_to_bytes, rm_cmd_size_format_error.
  destruct (strtold size_spec) as [decimal consumed].
  destruct (_ && _); [reflexivity|].
  destruct (fl_ltb _ _); [reflexivity|].
  destruct (drop consumed size_spec); [discriminate|].
  destruct (bsearch _ _ _ _); [discriminate|reflexivity].
Qed.

(** X1: whenever [rm_cmd_size_string_to_bytes] sets the error it returns
    0, and the message is one of three. *)
Theorem size_string_error_gives_zero (size_spec msg : string) :
  snd (rm_cmd_size_string_to_bytes size_spec) = Some msg ->
  fst (rm_cmd_size_string_to_bytes size_spec) = 0
  /\ (msg = "This does not look like a number"
      \/ msg = "Negativ sizes are no good idea"
      \/ msg = "Given format specifier not found").
Proof.
  unfold rm_cmd_size_string_to_bytes, rm_cmd_size_format_error.
  destruct (strtold size_spec) as [decimal consumed].
  destruct (_ && _).
  { simpl. intros H. injection H as <-. auto. }
  destruct (fl_ltb _ _).
  { simpl. intros H. injection H as <-. auto. }
  destruct (drop consumed size_spec); [discriminate|].
  destruct (bsearch _ _ _ _); [discriminate|].
  simpl. intros H. injection H as <-. auto.
Qed.

(** X2: a whole number from 0 to 2 ^ 53 with nothing after it is
    returned as it is, where floating point is exact on such integers; a
    number that is not negative, followed by white space only, is refused:
    the stripped suffix is empty, and the empty suffix is not in the
    table. *)
Theorem size_string_without_suffix {FE : FloatExact F} (size_spec : string) :
  let decimal := fst (strtold size_spec) in
  let rest := drop (snd (strtold size_spec)) size_spec in
  snd (strtold size_spec) <> O ->
  (forall n,
      rest = EmptyString -> decimal = fl_of_Z n -> 0 <= n <= EXACT_MAX ->
      rm_cmd_size_string_to_bytes size_spec = (n, None))
  /\ (fl_ltb decimal (fl_of_Z 0) = false ->
      rest <> EmptyString -> all_space rest = true ->
      rm_cmd_size_string_to_bytes size_spec
      = (0, Some "Given format specifier not found")).
Proof.
  cbv zeta. intros Hn.
  unfold rm_cmd_size_string_to_bytes.
  destruct (strtold size_spec) as [decimal consumed]; simpl fst in *; simpl snd in *.
  replace (Nat.eqb consumed O) with false by (symmetry; now apply Nat.eqb_neq).
  rewrite andb_false_r.
  split.
  - intros n -> -> Hr.
    rewrite fl_ltb_of_Z by (unfold EXACT_MAX in *; lia).
    replace (n <? 0) with false by (symmetry; apply Z.ltb_ge; lia).
    rewrite round_of_Z, fl_to_RmOff_of_Z by (unfold EXACT_MAX in *; lia).
    reflexivity.
  - intros Hneg Hne Hsp. rewrite Hneg.
    destruct (drop consumed size_spec) as [|c r] eqn:E; [contradiction|].
    unfold g_strstrip. rewrite (g_strchug_all_space _ Hsp).
    reflexivity.
Qed.

Context {FL : FloatLaws F}.

Lemma size_string_range (size_spec : string) :
  0 <= fst (rm_cmd_size_string_to_bytes size_spec) <= G_MAXULONG.
Proof.
  unfold rm_cmd_size_string_to_bytes, rm_cmd_size_format_error.
  destruct (strtold size_spec) as [decimal consumed].
  assert (H0 : 0 <= 0 <= G_MAXULONG) by (unfold G_MAXULONG; lia).
  assert (Hr : forall x, 0 <= fl_to_RmOff x <= G_MAXULONG) by apply fl_to_RmOff_range.
  destruct (_ && _); [exact H0|].
  destruct (fl_ltb _ _); [exact H0|].
  destruct (drop consumed size_spec); [apply Hr|].
  destruct (bsearch _ _ _ _); [apply Hr|exact H0].
Qed.

Lemma size_string_empty :
  rm_cmd_size_string_to_bytes EmptyString = (0, Some "This does not look like a number").
Proof.
  unfold rm_cmd_size_string_to_bytes.
  pose proof (strtold_consumed EmptyString) as Hc. simpl in Hc.
  assert (Hn : snd (strtold EmptyString) = O) by lia.
  pose proof (strtold_no_conversion EmptyString Hn) as Hz.
  destruct (strtold EmptyString) as [decimal consumed]; simpl in *.
  now rewrite Hz, Hn.
Qed.

(** X3: a size range that is not the empty string and is accepted is
    ordered, and both bounds fit an [RmOff]; one that is refused has its
    error set.  (For the empty string [g_strsplit] gives an empty vector,
    and the code reads its second element all the same.) *)
Theorem size_range_ok_is_ordered (range_spec : string) :
  range_spec <> EmptyString ->
  let r := rm_cmd_size_range_string_to_bytes range_spec in
  0 <= range_min r
  /\ range_max r <= G_MAXULONG
  /\ (range_ok r = true -> range_error r = None /\ range_min r <= range_max r)
  /\ (range_ok r = false -> range_error r <> None).
Proof.
  intros _. cbv zeta. unfold rm_cmd_size_range_string_to_bytes.
  assert (HG : 0 <= G_MAXULONG <= G_MAXULONG) by (unfold G_MAXULONG; lia).
  set (p1 := match nth_error (g_strsplit range_spec "-" 2) 0 with
             | Some s0 => rm_cmd_size_string_to_bytes s0
             | None => (0, None)
             end).
  assert (H1 : 0 <= fst p1 <= G_MAXULONG).
  { subst p1. destruct (nth_error _ 0); [apply size_string_range|simpl; lia]. }
  destruct p1 as [mn e0]. simpl in H1.
  set (p2 := match nth_error (g_strsplit range_spec "-" 2) 1 with
             | Some s1 => _
             | None => _
             end).
  assert (H2 : 0 <= fst p2 <= G_MAXULONG).
  { subst p2. destruct (nth_error _ 1); [destruct e0|]; simpl; try lia.
    apply size_string_range. }
  destruct p2 as [mx e1]. simpl in H2.
  destruct (mx <? mn) eqn:E; cbn [range_ok range_min range_max range_error is_some negb].
  - repeat split; try lia;
      first [intros H; discriminate H | intros _ H; discriminate H].
  - apply Z.ltb_ge in E.
    destruct e1; cbn [is_some negb]; repeat split; try lia;
      first [intros H; discriminate H | intros _ H; discriminate H].
Qed.

(** X4: "min-max" is split at the first '-'; with two valid sizes the
    range is accepted exactly when max is not below min. *)
Theorem size_range_two_values (a b : string) (x y : Z) :
  strchr a "-"%char = false ->
  rm_cmd_size_string_to_bytes a = (x, None) ->
  rm_cmd_size_string_to_bytes b = (y, None) ->
  rm_cmd_size_range_string_to_bytes (a ++ String "-"%char b) =
    {| range_ok := x <=? y; range_min := x; range_max := y;
       range_error := if y <? x then Some "Max is smaller than min" else None |}.
Proof.
  intros Ha Hx Hy. unfold rm_cmd_size_range_string_to_bytes.
  rewrite (g_strsplit_first a b _ Ha). cbn [nth_error].
  rewrite Hx, Hy.
  rewrite (Z.leb_antisym y x).
  destruct (y <? x); reflexivity.
Qed.

(** X5: a range with an empty side is refused, "min-" as well as
    "-max". *)
Theorem size_range_open_end_is_refused (a : string) :
  strchr a "-"%char = false ->
  range_ok (rm_cmd_size_range_string_to_bytes (a ++ "-")) = false
  /\ rm_cmd_size_range_string_to_bytes (String "-"%char a) =
       {| range_ok := false; range_min := 0; range_max := G_MAXULONG;
          range_error := Some "This does not look like a number" |}.
Proof.
  intros Ha. split.
  - unfold rm_cmd_size_range_string_to_bytes.
    rewrite (g_strsplit_first a EmptyString _ Ha). cbn [nth_error].
    destruct (rm_cmd_size_string_to_bytes a) as [mn [m|]].
    + destruct (G_MAXULONG <? mn); reflexivity.
    + rewrite size_string_empty. destruct (0 <? mn); reflexivity.
  - unfold rm_cmd_size_range_string_to_bytes.
    pose proof (g_strsplit_first EmptyString a "-"%char eq_refl) as Hs.
    cbn [append] in Hs. rewrite Hs. cbn [nth_error].
    rewrite size_string_empty. reflexivity.
Qed.

(** X6: when the first size of "min-max" is refused, the second one is
    not looked at and the error is that of the first; when only the second
    one is refused and min is not 0, its error is replaced by "Max is
    smaller than min". *)
Theorem size_range_errors (a b : string) :
  strchr a "-"%char = false ->
  (forall (x : Z) (msg : string),
      rm_cmd_size_string_to_bytes a = (x, Some msg) ->
      rm_cmd_size_range_string_to_bytes (a ++ String "-"%char b) =
        {| range_ok := false; range_min := 0; range_max := G_MAXULONG;
           range_error := Some msg |})
  /\ (forall (x y : Z) (msg : string),
      rm_cmd_size_string_to_bytes a = (x, None) ->
      0 < x ->
      rm_cmd_size_string_to_bytes b = (y, Some msg) ->
      rm_cmd_size_range_string_to_bytes (a ++ String "-"%char b) =
        {| range_ok := false; range_min := x; range_max := 0;
           range_error := Some "Max is smaller than min" |}).
Proof.
  intros Ha. split.
  - intros x msg Hx.
    pose proof (size_string_error_zero a msg) as Hz. rewrite Hx in Hz.
    specialize (Hz eq_refl). simpl in Hz. subst x.
    unfold rm_cmd_size_range_string_to_bytes.
    rewrite (g_strsplit_first a b _ Ha). cbn [nth_error].
    rewrite Hx. reflexivity.
  - intros x y msg Hx Hpos Hy.
    pose proof (size_string_error_zero b msg) as Hz. rewrite Hy in Hz.
    specialize (Hz eq_refl). simpl in Hz. subst y.
    unfold rm_cmd_size_range_string_to_bytes.
    rewrite (g_strsplit_first a b _ Ha). cbn [nth_error].
    rewrite Hx, Hy.
    replace (0 <? x) with true by (symmetry; apply Z.ltb_lt; exact Hpos).
    reflexivity.
Qed.

End SizeEdges.

Lemma size_string_error_gives_zero_witness :
  fst (rm_cmd_size_string_to_bytes (F := Q) "12 parsecs") = 0
  /\ ("Given format specifier not found" = "This does not look like a number"
      \/ "Given format specifier not found" = "Negativ sizes are no good idea"
      \/ "Given format specifier not found" = "Given format specifier not found").
Proof.
  apply (size_string_error_gives_zero (F := Q) "12 parsecs"). reflexivity.
Defined.

Lemma size_string_without_suffix_witness :
  rm_cmd_size_string_to_bytes (F := Q) "4096" = (4096, None)
  /\ rm_cmd_size_string_to_bytes (F := Q) "4096 "
     = (0, Some "Given format specifier not found").
Proof.
  split.
  - refine (proj1 (size_string_without_suffix (F := Q) "4096" _) 4096 _ _ _).
    + vm_compute. discriminate.
    + reflexivity.
    + reflexivity.
    + unfold EXACT_MAX. lia.
  - refine (proj2 (size_string_without_suffix (F := Q) "4096 " _) _ _ _).
    + vm_compute. discriminate.
    + reflexivity.
    + vm_compute. discriminate.
    + reflexivity.
Defined.

Lemma size_range_ok_is_ordered_witness :
  let r := rm_cmd_size_range_string_to_bytes (F := Q) "1k-1m" in
  0 <= range_min r
  /\ range_max r <= G_MAXULONG
  /\ (range_ok r = true -> range_error r = None /\ range_min r <= range_max r)
  /\ (range_ok r = false -> range_error r <> None).
Proof.
  apply (size_range_ok_is_ordered (F := Q) "1k-1m"). discriminate.
Defined.

Lemma size_range_two_values_witness :
  rm_cmd_size_range_string_to_bytes (F := Q) "1k-1m" =
    {| range_ok := true; range_min := 1000; range_max := 1000000;
       range_error := None |}.
Proof.
  exact (size_range_two_values (F := Q) "1k" "1m" 1000 1000000 eq_refl eq_refl eq_refl).
Defined.

Lemma size_range_open_end_is_refused_witness :
  range_ok (rm_cmd_size_range_string_to_bytes (F := Q) "10-") = false
  /\ rm_cmd_size_range_string_to_bytes (F := Q) "-10" =
       {| range_ok := false; range_min := 0; range_max := G_MAXULONG;
          range_error := Some "This does not look like a number" |}.
Proof.
  exact (size_range_open_end_is_refused (F := Q) "10" eq_refl).
Defined.

Lemma size_range_errors_witness :
  rm_cmd_size_range_string_to_bytes (F := Q) "10-abc" =
    {| range_ok := false; range_min := 10; range_max := 0;
       range_error := Some "Max is smaller than min" |}.
Proof.
  refine (proj2 (size_range_errors (F := Q) "10" "abc" eq_refl) 10 0
            "This does not look like a number" _ _ _).
  - reflexivity.
  - reflexivity.
  - reflexivity.
Defined.

(** ** Limits, roots, outputs and formatter configuration *)

Lemma strchr_split_app (name rest : string) (c : ascii) :
  strchr name c = false ->
  strchr_split (name ++ String c rest) c = Some (name, rest).
Proof.
  induction name as [|a r IH]; simpl.
  - intros _. now rewrite Ascii.eqb_refl.
  - intros H. apply orb_false_iff in H. destruct H as [Ha Hr].
    rewrite Ha. now rewrite (IH Hr).
Qed.

Lemma strchr_split_none (s : string) (c : ascii) :
  strchr s c = false -> strchr_split s c = None.
Proof.
  induction s as [|a r IH]; simpl; [reflexivity|].
  intros H. apply orb_false_iff in H. destruct H as [Ha Hr].
  rewrite Ha. now rewrite (IH Hr).
Qed.

Lemma substring_all (s : string) : substring 0 (String.length s) s = s.
Proof. induction s as [|a r IH]; simpl; [reflexivity|]. now rewrite IH. Qed.

Lemma size_range_ok_le {F : Type} {FO : FloatOps F} (range_spec : string) :
  range_ok (rm_cmd_size_range_string_to_bytes range_spec) = true ->
  range_min (rm_cmd_size_range_string_to_bytes range_spec)
  <= range_max (rm_cmd_size_range_string_to_bytes range_spec).
Proof.
  unfold rm_cmd_size_range_string_to_bytes.
  destruct (match nth_error (g_strsplit range_spec "-" 2) 0 with
            | Some s0 => rm_cmd_size_string_to_bytes s0
            | None => (0, None)
            end) as [mn e0].
  destruct (match nth_error (g_strsplit range_spec "-" 2) 1 with
            | Some s1 => _
            | None => _
            end) as [mx e1].
  destruct (mx <? mn) eqn:E; cbn [range_ok range_min range_max is_some negb].
  - intros H. discriminate H.
  - intros _. now apply Z.ltb_ge in E.
Qed.

Section CallbackResults.

Context {F : Type} {FO : FloatOps F}.

Variable env : Env F.

(** X7: for a range that is not the empty string,
    [rm_cmd_parse_limit_sizes] writes both limits into the settings
    whether or not the range is accepted; an accepted range sets
    [limits_specified] and has minsize <= maxsize, a refused one sets the
    error and leaves [limits_specified] alone. *)
Theorem limit_sizes_result (range_spec : string) (error : GError) (st : State F) :
  range_spec <> EmptyString ->
  let r := rm_cmd_size_range_string_to_bytes range_spec in
  exists st',
    rm_cmd_parse_limit_sizes range_spec error st
    = Return (range_ok r,
              if range_ok r then error
              else g_set_error error
                     ("cannot parse --limit: "
                      ++ match range_error r with Some m => m | None => "" end)) st'
    /\ minsize (settings (session st')) = range_min r
    /\ maxsize (settings (session st')) = range_max r
    /\ cfg_flag st' limits_specified = (range_ok r || cfg_flag st limits_specified)
    /\ (range_ok r = true ->
        minsize (settings (session st')) <= maxsize (settings (session st'))).
Proof.
  intros _. cbv zeta. unfold rm_cmd_parse_limit_sizes, update_settings, update_session.
  pose proof (size_range_ok_le range_spec) as Hle.
  destruct (range_ok (rm_cmd_size_range_string_to_bytes range_spec)) eqn:Hok;
    cbn [negb]; run; unfold ret; eexists; (split; [reflexivity|]).
  - split; [reflexivity|]. split; [reflexivity|].
    split; [reflexivity|]. intros _. now apply Hle.
  - split; [reflexivity|]. split; [reflexivity|].
    split; [reflexivity|]. intros H. discriminate H.
Qed.

Lemma set_paths_first_arg (a : string) (path_index : Z) (pf : bool) (st : State F) :
  filled st path_index ->
  exists n pf1 st1,
    (if strncmp_eq0 a "-" then
       bind (rm_cmd_read_paths_from_stdin env pf path_index)
         (fun read_paths => ret (read_paths, pf))
     else if strncmp_eq0 a "//" then ret (0, negb pf)
     else bind (rm_cmd_add_path env pf path_index (Some a))
            (fun added => ret (bool_to_int added, pf))) st
    = Return (n, pf1) st1
    /\ 0 <= n /\ filled st1 (path_index + n).
Proof.
  intros Hfill.
  destruct (strncmp_eq0 a "-").
  - assert (Hfill0 : filled (set_stdin [] st) (path_index + 0))
      by (rewrite Z.add_0_r; exact Hfill).
    destruct (read_paths_loop_step env (stdin st) pf path_index 0
                (set_stdin [] st) Hfill0)
      as (added & st1 & E & Hfill1 & Hle & _).
    exists added, pf, st1. split; [|split; [lia|exact Hfill1]].
    unfold rm_cmd_read_paths_from_stdin. run.
    rewrite (bind_Return _ _ _ _ _ E). reflexivity.
  - destruct (strncmp_eq0 a "//").
    + exists 0, (negb pf), st. split; [reflexivity|].
      split; [lia|]. now rewrite Z.add_0_r.
    + destruct (add_path_step env pf path_index (Some a) st Hfill)
        as (b & st1 & E & Hfill1 & _).
      exists (bool_to_int b), pf, st1.
      split; [rewrite (bind_Return _ _ _ _ _ E); reflexivity|].
      split; [destruct b; simpl; lia|exact Hfill1].
Qed.

Lemma set_paths_loop_filled (args : list string) :
  forall (path_index : Z) (pf na : bool) (st : State F),
    filled st path_index ->
    exists idx' pf' na' st',
      rm_cmd_set_paths_loop env args path_index pf na st = Return (idx', pf', na') st'
      /\ filled st' idx'
      /\ path_index <= idx'
      /\ (args <> [] -> path_index < idx' \/ na' = true)
      /\ (args = [] -> na' = na)
      /\ (na = true -> na' = true).
Proof.
  induction args as [|a rest IH]; intros path_index pf na st Hfill.
  - exists path_index, pf, na, st. simpl.
    split; [reflexivity|]. split; [exact Hfill|]. split; [lia|].
    split; [intros H; now contradiction H|]. split; [reflexivity|]. intros H; exact H.
  - cbn [rm_cmd_set_paths_loop].
    destruct (set_paths_first_arg a path_index pf st Hfill)
      as (n & pf1 & st1 & E & Hn & Hfill1).
    rewrite (bind_Return _ _ _ _ _ E). cbn [fst snd].
    destruct (n =? 0) eqn:Hz.
    + apply Z.eqb_eq in Hz. subst n. rewrite Z.add_0_r in Hfill1.
      destruct (IH path_index pf1 true st1 Hfill1)
        as (idx' & pf' & na' & st' & E' & Hfill' & Hle' & _ & _ & Hna).
      exists idx', pf', na', st'.
      split; [exact E'|]. split; [exact Hfill'|]. split; [exact Hle'|].
      split; [intros _; right; now apply Hna|].
      split; [discriminate|]. intros _. now apply Hna.
    + apply Z.eqb_neq in Hz.
      destruct (IH (path_index + n) pf1 na st1 Hfill1)
        as (idx' & pf' & na' & st' & E' & Hfill' & Hle' & _ & _ & Hna).
      exists idx', pf', na', st'.
      split; [exact E'|]. split; [exact Hfill'|]. split; [lia|].
      split; [intros _; left; lia|].
      split; [discriminate|exact Hna].
Qed.

Lemma set_paths_run (args : list string) (st : State F) :
  paths (settings (session st)) = [] ->
  is_prefd (settings (session st)) = [] ->
  exists b st' idx,
    rm_cmd_set_paths env args st = Return b st'
    /\ filled st' idx
    /\ (b = false <-> args <> [] /\ idx = 0).
Proof.
  intros Hp Hq.
  assert (Hfill : filled st 0) by (unfold filled; now rewrite Hp, Hq).
  unfold rm_cmd_set_paths.
  destruct (set_paths_loop_filled args 0 false false st Hfill)
    as (idx' & pf' & na' & st1 & E & Hfill1 & Hle & Hprog & Hnil & _).
  rewrite (bind_Return _ _ _ _ _ E). cbn [fst snd].
  destruct args as [|a rest].
  - specialize (Hnil eq_refl). subst na'.
    simpl in E. injection E as <- <- <-.
    change (0 =? 0) with true. cbn [negb andb].
    unfold settings_get. run.
    destruct (add_path_step env false 0 (Some (iwd (settings (session st)))) st Hfill)
      as (b & st2 & E2 & Hfill2 & _).
    rewrite (bind_Return _ _ _ _ _ E2).
    exists true, st2, (0 + bool_to_int b). split; [reflexivity|].
    split; [exact Hfill2|]. split; [discriminate|]. intros [H _]. now contradiction H.
  - destruct (Hprog ltac:(discriminate)) as [Hpos|Hna].
    + replace (idx' =? 0) with false by (symmetry; apply Z.eqb_neq; lia).
      cbn [andb]. exists true, st1, idx'. split; [reflexivity|].
      split; [exact Hfill1|]. split; [discriminate|]. intros [_ H]. lia.
    + subst na'. cbn [negb]. rewrite andb_false_r, andb_true_r.
      destruct (idx' =? 0) eqn:Hz.
      * apply Z.eqb_eq in Hz.
        exists false, st1, idx'. split; [reflexivity|]. split; [exact Hfill1|].
        split; [intros _; split; [discriminate|exact Hz]|reflexivity].
      * apply Z.eqb_neq in Hz.
        exists true, st1, idx'. split; [reflexivity|]. split; [exact Hfill1|].
        split; [discriminate|]. intros [_ H]. contradiction.
Qed.

(** X8: starting without roots, [rm_cmd_set_paths] leaves as many
    preferred flags as paths. *)
Theorem set_paths_keeps_arrays_aligned (args : list string) (st st' : State F) (b : bool) :
  paths (settings (session st)) = [] ->
  is_prefd (settings (session st)) = [] ->
  rm_cmd_set_paths env args st = Return b st' ->
  List.length (paths (settings (session st')))
  = List.length (is_prefd (settings (session st'))).
Proof.
  intros Hp Hq E.
  destruct (set_paths_run args st Hp Hq) as (b0 & st0 & idx & E0 & [_ Hlen] & _).
  rewrite E0 in E. injection E as <- <-. exact Hlen.
Qed.

(** X9: starting without roots, [rm_cmd_set_paths] fails exactly when
    arguments were given and none of them added a root; the working
    directory stands in only when no argument was given at all (a lone "//"
    fails). *)
Theorem set_paths_fails_without_roots (args : list string) (st : State F) :
  paths (settings (session st)) = [] ->
  is_prefd (settings (session st)) = [] ->
  exists b st',
    rm_cmd_set_paths env args st = Return b st'
    /\ (b = false <-> args <> [] /\ paths (settings (session st')) = []).
Proof.
  intros Hp Hq.
  destruct (set_paths_run args st Hp Hq) as (b & st' & idx & E & [Hidx Hlen] & Hb).
  exists b, st'. split; [exact E|].
  rewrite Hb. split; intros [Ha H0]; (split; [exact Ha|]).
  - rewrite Hidx in H0.
    destruct (paths (settings (session st'))); [reflexivity|discriminate H0].
  - rewrite H0 in Hidx. exact Hidx.
Qed.

Lemma fmt_add_result (name path : string) (st : State F) :
  exists st',
    rm_fmt_add env name path st = Return (rm_fmt_add_succeeds env name path) st'
    /\ formatters st'
       = (formatters st
          ++ if rm_fmt_add_succeeds env name path then [(name, path)] else [])%list
    /\ formatter_config st' = formatter_config st
    /\ settings (session st') = settings (session st)
    /\ output_cnt (session st') = output_cnt (session st)
    /\ log st' = log st.
Proof.
  unfold rm_fmt_add, update_session.
  destruct (rm_fmt_add_succeeds env name path); run; unfold ret; eexists;
    (split; [reflexivity|]); repeat split.
  unfold formatters. now rewrite app_nil_r.
Qed.

(** X10: an output "name:path" is split at its first colon, so the
    path may hold colons; without a colon the path is "stdout".  The name
    has to fit the buffer of 100 characters.  A formatter that cannot be
    added sets the error. *)
Theorem output_pair_is_split_at_first_colon (name path : string) (error : GError)
    (st : State F) :
  strchr name ":"%char = false ->
  (String.length name < 100)%nat ->
  (exists st',
      rm_cmd_parse_output_pair env (name ++ String ":"%char path) error st
      = Return (if rm_fmt_add_succeeds env name path then (true, error)
                else (false,
                      g_set_error error
                        ("Adding -o " ++ (name ++ String ":"%char path)
                         ++ " as output failed."))) st'
      /\ formatters st'
         = (formatters st
            ++ if rm_fmt_add_succeeds env name path then [(name, path)] else [])%list)
  /\ (exists st',
      rm_cmd_parse_output_pair env name error st
      = Return (if rm_fmt_add_succeeds env name "stdout" then (true, error)
                else (false,
                      g_set_error error ("Adding -o " ++ name ++ " as output failed."))) st'
      /\ formatters st'
         = (formatters st
            ++ if rm_fmt_add_succeeds env name "stdout"
               then [(name, "stdout")] else [])%list).
Proof.
  intros Hcolon Hlen. split.
  - unfold rm_cmd_parse_output_pair.
    rewrite (strchr_split_app name path _ Hcolon).
    replace (Nat.min 100 (String.length name)) with (String.length name) by lia.
    rewrite substring_all.
    destruct (fmt_add_result name path st) as (st' & E & Hf & _).
    rewrite (bind_Return _ _ _ _ _ E).
    exists st'. split; [|exact Hf].
    destruct (rm_fmt_add_succeeds env name path); reflexivity.
  - unfold rm_cmd_parse_output_pair.
    rewrite (strchr_split_none name _ Hcolon).
    destruct (fmt_add_result name "stdout" st) as (st' & E & Hf & _).
    rewrite (bind_Return _ _ _ _ _ E).
    exists st'. split; [|exact Hf].
    destruct (rm_fmt_add_succeeds env name "stdout"); reflexivity.
Qed.

Lemma output_pair_result (pair : string) (error : GError) (st : State F) :
  exists (ok : bool) (st' : State F),
    rm_cmd_parse_output_pair env pair error st
    = Return (ok, if ok then error
                  else g_set_error error ("Adding -o " ++ pair ++ " as output failed.")) st'
    /\ output_cnt (session st') = output_cnt (session st).
Proof.
  unfold rm_cmd_parse_output_pair.
  match goal with
  | |- context [let (_, _) := ?x in _] => destruct x as [format_name full_path]
  end.
  destruct (fmt_add_result format_name full_path st) as (st' & E & _ & _ & _ & Hc & _).
  rewrite (bind_Return _ _ _ _ _ E).
  exists (rm_fmt_add_succeeds env format_name full_path), st'.
  split; [|exact Hc].
  destruct (rm_fmt_add_succeeds env format_name full_path); reflexivity.
Qed.

Lemma small_output_result (pair : string) (error : GError) (st : State F) :
  exists e st',
    rm_cmd_parse_small_output env pair error st = Return (true, e) st'
    /\ 0 <= fst (output_cnt (session st'))
    /\ snd (output_cnt (session st')) = snd (output_cnt (session st))
    /\ (error <> None -> e <> None).
Proof.
  unfold rm_cmd_parse_small_output, update_session. run.
  match goal with
  | |- context [bind (rm_cmd_parse_output_pair env pair error) _ ?s] =>
      destruct (output_pair_result pair error s) as (ok & st1 & E & Hc)
  end.
  rewrite (bind_Return _ _ _ _ _ E). run. unfold ret.
  eexists. eexists. split; [reflexivity|].
  cbn [session set_session output_cnt set_output_cnt fst snd] in *.
  rewrite Hc. cbn [fst snd].
  split; [destruct ok; simpl; lia|]. split; [reflexivity|].
  destruct ok; [trivial|]. destruct error; [trivial|]. intros H. now contradiction H.
Qed.

Lemma large_output_result (pair : string) (error : GError) (st : State F) :
  exists e st',
    rm_cmd_parse_large_output env pair error st = Return (true, e) st'
    /\ 0 <= snd (output_cnt (session st'))
    /\ fst (output_cnt (session st')) = fst (output_cnt (session st))
    /\ (error <> None -> e <> None).
Proof.
  unfold rm_cmd_parse_large_output, update_session. run.
  match goal with
  | |- context [bind (rm_cmd_parse_output_pair env pair error) _ ?s] =>
      destruct (output_pair_result pair error s) as (ok & st1 & E & Hc)
  end.
  rewrite (bind_Return _ _ _ _ _ E). run. unfold ret.
  eexists. eexists. split; [reflexivity|].
  cbn [session set_session output_cnt set_output_cnt fst snd] in *.
  rewrite Hc. cbn [fst snd].
  split; [destruct ok; simpl; lia|]. split; [reflexivity|].
  destruct ok; [trivial|]. destruct error; [trivial|]. intros H. now contradiction H.
Qed.

Lemma set_outputs_both (error : GError) (st : State F) :
  0 <= fst (output_cnt (session st)) ->
  0 <= snd (output_cnt (session st)) ->
  rm_cmd_set_outputs env error st
  = Return (false, g_set_error error "Specifiyng both -o and -O is not allowed.") st.
Proof.
  intros H1 H2. unfold rm_cmd_set_outputs, session_get. run.
  replace (0 <=? fst (output_cnt (session st))) with true
    by (symmetry; now apply Z.leb_le).
  replace (0 <=? snd (output_cnt (session st))) with true
    by (symmetry; now apply Z.leb_le).
  reflexivity.
Qed.

(** X11: once -o and -O were both given, in either order, with
    formatter names that fit the buffer of 100 characters,
    [rm_cmd_set_outputs] fails with an error, whether or not the outputs
    could be added. *)
Theorem small_and_large_output_exclude_each_other (small large : string)
    (error : GError) (st : State F) :
  (String.length (output_name small) < 100)%nat ->
  (String.length (output_name large) < 100)%nat ->
  (exists msg st',
      bind (rm_cmd_parse_small_output env small error)
        (fun r1 => bind (rm_cmd_parse_large_output env large (snd r1))
                     (fun r2 => rm_cmd_set_outputs env (snd r2))) st
      = Return (false, Some msg) st')
  /\ (exists msg st',
      bind (rm_cmd_parse_large_output env large error)
        (fun r1 => bind (rm_cmd_parse_small_output env small (snd r1))
                     (fun r2 => rm_cmd_set_outputs env (snd r2))) st
      = Return (false, Some msg) st').
Proof.
  intros _ _. split.
  - destruct (small_output_result small error st) as (e1 & st1 & E1 & Hs1 & _).
    rewrite (bind_Return _ _ _ _ _ E1). cbn [snd].
    destruct (large_output_result large e1 st1) as (e2 & st2 & E2 & Hl2 & Hs2 & _).
    rewrite (bind_Return _ _ _ _ _ E2). cbn [snd].
    rewrite set_outputs_both by (try rewrite Hs2; assumption).
    destruct e2 as [m|]; eexists; eexists; reflexivity.
  - destruct (large_output_result large error st) as (e1 & st1 & E1 & Hl1 & _).
    rewrite (bind_Return _ _ _ _ _ E1). cbn [snd].
    destruct (small_output_result small e1 st1) as (e2 & st2 & E2 & Hs2 & Hl2 & _).
    rewrite (bind_Return _ _ _ _ _ E2). cbn [snd].
    rewrite set_outputs_both by (try rewrite Hl2; assumption).
    destruct e2 as [m|]; eexists; eexists; reflexivity.
Qed.

Lemma fmt_add_three {A : Type} (a b c : string * string) (v : A) (st : State F) :
  exists st',
    bind (rm_fmt_add env (fst a) (snd a))
      (fun _ => bind (rm_fmt_add env (fst b) (snd b))
         (fun _ => bind (rm_fmt_add env (fst c) (snd c)) (fun _ => ret v))) st
    = Return v st'
    /\ formatters st' = (formatters st ++ accepted env [a; b; c])%list.
Proof.
  destruct (fmt_add_result (fst a) (snd a) st) as (st1 & E1 & H1 & _).
  destruct (fmt_add_result (fst b) (snd b) st1) as (st2 & E2 & H2 & _).
  destruct (fmt_add_result (fst c) (snd c) st2) as (st3 & E3 & H3 & _).
  rewrite (bind_Return _ _ _ _ _ E1), (bind_Return _ _ _ _ _ E2),
    (bind_Return _ _ _ _ _ E3).
  exists st3. split; [reflexivity|].
  rewrite H3, H2, H1. unfold accepted. cbn [filter].
  destruct (rm_fmt_add_succeeds env (fst a) (snd a)),
    (rm_fmt_add_succeeds env (fst b) (snd b)),
    (rm_fmt_add_succeeds env (fst c) (snd c));
    destruct a, b, c; cbn [fst snd]; repeat rewrite <- app_assoc; reflexivity.
Qed.

(** X12: with at most one of -o and -O given [rm_cmd_set_outputs]
    succeeds; it adds the three default formatters only when neither was
    given and no formatter is registered: -O alone adds none. *)
Theorem set_outputs_defaults (error : GError) (st : State F) :
  fst (output_cnt (session st)) < 0 \/ snd (output_cnt (session st)) < 0 ->
  exists st',
    rm_cmd_set_outputs env error st = Return (true, error) st'
    /\ formatters st'
       = match formatters st with
         | [] =>
             if (fst (output_cnt (session st)) <? 0)
                && (snd (output_cnt (session st)) <? 0)
             then accepted env [("pretty", "stdout"); ("summary", "stdout");
                                ("sh", "rmlint.sh")]
             else []
         | _ => formatters st
         end.
Proof.
  intros Hneg. unfold rm_cmd_set_outputs, session_get. run.
  replace ((0 <=? fst (output_cnt (session st)))
           && (0 <=? snd (output_cnt (session st)))) with false
    by (symmetry; apply andb_false_iff; rewrite !Z.leb_gt; exact Hneg).
  unfold rm_fmt_len. fold (formatters st).
  destruct ((fst (output_cnt (session st)) <? 0)
            && (snd (output_cnt (session st)) <? 0)) eqn:Hboth.
  - destruct (formatters st) as [|h t] eqn:Hf.
    + cbn [List.length Z.of_nat Z.eqb andb].
      destruct (fmt_add_three ("pretty", "stdout") ("summary", "stdout")
                  ("sh", "rmlint.sh") (true, error) st) as (st' & E & H).
      exists st'. split; [exact E|]. now rewrite H, Hf.
    + replace (Z.of_nat (List.length (h :: t)) =? 0) with false
        by (symmetry; apply Z.eqb_neq; simpl; lia).
      cbn [andb]. exists st. split; [reflexivity|exact Hf].
  - cbn [andb]. exists st. split; [reflexivity|].
    destruct (formatters st); reflexivity.
Qed.

(** X13: [rm_cmd_parse_config] never fails and never touches the error
    or the settings: it logs one warning, or it appends one configuration
    value. *)
Theorem parse_config_never_fails (pair : string) (error : GError) (st : State F) :
  exists st',
    rm_cmd_parse_config pair error st = Return (true, error) st'
    /\ settings (session st') = settings (session st)
    /\ formatters st' = formatters st
    /\ ((formatter_config st' = formatter_config st
         /\ exists warning, log st' = (log st ++ [(LOG_WARNING, warning)])%list)
        \/ (log st' = log st
            /\ exists formatter key value,
                 formatter_config st'
                 = (formatter_config st ++ [(formatter, key, value)])%list)).
Proof.
  unfold rm_cmd_parse_config, rm_cmd_parse_config_pair.
  destruct (strchr_split pair ":") as [[formatter domain1]|].
  - destruct (g_strsplit domain1 "=" 2) as [|key rest].
    + unfold rm_log_warning_line, rm_log. run. unfold ret. eexists.
      split; [reflexivity|]. split; [reflexivity|]. split; [reflexivity|].
      left. split; [reflexivity|]. eexists. reflexivity.
    + unfold rm_fmt_set_config_value, update_session. run. unfold ret. eexists.
      split; [reflexivity|]. split; [reflexivity|]. split; [reflexivity|].
      right. split; [reflexivity|]. do 3 eexists. reflexivity.
  - unfold rm_log_warning_line, rm_log. run. unfold ret. eexists.
    split; [reflexivity|]. split; [reflexivity|]. split; [reflexivity|].
    left. split; [reflexivity|]. eexists. reflexivity.
Qed.

(** X14: "formatter:key=value" stores that value for that key of that
    formatter (the value may hold '=' and ':'), "formatter:key" stores
    "1", and "formatter:" stores nothing and warns. *)
Theorem config_pair_round_trip (formatter key value : string) (st : State F) :
  strchr formatter ":"%char = false ->
  strchr key "="%char = false ->
  (exists st',
      rm_cmd_parse_config_pair
        (formatter ++ String ":"%char (key ++ String "="%char value)) st
      = Return true st'
      /\ formatter_config st'
         = (formatter_config st ++ [(formatter, key, value)])%list)
  /\ (key <> EmptyString ->
      exists st',
        rm_cmd_parse_config_pair (formatter ++ String ":"%char key) st = Return true st'
        /\ formatter_config st'
           = (formatter_config st ++ [(formatter, key, "1")])%list)
  /\ (exists warning,
        rm_cmd_parse_config_pair (formatter ++ ":") st
        = Return false (set_log (log st ++ [(LOG_WARNING, warning)]) st)).
Proof.
  intros Hf Hk. split; [|split].
  - unfold rm_cmd_parse_config_pair.
    rewrite (strchr_split_app formatter _ _ Hf).
    rewrite (g_strsplit_first key value _ Hk).
    unfold rm_fmt_set_config_value, update_session. run. unfold ret.
    eexists. split; reflexivity.
  - intros Hne. unfold rm_cmd_parse_config_pair.
    rewrite (strchr_split_app formatter _ _ Hf).
    rewrite (g_strsplit_no_delim key _ 2 Hk Hne).
    unfold rm_fmt_set_config_value, update_session. run. unfold ret.
    eexists. split; reflexivity.
  - unfold rm_cmd_parse_config_pair.
    rewrite (strchr_split_app formatter EmptyString _ Hf).
    cbn [g_strsplit]. unfold rm_log_warning_line, rm_log. run. unfold ret.
    eexists. reflexivity.
Qed.

End CallbackResults.

(** ** Clamps, counters, algorithm and time stamps *)

Section CounterResults.

Context {F : Type} {FO : FloatOps F}.

Variable env : Env F.

(** X15: [rm_cmd_parse_clamp_factor] returns only factors that are
    neither below 0 nor above 1, the number read or its hundredth, and
    leaves the state alone; otherwise it ends the process with
    [EXIT_FAILURE]. *)
Theorem clamp_factor_is_in_range (spec : string) (st : State F) :
  match rm_cmd_parse_clamp_factor env spec st with
  | Return factor st' =>
      st' = st
      /\ fl_ltb factor (fl_of_Z 0) = false
      /\ fl_ltb (fl_of_Z 1) factor = false
      /\ (factor = fst (g_strtod spec)
          \/ factor = fl_div (fst (g_strtod spec)) (fl_of_Z 100))
  | Exit status _ => status = EXIT_FAILURE
  end.
Proof.
  unfold rm_cmd_parse_clamp_factor, rm_cmd_die, rm_log_error_line, rm_log,
    update_session, exit.
  destruct (g_strtod spec) as [factor consumed]. cbn [fst].
  destruct (drop consumed spec) as [|c rest].
  - run.
    destruct (fl_ltb factor (fl_of_Z 0)) eqn:H0; cbn [orb]; run;
      [reflexivity|].
    destruct (fl_ltb (fl_of_Z 1) factor) eqn:H1; run; [reflexivity|].
    unfold ret. repeat split; auto.
  - destruct (Ascii.eqb c percent); cbn [negb]; run; [|reflexivity].
    destruct (fl_ltb (fl_div factor (fl_of_Z 100)) (fl_of_Z 0)) eqn:H0;
      cbn [orb]; run; [reflexivity|].
    destruct (fl_ltb (fl_of_Z 1) (fl_div factor (fl_of_Z 100))) eqn:H1; run;
      [reflexivity|].
    unfold ret. repeat split; auto.
Qed.

Lemma clamp_factor_keeps_state (spec : string) (st st' : State F) (factor : F) :
  rm_cmd_parse_clamp_factor env spec st = Return factor st' -> st' = st.
Proof.
  unfold rm_cmd_parse_clamp_factor, rm_cmd_die, rm_log_error_line, rm_log,
    update_session, exit.
  destruct (g_strtod spec) as [f consumed].
  destruct (drop consumed spec) as [|c rest].
  - run. destruct (_ || _); run; [discriminate|].
    unfold ret. intros H. now injection H as _ <-.
  - destruct (Ascii.eqb c percent); cbn [negb]; run; [|discriminate].
    destruct (_ || _); run; [discriminate|].
    unfold ret. intros H. now injection H as _ <-.
Qed.

Lemma clamp_offset_keeps_state (spec : string) (st st' : State F) (offset : Z) :
  rm_cmd_parse_clamp_offset env spec st = Return offset st' ->
  st' = st /\ rm_cmd_size_string_to_bytes spec = (offset, None).
Proof.
  unfold rm_cmd_parse_clamp_offset, rm_cmd_die, rm_log_error_line, rm_log,
    update_session, exit.
  destruct (rm_cmd_size_string_to_bytes spec) as [v [msg|]].
  - run. discriminate.
  - unfold ret. intros H. injection H as <- <-. now split.
Qed.

(** X16: a clamp option writes only its own side: the absolute flag
    says whether the spec was an offset, a factor spec keeps the offset and
    an offset spec keeps the factor, and the other side and the log stay
    as they are. *)
Theorem clamp_option_sets_one_side (spec : string) (start_or_end : bool)
    (st st' : State F) :
  rm_cmd_parse_clamp_option env spec start_or_end st = Return tt st' ->
  let relative := strchr spec "."%char || g_str_has_suffix spec "%" in
  let cfg := settings (session st) in
  let cfg' := settings (session st') in
  log st' = log st
  /\ (if start_or_end then
        flag cfg' use_absolute_start_offset = negb relative
        /\ (if relative then skip_start_offset cfg' = skip_start_offset cfg
            else skip_start_factor cfg' = skip_start_factor cfg
                 /\ rm_cmd_size_string_to_bytes spec = (skip_start_offset cfg', None))
        /\ flag cfg' use_absolute_end_offset = flag cfg use_absolute_end_offset
        /\ skip_end_factor cfg' = skip_end_factor cfg
        /\ skip_end_offset cfg' = skip_end_offset cfg
      else
        flag cfg' use_absolute_end_offset = negb relative
        /\ (if relative then skip_end_offset cfg' = skip_end_offset cfg
            else skip_end_factor cfg' = skip_end_factor cfg
                 /\ rm_cmd_size_string_to_bytes spec = (skip_end_offset cfg', None))
        /\ flag cfg' use_absolute_start_offset = flag cfg use_absolute_start_offset
        /\ skip_start_factor cfg' = skip_start_factor cfg
        /\ skip_start_offset cfg' = skip_start_offset cfg).
Proof.
  cbv zeta. unfold rm_cmd_parse_clamp_option, update_settings, update_session.
  destruct (strchr spec "." || g_str_has_suffix spec "%").
  - destruct (rm_cmd_parse_clamp_factor env spec st) as [factor st1|x st1] eqn:E.
    2:{ rewrite (bind_Exit _ _ _ _ _ E). discriminate. }
    rewrite (bind_Return _ _ _ _ _ E).
    apply clamp_factor_keeps_state in E. subst st1.
    destruct start_or_end; unfold modify; intros H; injection H as <-;
      repeat split.
  - destruct (rm_cmd_parse_clamp_offset env spec st) as [offset st1|x st1] eqn:E.
    2:{ rewrite (bind_Exit _ _ _ _ _ E). discriminate. }
    rewrite (bind_Return _ _ _ _ _ E).
    apply clamp_offset_keeps_state in E. destruct E as [-> Hsize].
    destruct start_or_end; unfold modify; intros H; injection H as <-;
      repeat split; exact Hsize.
Qed.

(** X17: whatever the counter, the verbosity is one of the five log
    levels: the lowest for counters up to 0, the highest from 4 on. *)
Theorem verbosity_is_clamped (verbosity_counter : Z) (st : State F) :
  exists st',
    rm_cmd_set_verbosity_from_cnt verbosity_counter st = Return tt st'
    /\ In (verbosity (settings (session st'))) VERBOSITY_TO_LOG_LEVEL
    /\ (verbosity_counter <= 0 ->
        verbosity (settings (session st')) = G_LOG_LEVEL_CRITICAL)
    /\ (4 <= verbosity_counter ->
        verbosity (settings (session st')) = G_LOG_LEVEL_DEBUG).
Proof.
  unfold rm_cmd_set_verbosity_from_cnt, update_settings, update_session, modify.
  eexists. split; [reflexivity|].
  cbn [session set_session settings set_settings verbosity set_verbosity].
  change (Z.of_nat (List.length VERBOSITY_TO_LOG_LEVEL) - 1) with 4.
  unfold CLAMP.
  destruct (4 <? verbosity_counter) eqn:Hhi.
  - apply Z.ltb_lt in Hhi.
    split; [simpl; tauto|]. split; [lia|reflexivity].
  - apply Z.ltb_ge in Hhi.
    destruct (verbosity_counter <? 0) eqn:Hlo.
    + apply Z.ltb_lt in Hlo. split; [simpl; tauto|]. split; [reflexivity|lia].
    + apply Z.ltb_ge in Hlo.
      assert (Hc : verbosity_counter = 0 \/ verbosity_counter = 1
                   \/ verbosity_counter = 2 \/ verbosity_counter = 3
                   \/ verbosity_counter = 4) by lia.
      destruct Hc as [->|[->|[->|[->| ->]]]];
        (split; [simpl; tauto|]); (split; [try reflexivity; lia|try reflexivity; lia]).
Qed.

(** X18: --loud followed by --quiet leaves the counter and the log
    level where they were. *)
Theorem loud_then_quiet_restores_verbosity (error : GError) (st : State F) :
  verbosity_count (session st) < G_MAXINT ->
  exists st',
    bind (rm_cmd_parse_loud error) (fun r => rm_cmd_parse_quiet (snd r)) st
    = Return (true, error) st'
    /\ verbosity_count (session st') = verbosity_count (session st)
    /\ verbosity (settings (session st'))
       = nth (Z.to_nat (CLAMP (verbosity_count (session st)) 0 4))
           VERBOSITY_TO_LOG_LEVEL 0
    /\ flags (settings (session st')) = flags (settings (session st)).
Proof.
  intros _.
  unfold rm_cmd_parse_loud, rm_cmd_parse_quiet, rm_cmd_set_verbosity_from_cnt,
    session_get, update_settings, update_session.
  run. unfold ret. eexists. split; [reflexivity|].
  cbn [session set_session settings set_settings verbosity set_verbosity
       verbosity_count set_verbosity_count flags].
  replace (verbosity_count (session st) + 1 - 1) with (verbosity_count (session st))
    by lia.
  repeat split.
Qed.

(** X19: from a paranoia counter of 0, --paranoid followed by
    --less-paranoid returns the counter to 0 but not the digest: counter 0
    leaves the checksum type alone, so the type of the step before stays. *)
Theorem paranoid_then_less_keeps_digest (error : GError) (st : State F) :
  paranoia_count (session st) = 0 ->
  (exists st',
      bind (rm_cmd_parse_paranoid env error)
        (fun r => rm_cmd_parse_less_paranoid env (snd r)) st
      = Return (true, error) st'
      /\ paranoia_count (session st') = 0
      /\ checksum_type (settings (session st')) = RM_DIGEST_BASTARD)
  /\ (exists st',
      bind (rm_cmd_parse_less_paranoid env error)
        (fun r => rm_cmd_parse_paranoid env (snd r)) st
      = Return (true, error) st'
      /\ paranoia_count (session st') = 0
      /\ checksum_type (settings (session st')) = RM_DIGEST_SPOOKY64).
Proof.
  intros H0.
  unfold rm_cmd_parse_paranoid, rm_cmd_parse_less_paranoid,
    rm_cmd_set_paranoia_from_cnt, session_get, update_settings, update_session.
  split;
    repeat (progress
              (run;
               cbn [session set_session settings set_settings paranoia_count
                    set_paranoia_count];
               rewrite ?H0;
               cbn [Z.add Z.sub Z.opp Z.eqb Z.pos_sub Pos.eqb]));
    unfold ret; eexists; (split; [reflexivity|]); split; reflexivity.
Qed.

(** X20: [rm_cmd_parse_algorithm] always returns true and stores what
    [rm_string_to_digest_type] answers, the unknown type included (the
    error is set then); the hash seeds change for the bastard digest
    only. *)
Theorem algorithm_is_stored_even_if_unknown (value : string) (error : GError)
    (st : State F) :
  let checksum := rm_string_to_digest_type env value in
  exists st',
    rm_cmd_parse_algorithm env value error st
    = Return (true,
              if is_digest checksum RM_DIGEST_UNKNOWN
              then g_set_error error ("Unknown hash algorithm: '" ++ value ++ "'")
              else error) st'
    /\ checksum_type (settings (session st')) = checksum
    /\ (is_digest checksum RM_DIGEST_BASTARD = false ->
        hash_seed1 (session st') = hash_seed1 (session st)
        /\ hash_seed2 (session st') = hash_seed2 (session st)).
Proof.
  cbv zeta. unfold rm_cmd_parse_algorithm, update_settings, update_session. run.
  destruct (is_digest (rm_string_to_digest_type env value) RM_DIGEST_UNKNOWN) eqn:Hu.
  - unfold ret. eexists. split; [reflexivity|]. split; [reflexivity|].
    intros _. split; reflexivity.
  - destruct (is_digest (rm_string_to_digest_type env value) RM_DIGEST_BASTARD) eqn:Hb;
      run; unfold ret; eexists; (split; [reflexivity|]); (split; [reflexivity|]).
    + discriminate.
    + intros _. split; reflexivity.
Qed.

Lemma parse_timestamp_run (spec : string) (error : GError) (st : State F) :
  let t := time_of_spec env spec in
  exists st',
    rm_cmd_parse_timestamp env spec error st
    = Return (0 <? t,
              if 0 <? t then error
              else g_set_error error
                     ("Unable to parse time spec " ++ dquote ++ spec ++ dquote)) st'
    /\ cfg_flag st' filter_mtime = (0 <? t)
    /\ min_mtime (settings (session st'))
       = (if 0 <? t then t else min_mtime (settings (session st)))
    /\ formatters st' = formatters st
    /\ formatter_config st' = formatter_config st.
Proof.
  cbv zeta. unfold rm_cmd_parse_timestamp, time_of_spec, update_settings,
    update_session, rm_log_debug, rm_log_warning_line, rm_log.
  destruct (rm_cmd_timestamp_is_plain spec); run.
  - set (t := strtoll env spec).
    destruct (t <=? 0) eqn:Hle.
    + apply Z.leb_le in Hle.
      replace (0 <? t) with false by (symmetry; apply Z.ltb_ge; exact Hle).
      unfold ret. eexists. split; [reflexivity|]. repeat split.
    + apply Z.leb_gt in Hle.
      replace (0 <? t) with true by (symmetry; apply Z.ltb_lt; exact Hle).
      run. destruct (time env <? t); run; unfold ret; eexists;
        (split; [reflexivity|]); repeat split.
  - set (t := rm_iso8601_parse env spec).
    destruct (t <=? 0) eqn:Hle.
    + apply Z.leb_le in Hle.
      replace (0 <? t) with false by (symmetry; apply Z.ltb_ge; exact Hle).
      unfold ret. eexists. split; [reflexivity|]. repeat split.
    + apply Z.leb_gt in Hle.
      replace (0 <? t) with true by (symmetry; apply Z.ltb_lt; exact Hle).
      run. destruct (time env <? t); run; unfold ret; eexists;
        (split; [reflexivity|]); repeat split.
Qed.

(** X21: a time spec is accepted exactly when it reads as a time after
    0 (one in the future included); [filter_mtime] says whether it was, and
    [min_mtime] changes only then. *)
Theorem timestamp_result (spec : string) (error : GError) (st : State F) :
  let t := time_of_spec env spec in
  exists st',
    rm_cmd_parse_timestamp env spec error st
    = Return (0 <? t,
              if 0 <? t then error
              else g_set_error error
                     ("Unable to parse time spec " ++ dquote ++ spec ++ dquote)) st'
    /\ cfg_flag st' filter_mtime = (0 <? t)
    /\ min_mtime (settings (session st'))
       = (if 0 <? t then t else min_mtime (settings (session st))).
Proof.
  cbv zeta.
  destruct (parse_timestamp_run spec error st) as (st' & E & Hf & Hm & _).
  exists st'. split; [exact E|]. split; [exact Hf|exact Hm].
Qed.

(** X22: a stamp file that cannot be opened or read fails without
    setting the error and registers nothing; one whose first line is a valid
    time registers the "stamp" formatter for the file, configured for
    ISO 8601 when the line holds a 'T'. *)
Theorem timestamp_file_result (timestamp_path : string) (error : GError)
    (st : State F) :
  (fopen_fgets env timestamp_path = None
   \/ fopen_fgets env timestamp_path = Some None ->
   exists st',
     rm_cmd_parse_timestamp_file env timestamp_path error st = Return (false, error) st'
     /\ cfg_flag st' filter_mtime = false
     /\ min_mtime (settings (session st')) = min_mtime (settings (session st))
     /\ formatters st' = formatters st)
  /\ (forall stamp_buf : string,
      fopen_fgets env timestamp_path = Some (Some stamp_buf) ->
      0 < time_of_spec env (g_strstrip stamp_buf) ->
      exists st',
        rm_cmd_parse_timestamp_file env timestamp_path error st
        = Return (true, error) st'
        /\ cfg_flag st' filter_mtime = true
        /\ min_mtime (settings (session st')) = time_of_spec env (g_strstrip stamp_buf)
        /\ formatters st'
           = (formatters st ++ accepted env [("stamp", timestamp_path)])%list
        /\ formatter_config st'
           = (formatter_config st
              ++ if rm_cmd_timestamp_is_plain (g_strstrip stamp_buf) then []
                 else [("stamp", "iso8601", "true")])%list).
Proof.
  split.
  - intros Hfile.
    unfold rm_cmd_parse_timestamp_file, update_settings, update_session.
    destruct Hfile as [-> | ->]; run; unfold ret; eexists;
      (split; [reflexivity|]); repeat split.
  - intros stamp_buf Hfile Hpos.
    unfold rm_cmd_parse_timestamp_file, update_settings, update_session.
    rewrite Hfile. run.
    match goal with
    | |- context [bind (rm_cmd_parse_timestamp env _ error) _ ?s] =>
        destruct (parse_timestamp_run (g_strstrip stamp_buf) error s)
          as (st1 & E & Hf & Hm & Hfmt & Hcfg)
    end.
    rewrite (bind_Return _ _ _ _ _ E). run.
    replace (0 <? time_of_spec env (g_strstrip stamp_buf)) with true in *
      by (symmetry; apply Z.ltb_lt; exact Hpos).
    cbn [negb].
    destruct (fmt_add_result env "stamp" timestamp_path st1)
      as (st2 & E2 & Hfmt2 & Hcfg2 & Hset2 & _).
    rewrite (bind_Return _ _ _ _ _ E2).
    assert (Hacc : accepted env [("stamp", timestamp_path)]
                   = if rm_fmt_add_succeeds env "stamp" timestamp_path
                     then [("stamp", timestamp_path)] else [])
      by reflexivity.
    destruct (rm_cmd_timestamp_is_plain (g_strstrip stamp_buf)); cbn [negb];
      unfold rm_fmt_set_config_value, update_session; run; unfold ret;
      eexists; (split; [reflexivity|]);
      unfold cfg_flag, formatters, formatter_config in *;
      cbn [session set_session settings set_settings formats set_formats
           fmt_handlers fmt_config];
      rewrite Hset2, Hfmt2, Hcfg2, Hfmt, Hcfg, Hacc, ?app_nil_r;
      repeat split; assumption.
Qed.

End CounterResults.

(** ** Groups of lint types *)

Section LintGroups.

Context {F : Type} {FO : FloatOps F}.

Lemma flag_store_all (fields : list RmBoolField) (v : bool) (f : RmBoolField) :
  forall cfg : RmSettings F,
    flag (store_all fields v cfg) f
    = if existsb (fun g => is_field g f) fields then v else flag cfg f.
Proof.
  unfold store_all.
  induction fields as [|g rest IH]; intros cfg; simpl; [reflexivity|].
  rewrite IH, flag_set_flag.
  destruct (existsb (fun g0 => is_field g0 f) rest).
  - now rewrite orb_true_r.
  - rewrite orb_false_r. reflexivity.
Qed.

Lemma all_alpha_strchr (w : string) (c : ascii) :
  all_alpha w = true -> isalpha c = false -> strchr w c = false.
Proof.
  induction w as [|a r IH]; simpl; [reflexivity|].
  intros H Hc. apply andb_true_iff in H. destruct H as [Ha Hr].
  rewrite (IH Hr Hc), orb_false_r.
  destruct (Ascii.eqb a c) eqn:E; [|reflexivity].
  apply Ascii.eqb_eq in E. subst c. congruence.
Qed.

Lemma all_alpha_sep_free (w : string) : all_alpha w = true -> sep_free w = true.
Proof.
  intros H. unfold sep_free.
  now rewrite !(all_alpha_strchr w _ H) by reflexivity.
Qed.

Lemma lint_split_single (sign w : string) :
  sign = "" \/ sign = "+" \/ sign = "-" ->
  all_alpha w = true -> w <> EmptyString ->
  lint_split (sign ++ w) = [sign ++ w].
Proof.
  intros Hs Hw Hne.
  apply all_alpha_nonempty_split.
  - destruct Hs as [->|[->| ->]]; simpl; try exact Hw.
    destruct w as [|c r]; [reflexivity|].
    simpl in Hw. apply andb_true_iff in Hw. destruct Hw as [Hc Hr].
    unfold is_signed_word.
    replace (is_sign c) with false;
      [cbn [all_alpha]; rewrite Hc, Hr; reflexivity|].
    unfold is_sign. symmetry. apply orb_false_iff. split.
    + destruct (Ascii.eqb c "+") eqn:E; [|reflexivity].
      apply Ascii.eqb_eq in E. subst c. discriminate Hc.
    + destruct (Ascii.eqb c "-") eqn:E; [|reflexivity].
      apply Ascii.eqb_eq in E. subst c. discriminate Hc.
  - destruct Hs as [->|[->| ->]]; simpl; [exact Hne|discriminate|discriminate].
  - destruct Hs as [->|[->| ->]]; simpl; [now apply all_alpha_sep_free| |];
      pose proof (all_alpha_sep_free w Hw) as H; unfold sep_free in *; simpl;
      exact H.
Qed.

Lemma alpha_is_no_sign (c : ascii) :
  isalpha c = true -> Ascii.eqb c "+" = false /\ Ascii.eqb c "-" = false.
Proof.
  intros Hc. split.
  - destruct (Ascii.eqb c "+") eqn:E; [|reflexivity].
    apply Ascii.eqb_eq in E. subst c. discriminate Hc.
  - destruct (Ascii.eqb c "-") eqn:E; [|reflexivity].
    apply Ascii.eqb_eq in E. subst c. discriminate Hc.
Qed.

(** The end of [rm_cmd_parse_lint_types] leaves the lint types alone. *)
Lemma lint_types_end (error : GError) (st : State F) :
  exists st',
    bind (settings_get (fun cfg => flag cfg merge_directories))
      (fun merge =>
         bind (if merge then
                 update_settings (fun cfg =>
                   set_flag find_hardlinked_dupes true (set_flag ignore_hidden false cfg))
               else ret tt)
           (fun _ => ret (true, error))) st
    = Return (true, error) st'
    /\ forall f, In f lint_flags -> cfg_flag st' f = cfg_flag st f.
Proof.
  unfold settings_get, update_settings, update_session. run.
  destruct (flag (settings (session st)) merge_directories); run; unfold ret;
    eexists; (split; [reflexivity|]); intros f Hf; [|reflexivity].
  unfold cfg_flag. cbn [session set_session settings set_settings].
  rewrite !flag_set_flag.
  simpl in Hf. decompose [or] Hf; subst; try contradiction; reflexivity.
Qed.

(** X23: a lint type name alone selects exactly the types of its
    group; with '+' it adds them, with '-' it removes them. *)
Theorem lint_type_sign_semantics (w : string) (o : RmLintTypeOption)
    (error : GError) (st : State F) :
  all_alpha w = true ->
  w <> EmptyString ->
  lint_group w = Some o ->
  (exists st',
      rm_cmd_parse_lint_types w error st = Return (true, error) st'
      /\ forall f, In f lint_flags -> cfg_flag st' f = in_group o f)
  /\ (exists st',
      rm_cmd_parse_lint_types ("+" ++ w) error st = Return (true, error) st'
      /\ forall f, In f lint_flags -> cfg_flag st' f = in_group o f || cfg_flag st f)
  /\ (exists st',
      rm_cmd_parse_lint_types ("-" ++ w) error st = Return (true, error) st'
      /\ forall f, In f lint_flags ->
                   cfg_flag st' f = negb (in_group o f) && cfg_flag st f).
Proof.
  intros Hw Hne Ho. unfold lint_group in Ho.
  split; [|split].
  - unfold rm_cmd_parse_lint_types.
    pose proof (lint_split_single "" w (or_introl eq_refl) Hw Hne) as Hs.
    cbn [append] in Hs. rewrite Hs. clear Hs.
    cbn [rm_cmd_parse_lint_types_loop].
    destruct w as [|c r]; [now contradiction Hne|].
    cbn [all_alpha] in Hw. apply andb_true_iff in Hw. destruct Hw as [Hc Hr].
    destruct (alpha_is_no_sign c Hc) as [Hp Hm].
    cbn [deref]. rewrite Hp, Hm.
    cbn [Z.ltb Z.compare Z.eqb andb Z.abs Z.to_nat drop].
    rewrite Ho. unfold update_settings, update_session. run.
    match goal with
    | |- context [bind _ _ ?s] => destruct (lint_types_end error s) as (st' & E & Hk)
    end.
    exists st'. split; [exact E|].
    intros f Hf. rewrite (Hk f Hf).
    unfold cfg_flag. cbn [session set_session settings set_settings].
    rewrite !flag_store_all. unfold in_group.
    destruct (existsb (fun g => is_field g f) (enable o)); [reflexivity|].
    simpl in Hf. decompose [or] Hf; subst; try contradiction; reflexivity.
  - unfold rm_cmd_parse_lint_types.
    rewrite (lint_split_single "+" w (or_intror (or_introl eq_refl)) Hw Hne).
    cbn [append rm_cmd_parse_lint_types_loop deref Ascii.eqb Bool.eqb].
    cbn [Z.ltb Z.compare Z.eqb andb Z.abs Z.to_nat].
    change (Pos.to_nat 1) with 1%nat. cbn [drop].
    rewrite Ho. unfold update_settings, update_session. run.
    match goal with
    | |- context [bind _ _ ?s] => destruct (lint_types_end error s) as (st' & E & Hk)
    end.
    exists st'. split; [exact E|].
    intros f Hf. rewrite (Hk f Hf).
    unfold cfg_flag. cbn [session set_session settings set_settings].
    rewrite !flag_store_all. unfold in_group.
    destruct (existsb (fun g => is_field g f) (enable o)); reflexivity.
  - unfold rm_cmd_parse_lint_types.
    rewrite (lint_split_single "-" w (or_intror (or_intror eq_refl)) Hw Hne).
    cbn [append rm_cmd_parse_lint_types_loop deref Ascii.eqb Bool.eqb].
    cbn [Z.ltb Z.compare Z.eqb andb Z.abs Z.to_nat].
    change (Pos.to_nat 1) with 1%nat. cbn [drop].
    rewrite Ho. unfold update_settings, update_session. run.
    match goal with
    | |- context [bind _ _ ?s] => destruct (lint_types_end error s) as (st' & E & Hk)
    end.
    exists st'. split; [exact E|].
    intros f Hf. rewrite (Hk f Hf).
    unfold cfg_flag. cbn [session set_session settings set_settings].
    rewrite !flag_store_all. unfold in_group.
    destruct (existsb (fun g => is_field g f) (enable o)); reflexivity.
Qed.

Lemma store_all_same_but_flags (fields : list RmBoolField) (v : bool) (fl : RmFlags) :
  forall cfg : RmSettings F, set_flags fl (store_all fields v cfg) = set_flags fl cfg.
Proof.
  unfold store_all.
  induction fields as [|g rest IH]; intros cfg; simpl; [reflexivity|].
  now rewrite IH.
Qed.

Lemma group_in_lint_flags (o : RmLintTypeOption) (f : RmBoolField) :
  In o option_table -> in_group o f = true -> In f lint_flags.
Proof.
  intros Ho Hf. unfold in_group in Hf.
  apply existsb_exists in Hf. destruct Hf as (g & Hg & E).
  apply is_field_eq in E. subst g.
  simpl in Ho. decompose [or] Ho; subst; try contradiction;
    simpl in Hg; decompose [or] Hg; subst; try contradiction; simpl; tauto.
Qed.

Lemma lint_frame_store (st0 st : State F) (o : RmLintTypeOption) (v : bool) :
  In o option_table ->
  lint_frame st0 st ->
  lint_frame st0
    (set_session
       (set_settings (store_all (enable o) v (settings (session st))) (session st)) st).
Proof.
  intros Ho (H1 & H2 & H3 & H4 & H5).
  unfold lint_frame, same_but_flags, same_but_settings in *.
  cbn [session set_session settings set_settings stdin notified].
  split; [now rewrite store_all_same_but_flags|].
  split; [exact H2|]. split; [exact H3|]. split; [exact H4|].
  intros f Hf. rewrite <- (H5 f Hf).
  unfold cfg_flag. cbn [session set_session settings set_settings].
  rewrite flag_store_all.
  destruct (existsb (fun g => is_field g f) (enable o)) eqn:E; [|reflexivity].
  exfalso. apply Hf. right. right. exact (group_in_lint_flags o f Ho E).
Qed.

Lemma lint_frame_log (st0 st : State F) (l : list (LogLevel * string)) :
  lint_frame st0 st -> lint_frame st0 (set_log l st).
Proof. intros H. exact H. Qed.

Lemma lint_loop_frame (st0 : State F) (lint_types : list string) :
  forall index,
    preserves (lint_frame st0) (rm_cmd_parse_lint_types_loop lint_types index).
Proof.
  assert (Hall : In (all_opts) option_table) by (left; reflexivity).
  induction lint_types as [|x rest IH]; intros index.
  - apply preserves_ret.
  - cbn [rm_cmd_parse_lint_types_loop].
    apply preserves_bind; [|intros _; apply IH].
    destruct ((0 <? index) && _).
    + unfold rm_log_warning, rm_log.
      apply preserves_bind; [|intros _]; apply preserves_modify;
        intros st H; exact H.
    + destruct (find _ option_table) as [o|] eqn:Hfind.
      * apply find_some in Hfind. destruct Hfind as [Ho _].
        unfold update_settings, update_session.
        apply preserves_bind; [|intros _].
        -- destruct (_ =? 0); [|apply preserves_ret].
           apply preserves_modify. intros st H.
           now apply (lint_frame_store st0 st all_opts false Hall).
        -- apply preserves_modify. intros st H.
           now apply lint_frame_store.
      * unfold rm_log_warning, rm_log. apply preserves_modify.
        intros st H; exact H.
Qed.

(** X24: parsing lint types changes nothing but the seven lint type
    settings, [ignore_hidden], [find_hardlinked_dupes] and the log. *)
Theorem lint_types_touch_only_lint_flags (lint_string : string) (error : GError)
    (st st' : State F) (r : bool * GError) :
  rm_cmd_parse_lint_types lint_string error st = Return r st' ->
  lint_frame st st'.
Proof.
  intros E.
  assert (H0 : lint_frame st st).
  { unfold lint_frame, same_but_flags, same_but_settings. repeat split. }
  refine ((_ : preserves (lint_frame st) (rm_cmd_parse_lint_types lint_string error))
            st r st' H0 E).
  clear E H0 r st'. generalize st at 1 as st0. intros st0.
  unfold rm_cmd_parse_lint_types.
  apply preserves_bind; [apply lint_loop_frame|intros _].
  unfold settings_get. apply preserves_bind; [apply preserves_gets|intros merge].
  apply preserves_bind; [|intros _; apply preserves_ret].
  destruct merge; [|apply preserves_ret].
  unfold update_settings, update_session. apply preserves_modify.
  intros s (H1 & H2 & H3 & H4 & H5).
  unfold lint_frame, same_but_flags, same_but_settings in *.
  cbn [session set_session settings set_settings stdin notified].
  split; [exact H1|]. split; [exact H2|]. split; [exact H3|]. split; [exact H4|].
  intros f Hf. rewrite <- (H5 f Hf).
  unfold cfg_flag. cbn [session set_session settings set_settings].
  rewrite !flag_set_flag.
  destruct (is_field find_hardlinked_dupes f) eqn:E1.
  { apply is_field_eq in E1. subst f. exfalso. apply Hf. right. left. reflexivity. }
  destruct (is_field ignore_hidden f) eqn:E2; [|reflexivity].
  apply is_field_eq in E2. subst f. exfalso. apply Hf. left. reflexivity.
Qed.

End LintGroups.

(** ** The option table, and what the parser leaves alone *)

(** X25: no two entries of the option table share a long or a short
    name, and none is shadowed by a help option: every entry is the one its
    names find. *)
Theorem every_option_is_reachable (e : GOptionEntry) (value : option string) :
  In e option_entries ->
  long_name e <> G_OPTION_REMAINING ->
  find_entry (LongOpt (long_name e) value) = Some e
  /\ (short_name e <> zero -> find_entry (ShortOpt (short_name e) value) = Some e)
  /\ is_help_option (LongOpt (long_name e) value) = false
  /\ is_help_option (ShortOpt (short_name e) value) = false.
Proof.
  intros He Hrem. simpl in He.
  repeat (destruct He as [<-|He];
          [first [ exfalso; now apply Hrem
                 | repeat split; try reflexivity;
                   first [ destruct value; reflexivity
                         | intros H; exfalso; now apply H ] ]|]).
  contradiction.
Qed.

Section ParserFrames.

Context {F : Type} {FO : FloatOps F}.

Variable env : Env F.

(** X26: a help option (--help, --help-all, -h, -?), --version and
    --show-man end the process with status 0 once the options before them
    were read, whatever follows them on the command line. *)
Theorem help_and_version_end_with_status_0 (pre post : list Token) (tok : Token)
    (error : GError) (paths_ : list string) (st st1 : State F)
    (r : GError * list string) :
  g_option_context_parse env pre error paths_ st = Return r st1 ->
  is_help_option tok = true
  \/ In tok [LongOpt "version" None; LongOpt "show-man" None; ShortOpt "H" None] ->
  exists st',
    g_option_context_parse env (pre ++ tok :: post) error paths_ st = Exit 0 st'.
Proof.
  intros Hpre Htok.
  rewrite option_parser_app, (bind_Return _ _ _ _ _ Hpre).
  destruct Htok as [Hhelp|Hin].
  - destruct tok as [name v|name v|a]; [| |discriminate Hhelp];
      cbn [g_option_context_parse]; rewrite Hhelp; eexists; reflexivity.
  - simpl in Hin. destruct Hin as [<-|[<-|[<-|[]]]].
    + eexists. reflexivity.
    + cbn [g_option_context_parse].
      change (is_help_option (LongOpt "show-man" None)) with false. cbv iota.
      change (find_entry (LongOpt "show-man" None))
        with (Some (Build_GOptionEntry "show-man" "H" EMPTY G_OPTION_ARG_CALLBACK
                      (FUNC show_help))).
      cbv iota. unfold parse_arg. cbn [arg arg_data token_value].
      change (has_flag _ G_OPTION_FLAG_NO_ARG) with true. cbv iota.
      cbn [run_callback]. unfold rm_cmd_show_help, rm_log_warning_line, rm_log, exit.
      destruct (system env _ || system env _); run; eexists; reflexivity.
    + cbn [g_option_context_parse].
      change (is_help_option (ShortOpt "H" None)) with false. cbv iota.
      change (find_entry (ShortOpt "H" None))
        with (Some (Build_GOptionEntry "show-man" "H" EMPTY G_OPTION_ARG_CALLBACK
                      (FUNC show_help))).
      cbv iota. unfold parse_arg. cbn [arg arg_data token_value].
      change (has_flag _ G_OPTION_FLAG_NO_ARG) with true. cbv iota.
      cbn [run_callback]. unfold rm_cmd_show_help, rm_log_warning_line, rm_log, exit.
      destruct (system env _ || system env _); run; eexists; reflexivity.
Qed.

Ltac keeps_step :=
  first
    [ apply preserves_ret
    | apply preserves_gets
    | apply preserves_bind; [|intros ?]
    | match goal with
      | |- preserves _ (if ?b then _ else _) => destruct b
      | |- preserves _ (match ?x with _ => _ end) => destruct x
      end
    | progress unfold update_settings, update_session, settings_get, session_get,
        rm_log_warning_line, rm_log, rm_fmt_add ].

Lemma paths_frame_refl (st : State F) : paths_frame st st.
Proof. unfold paths_frame, same_but_settings. repeat split. Qed.

Lemma add_path_frame (st0 : State F) (preferred : bool) (index : Z)
    (path : option string) :
  preserves (paths_frame st0) (rm_cmd_add_path env preferred index path).
Proof.
  unfold rm_cmd_add_path. repeat keeps_step;
    apply preserves_modify; intros st H; exact H.
Qed.

Lemma read_paths_loop_frame (st0 : State F) (chunks : list string)
    (preferred : bool) (index : Z) :
  forall paths_added,
    preserves (paths_frame st0)
      (rm_cmd_read_paths_loop env chunks preferred index paths_added).
Proof.
  induction chunks as [|c rest IH]; intros paths_added; simpl.
  - apply preserves_ret.
  - apply preserves_bind; [apply add_path_frame|intros b; apply IH].
Qed.

Lemma set_paths_loop_frame (st0 : State F) (args : list string) :
  forall path_index preferred not_all,
    preserves (paths_frame st0)
      (rm_cmd_set_paths_loop env args path_index preferred not_all).
Proof.
  induction args as [|a rest IH]; intros path_index preferred not_all;
    cbn [rm_cmd_set_paths_loop].
  - apply preserves_ret.
  - apply preserves_bind.
    + destruct (strncmp_eq0 a "-"); [|destruct (strncmp_eq0 a "//")].
      * apply preserves_bind; [|intros ?; apply preserves_ret].
        unfold rm_cmd_read_paths_from_stdin.
        apply preserves_bind; [apply preserves_gets|intros chunks].
        apply preserves_bind; [apply preserves_modify; intros ? H; exact H|intros _].
        apply read_paths_loop_frame.
      * apply preserves_ret.
      * apply preserves_bind; [apply add_path_frame|intros ?; apply preserves_ret].
    + intros r. destruct (fst r =? 0); apply IH.
Qed.

Lemma set_paths_frame (st0 : State F) (args : list string) :
  preserves (paths_frame st0) (rm_cmd_set_paths env args).
Proof.
  unfold rm_cmd_set_paths.
  apply preserves_bind; [apply set_paths_loop_frame|intros r].
  destruct ((fst (fst r) =? 0) && negb (snd r)).
  - unfold settings_get. apply preserves_bind; [apply preserves_gets|intros cwd].
    apply preserves_bind; [apply add_path_frame|intros ?; apply preserves_ret].
  - destruct ((fst (fst r) =? 0) && snd r); apply preserves_ret.
Qed.

(** What the frame says of the members of the settings. *)
Lemma paths_frame_settings (st st' : State F) :
  paths_frame st st' ->
  flags (settings (session st')) = flags (settings (session st))
  /\ threads (settings (session st')) = threads (settings (session st))
  /\ depth (settings (session st')) = depth (settings (session st))
  /\ skip_start_factor (settings (session st')) = skip_start_factor (settings (session st))
  /\ skip_end_factor (settings (session st')) = skip_end_factor (settings (session st))
  /\ iwd (settings (session st')) = iwd (settings (session st))
  /\ joined_argv (settings (session st')) = joined_argv (settings (session st))
  /\ formats (session st') = formats (session st)
  /\ output_cnt (session st') = output_cnt (session st).
Proof.
  intros (H1 & H2 & _).
  unfold same_but_settings in H2.
  set (c' := settings (session st')) in *. set (c := settings (session st)) in *.
  set (s' := session st') in *. set (s := session st) in *.
  repeat split.
  - change (flags (set_paths [] (set_is_prefd [] c'))
            = flags (set_paths [] (set_is_prefd [] c))). now rewrite H1.
  - change (threads (set_paths [] (set_is_prefd [] c'))
            = threads (set_paths [] (set_is_prefd [] c))). now rewrite H1.
  - change (depth (set_paths [] (set_is_prefd [] c'))
            = depth (set_paths [] (set_is_prefd [] c))). now rewrite H1.
  - change (skip_start_factor (set_paths [] (set_is_prefd [] c'))
            = skip_start_factor (set_paths [] (set_is_prefd [] c))). now rewrite H1.
  - change (skip_end_factor (set_paths [] (set_is_prefd [] c'))
            = skip_end_factor (set_paths [] (set_is_prefd [] c))). now rewrite H1.
  - change (iwd (set_paths [] (set_is_prefd [] c'))
            = iwd (set_paths [] (set_is_prefd [] c))). now rewrite H1.
  - change (joined_argv (set_paths [] (set_is_prefd [] c'))
            = joined_argv (set_paths [] (set_is_prefd [] c))). now rewrite H1.
  - change (formats (set_settings c s') = formats (set_settings c s)). now rewrite H2.
  - change (output_cnt (set_settings c s') = output_cnt (set_settings c s)).
    now rewrite H2.
Qed.

(** X27: [rm_cmd_set_paths] leaves the options, the working directory,
    the command line, the formatters and the output counters as they
    are. *)
Theorem set_paths_changes_only_the_roots (args : list string) (st st' : State F)
    (b : bool) :
  rm_cmd_set_paths env args st = Return b st' ->
  flags (settings (session st')) = flags (settings (session st))
  /\ threads (settings (session st')) = threads (settings (session st))
  /\ depth (settings (session st')) = depth (settings (session st))
  /\ skip_start_factor (settings (session st')) = skip_start_factor (settings (session st))
  /\ skip_end_factor (settings (session st')) = skip_end_factor (settings (session st))
  /\ iwd (settings (session st')) = iwd (settings (session st))
  /\ joined_argv (settings (session st')) = joined_argv (settings (session st))
  /\ formats (session st') = formats (session st)
  /\ output_cnt (session st') = output_cnt (session st).
Proof.
  intros E. apply paths_frame_settings.
  exact (set_paths_frame st args st b st' (paths_frame_refl st) E).
Qed.

Lemma outputs_frame_refl (st : State F) : outputs_frame st st.
Proof. unfold outputs_frame. repeat split. Qed.

Lemma set_outputs_frame (st0 : State F) (error : GError) :
  preserves (outputs_frame st0) (rm_cmd_set_outputs env error).
Proof.
  unfold rm_cmd_set_outputs. repeat keeps_step;
    apply preserves_modify; intros st H; exact H.
Qed.

Lemma outputs_frame_settings (st st' : State F) :
  outputs_frame st st' -> settings (session st') = settings (session st).
Proof.
  intros (H1 & _).
  change (settings (set_formats (formats (session st)) (session st'))
          = settings (set_formats (formats (session st)) (session st))).
  now rewrite H1.
Qed.

(** X28: when [rm_cmd_parse_args] returns true, the two keep-all
    settings are not both set and the clamp factors are in order. *)
Theorem parse_args_accepts_only_consistent_options (argv : list string)
    (st st' : State F) :
  rm_cmd_parse_args env argv st = Return true st' ->
  cfg_flag st' keep_all_tagged && cfg_flag st' keep_all_untagged = false
  /\ fl_leb (skip_end_factor (settings (session st')))
       (skip_start_factor (settings (session st'))) = false.
Proof.
  intros H.
  destruct (getcwd env) as [cwd|] eqn:Hcwd.
  2:{ destruct (parse_args_no_cwd env argv st Hcwd) as (st0 & E & _).
      rewrite E in H. discriminate H. }
  rewrite (parse_args_unfold env argv cwd st Hcwd) in H.
  destruct (g_option_context_parse env (g_option_scan env argv) None []
              (before_options argv cwd st)) as [r st1|x st1] eqn:E.
  2:{ rewrite (bind_Exit _ _ _ _ _ E) in H. discriminate H. }
  rewrite (bind_Return _ _ _ _ _ E) in H.
  unfold after_options in H.
  set (st2 := fix_options env st1) in *. clearbody st2.
  unfold check_options, settings_get in H. run_in H.
  destruct (flag (settings (session st2)) keep_all_tagged
            && flag (settings (session st2)) keep_all_untagged) eqn:Hkeep.
  { run_in H. now apply on_error_never_returns in H. }
  destruct (fl_leb (skip_end_factor (settings (session st2)))
              (skip_start_factor (settings (session st2)))) eqn:Hclamp.
  { run_in H. now apply on_error_never_returns in H. }
  run_in H.
  destruct (rm_cmd_set_paths env (snd r) st2) as [ok st3|x st3] eqn:Ep.
  2:{ rewrite (bind_Exit _ _ _ _ _ Ep) in H. discriminate H. }
  rewrite (bind_Return _ _ _ _ _ Ep) in H.
  pose proof (paths_frame_settings _ _
                (set_paths_frame st2 (snd r) st2 ok st3 (paths_frame_refl st2) Ep))
    as (Hfl & _ & _ & Hs & He & _).
  destruct ok; cbn [negb] in H.
  2:{ run_in H. now apply on_error_never_returns in H. }
  run_in H.
  destruct (rm_cmd_set_outputs env (fst r) st3) as [o st4|x st4] eqn:Eo.
  2:{ rewrite (bind_Exit _ _ _ _ _ Eo) in H. discriminate H. }
  rewrite (bind_Return _ _ _ _ _ Eo) in H.
  pose proof (outputs_frame_settings _ _
                (set_outputs_frame st3 (fst r) st3 o st4 (outputs_frame_refl st3) Eo))
    as Hset.
  run_in H.
  destruct (snd o).
  { now apply on_error_never_returns in H. }
  injection H as <-.
  unfold cfg_flag, flag in *. rewrite Hset, Hfl, Hs, He. now split.
Qed.

End ParserFrames.

(** ** Errors that stay set *)

Section PendingErrors.

Context {F : Type} {FO : FloatOps F}.

Variable env : Env F.

Lemma results_ret {A : Type} (Q : A -> Prop) (a : A) : Q a -> results (F := F) Q (ret a).
Proof. intros H st b st' E. injection E as <- _. exact H. Qed.

Lemma results_exit {A : Type} (Q : A -> Prop) (status : Z) :
  results (F := F) Q (exit status).
Proof. intros st b st' E. discriminate E. Qed.

Lemma results_bind {A B : Type} (Q1 : A -> Prop) (Q : B -> Prop) (m : M F A)
    (k : A -> M F B) :
  results Q1 m -> (forall a, Q1 a -> results Q (k a)) -> results Q (bind m k).
Proof.
  intros Hm Hk st b st' E. unfold bind in E.
  destruct (m st) as [a st1|x st1] eqn:Em; [|discriminate E].
  exact (Hk a (Hm _ _ _ Em) st1 b st' E).
Qed.

Lemma results_bind_any {A B : Type} (Q : B -> Prop) (m : M F A) (k : A -> M F B) :
  (forall a, results Q (k a)) -> results Q (bind m k).
Proof.
  intros Hk. apply (results_bind (fun _ => True)); [intros ? ? ? _; exact I|].
  intros a _. apply Hk.
Qed.

Lemma g_set_error_set (error : GError) (msg : string) : g_set_error error msg <> None.
Proof. destruct error; discriminate. Qed.

Ltac results_step :=
  first
    [ apply results_exit
    | apply results_ret;
      first [ assumption | apply g_set_error_set | exact I
            | unfold error_set; cbn [snd];
              first [assumption | apply g_set_error_set] ]
    | apply results_bind_any; intros ?
    | match goal with
      | |- results _ (if ?b then _ else _) => destruct b
      | |- results _ (match ?x with _ => _ end) => destruct x
      | |- results _ (let (_, _) := ?x in _) => destruct x
      end ].

Lemma output_pair_error (pair : string) (error : GError) :
  error <> None -> results error_set (rm_cmd_parse_output_pair env pair error).
Proof.
  intros He. unfold rm_cmd_parse_output_pair. repeat results_step.
Qed.

Lemma paranoia_error (counter : Z) (error : GError) :
  error <> None ->
  results (fun e => e <> None) (rm_cmd_set_paranoia_from_cnt env counter error).
Proof.
  intros He. unfold rm_cmd_set_paranoia_from_cnt. repeat results_step.
Qed.

Lemma timestamp_error (spec : string) (error : GError) :
  error <> None -> results error_set (rm_cmd_parse_timestamp env spec error).
Proof.
  intros He. unfold rm_cmd_parse_timestamp. repeat results_step.
Qed.

Lemma callback_error (name : RmCallback) (value : string) (error : GError) :
  error <> None -> results error_set (run_callback env name value error).
Proof.
  intros He. destruct name; cbn [run_callback].
  - unfold rm_cmd_parse_lint_types. repeat results_step.
  - unfold rm_cmd_parse_limit_sizes. repeat results_step.
  - unfold rm_cmd_parse_algorithm. repeat results_step.
  - unfold rm_cmd_parse_small_output.
    apply results_bind_any; intros ?.
    apply (results_bind error_set); [now apply output_pair_error|].
    intros r Hr. repeat results_step.
  - unfold rm_cmd_parse_large_output.
    apply results_bind_any; intros ?.
    apply (results_bind error_set); [now apply output_pair_error|].
    intros r Hr. repeat results_step.
  - unfold rm_cmd_parse_paranoid_mem. repeat results_step.
  - unfold rm_cmd_parse_timestamp_file.
    apply results_bind_any; intros ?.
    apply (results_bind (fun r => snd (snd r) <> None)).
    + destruct (fopen_fgets env value) as [[buf|]|].
      * apply (results_bind error_set); [now apply timestamp_error|].
        intros r Hr. apply results_ret. exact Hr.
      * apply results_ret. exact He.
      * apply results_ret. exact He.
    + intros r Hr. repeat results_step.
  - now apply timestamp_error.
  - unfold rm_cmd_parse_clamp_low. repeat results_step.
  - unfold rm_cmd_parse_clamp_top. repeat results_step.
  - unfold rm_cmd_parse_config. repeat results_step.
  - unfold rm_cmd_parse_cache. repeat results_step.
  - unfold rm_cmd_parse_progress. repeat results_step.
  - unfold rm_cmd_parse_no_progress. repeat results_step.
  - unfold rm_cmd_parse_loud. repeat results_step.
  - unfold rm_cmd_parse_quiet. repeat results_step.
  - unfold rm_cmd_parse_paranoid.
    apply results_bind_any; intros ?. apply results_bind_any; intros ?.
    apply (results_bind (fun e => e <> None)); [now apply paranoia_error|].
    intros e Hr. repeat results_step.
  - unfold rm_cmd_parse_less_paranoid.
    apply results_bind_any; intros ?. apply results_bind_any; intros ?.
    apply (results_bind (fun e => e <> None)); [now apply paranoia_error|].
    intros e Hr. repeat results_step.
  - unfold rm_cmd_parse_merge_directories. repeat results_step.
  - unfold rm_cmd_show_help. repeat results_step.
  - unfold rm_cmd_show_version. repeat results_step.
Qed.

Lemma parse_arg_error (entry : GOptionEntry) (value : option string) (error : GError) :
  error <> None -> results error_set (parse_arg env entry value error).
Proof.
  intros He. unfold parse_arg.
  destruct (arg entry), (arg_data entry), value; try solve [repeat results_step].
  all: destruct (has_flag entry G_OPTION_FLAG_NO_ARG); try solve [repeat results_step].
  all: apply (results_bind error_set); [now apply callback_error|];
    intros r Hr; destruct (fst r); apply results_ret;
    [exact Hr|apply g_set_error_set].
Qed.

Lemma option_parser_keeps_error (tokens : list Token) :
  forall (error : GError) (paths_ : list string),
    error <> None ->
    results (fun r => fst r <> None) (g_option_context_parse env tokens error paths_).
Proof.
  induction tokens as [|tok rest IH]; intros error paths_ He.
  - apply results_ret. exact He.
  - assert (Hopt :
      results (fun r => fst r <> None)
        (if is_help_option tok then exit 0
         else bind (match find_entry tok with
                    | Some entry => parse_arg env entry (token_value tok) error
                    | None => ret (false, g_set_error error "Unknown option")
                    end)
                (fun r => if fst r then g_option_context_parse env rest (snd r) paths_
                          else rm_cmd_on_error env
                                 (match snd r with Some m => m | None => "" end)))).
    { destruct (is_help_option tok); [apply results_exit|].
      apply (results_bind error_set).
      - destruct (find_entry tok); [now apply parse_arg_error|].
        apply results_ret. apply g_set_error_set.
      - intros r Hr. destruct (fst r); [now apply IH|].
        intros st a st' E. discriminate E. }
    destruct tok as [name v|name v|a]; cbn [g_option_context_parse];
      [exact Hopt|exact Hopt|now apply IH].
Qed.

Lemma set_paths_returns (args : list string) : returns (rm_cmd_set_paths env args).
Proof.
  intros st. unfold rm_cmd_set_paths.
  destruct (set_paths_loop_result env args 0 false false st)
    as (idx & pf & na & st1 & E & _).
  rewrite (bind_Return _ _ _ _ _ E). cbn [fst snd].
  destruct ((idx =? 0) && negb na).
  - unfold settings_get. run.
    destruct (add_path_result env pf idx (Some (iwd (settings (session st1)))) st1)
      as (b & st2 & E2 & _).
    rewrite (bind_Return _ _ _ _ _ E2). eexists. eexists. reflexivity.
  - destruct ((idx =? 0) && na); eexists; eexists; reflexivity.
Qed.

Lemma set_outputs_returns (error : GError) : returns (rm_cmd_set_outputs env error).
Proof. unfold rm_cmd_set_outputs, rm_fmt_add. returns_tac. Qed.

Lemma set_outputs_error (error : GError) :
  error <> None -> results error_set (rm_cmd_set_outputs env error).
Proof. intros He. unfold rm_cmd_set_outputs. repeat results_step. Qed.

Lemma check_options_with_error (r : GError * list string) (st2 : State F) :
  fst r <> None ->
  exists st', check_options env r st2 = Exit EXIT_FAILURE st'.
Proof.
  intros He. unfold check_options, settings_get. run.
  destruct (_ && _).
  { run. apply on_error_exits. }
  destruct (fl_leb _ _).
  { run. apply on_error_exits. }
  run.
  destruct (set_paths_returns (snd r) st2) as (ok & st3 & Ep).
  rewrite (bind_Return _ _ _ _ _ Ep).
  destruct ok; cbn [negb]; run; [|apply on_error_exits].
  destruct (set_outputs_returns (fst r) st3) as (o & st4 & Eo).
  rewrite (bind_Return _ _ _ _ _ Eo). run.
  pose proof (set_outputs_error (fst r) He _ _ _ Eo) as Ho.
  unfold error_set in Ho.
  destruct (snd o); [apply on_error_exits|now contradiction Ho].
Qed.

(** X29: an error that an option leaves behind, also one whose callback
    returned true (an unknown algorithm, a paranoia level out of range, an
    output that cannot be added), stays set: [rm_cmd_parse_args] ends the
    process. *)
Theorem error_left_by_an_option_is_fatal (argv : list string) (st st1 : State F)
    (cwd : string) (pre post : list Token) (r : GError * list string) :
  getcwd env = Some cwd ->
  g_option_scan env argv = (pre ++ post)%list ->
  g_option_context_parse env pre None [] (before_options argv cwd st) = Return r st1 ->
  fst r <> None ->
  exists status st', rm_cmd_parse_args env argv st = Exit status st'.
Proof.
  intros Hcwd Hscan Hpre He.
  rewrite (parse_args_unfold env argv cwd st Hcwd), Hscan.
  unfold bind at 1. rewrite option_parser_app, (bind_Return _ _ _ _ _ Hpre).
  destruct (g_option_context_parse env post (fst r) (snd r) st1)
    as [r2 st2|x st2] eqn:Epost.
  - pose proof (option_parser_keeps_error post (fst r) (snd r) He _ _ _ Epost) as He2.
    unfold after_options.
    destruct (check_options_with_error r2 (fix_options env st2) He2) as (st' & E).
    exists EXIT_FAILURE, st'. exact E.
  - exists x, st2. reflexivity.
Qed.

End PendingErrors.

(** ** Exit statuses *)

Section ExitStatuses.

Context {F : Type} {FO : FloatOps F}.

Variable env : Env F.

Lemma exits_ret {A : Type} (S : Z -> Prop) (a : A) : exits (F := F) S (ret a).
Proof. intros st x st' E. discriminate E. Qed.

Lemma exits_gets {A : Type} (S : Z -> Prop) (f : State F -> A) : exits S (gets f).
Proof. intros st x st' E. discriminate E. Qed.

Lemma exits_modify (S : Z -> Prop) (f : State F -> State F) : exits S (modify f).
Proof. intros st x st' E. discriminate E. Qed.

Lemma exits_exit {A : Type} (S : Z -> Prop) (status : Z) :
  S status -> exits (F := F) (A := A) S (exit status).
Proof. intros H st x st' E. injection E as <- _. exact H. Qed.

Lemma exits_bind {A B : Type} (S : Z -> Prop) (m : M F A) (k : A -> M F B) :
  exits S m -> (forall a, exits S (k a)) -> exits S (bind m k).
Proof.
  intros Hm Hk st x st' E. unfold bind in E.
  destruct (m st) as [a st1|y st1] eqn:Em.
  - exact (Hk a st1 x st' E).
  - injection E as <- _. exact (Hm _ _ _ Em).
Qed.

Ltac exits_step :=
  first
    [ apply exits_ret
    | apply exits_gets
    | apply exits_modify
    | apply exits_exit; first [left; reflexivity | right; reflexivity]
    | apply exits_bind; [|intros ?]
    | match goal with
      | |- exits _ (if ?b then _ else _) => destruct b
      | |- exits _ (match ?x with _ => _ end) => destruct x
      | |- exits _ (let (_, _) := ?x in _) => destruct x
      end
    | progress unfold update_settings, update_session, settings_get, session_get,
        get_session, rm_log_warning, rm_log_warning_line, rm_log_debug,
        rm_log_error_line, rm_log, rm_fmt_add, rm_fmt_clear, rm_fmt_set_config_value,
        rm_cmd_die, rm_cmd_on_error ].

Lemma lint_loop_exits (lint_types : list string) :
  forall index,
    exits (F := F) parser_status (rm_cmd_parse_lint_types_loop lint_types index).
Proof.
  induction lint_types as [|x rest IH]; intros index; cbn [rm_cmd_parse_lint_types_loop].
  - apply exits_ret.
  - apply exits_bind; [|intros _; apply IH]. repeat exits_step.
Qed.

Lemma callback_exits (name : RmCallback) (value : string) (error : GError) :
  exits parser_status (run_callback env name value error).
Proof.
  destruct name; cbn [run_callback];
    unfold rm_cmd_parse_lint_types, rm_cmd_parse_limit_sizes, rm_cmd_parse_algorithm,
      rm_cmd_parse_small_output, rm_cmd_parse_large_output, rm_cmd_parse_output_pair,
      rm_cmd_parse_paranoid_mem, rm_cmd_parse_timestamp_file, rm_cmd_parse_timestamp,
      rm_cmd_parse_clamp_low, rm_cmd_parse_clamp_top, rm_cmd_parse_clamp_option,
      rm_cmd_parse_clamp_factor, rm_cmd_parse_clamp_offset,
      rm_cmd_parse_config, rm_cmd_parse_config_pair, rm_cmd_parse_cache,
      rm_cmd_parse_progress, rm_cmd_parse_no_progress, rm_cmd_parse_loud,
      rm_cmd_parse_quiet, rm_cmd_parse_paranoid, rm_cmd_parse_less_paranoid,
      rm_cmd_set_paranoia_from_cnt, rm_cmd_set_verbosity_from_cnt,
      rm_cmd_parse_merge_directories, rm_cmd_show_help, rm_cmd_show_version;
    repeat first [apply lint_loop_exits | exits_step].
Qed.

Lemma parse_arg_exits (entry : GOptionEntry) (value : option string) (error : GError) :
  exits parser_status (parse_arg env entry value error).
Proof.
  unfold parse_arg.
  destruct (arg entry), (arg_data entry), value;
    repeat first [apply callback_exits | exits_step].
Qed.

Lemma option_parser_exits (tokens : list Token) :
  forall (error : GError) (paths_ : list string),
    exits parser_status (g_option_context_parse env tokens error paths_).
Proof.
  induction tokens as [|tok rest IH]; intros error paths_.
  - apply exits_ret.
  - destruct tok as [name v|name v|a]; cbn [g_option_context_parse];
      [| |apply IH];
      repeat first [apply parse_arg_exits | apply IH | exits_step].
Qed.

Lemma add_path_exits (preferred : bool) (index : Z) (path : option string) :
  exits parser_status (rm_cmd_add_path env preferred index path).
Proof. unfold rm_cmd_add_path. repeat exits_step. Qed.

Lemma set_paths_exits (args : list string) :
  exits parser_status (rm_cmd_set_paths env args).
Proof.
  intros st x st' E.
  destruct (set_paths_returns env args st) as (b & st1 & E1).
  rewrite E1 in E. discriminate E.
Qed.

(** X30: [rm_cmd_parse_args] ends the process with status 0 or with
    [EXIT_FAILURE] only. *)
Theorem parse_args_exit_statuses (argv : list string) (st st' : State F) (status : Z) :
  rm_cmd_parse_args env argv st = Exit status st' ->
  status = 0 \/ status = EXIT_FAILURE.
Proof.
  revert st status st'.
  change (exits parser_status (rm_cmd_parse_args env argv)).
  unfold rm_cmd_parse_args, rm_cmd_set_cwd, rm_cmd_set_cmdline,
    rm_cmd_set_verbosity_from_cnt, rm_cmd_set_outputs.
  repeat first [apply option_parser_exits | apply set_paths_exits | exits_step].
Qed.

End ExitStatuses.

(** ** The properties on the sample session *)

Lemma limit_sizes_result_witness :
  exists st',
    rm_cmd_parse_limit_sizes (F := Q) "1k-1m" None (Demo.start [])
    = Return (true, None) st'
    /\ minsize (settings (session st')) = 1000
    /\ maxsize (settings (session st')) = 1000000
    /\ cfg_flag st' limits_specified = true.
Proof.
  destruct (limit_sizes_result (F := Q) "1k-1m" None (Demo.start []))
    as (st' & E & Hmin & Hmax & Hl & _); [discriminate|].
  exists st'. split; [exact E|]. split; [exact Hmin|]. split; [exact Hmax|exact Hl].
Defined.

Lemma set_paths_keeps_arrays_aligned_witness :
  exists b st',
    rm_cmd_set_paths (Demo.env 0) ["a"; "//"; "/missing/b"; "c"] (Demo.start [])
    = Return b st'
    /\ List.length (paths (settings (session st')))
       = List.length (is_prefd (settings (session st'))).
Proof.
  eexists. eexists. split.
  - vm_compute. reflexivity.
  - refine (set_paths_keeps_arrays_aligned (Demo.env 0)
              ["a"; "//"; "/missing/b"; "c"] (Demo.start []) _ _ eq_refl eq_refl _).
    vm_compute. reflexivity.
Defined.

Lemma set_paths_fails_without_roots_witness :
  exists b st',
    rm_cmd_set_paths (Demo.env 0) ["//"] (Demo.start []) = Return b st'
    /\ (b = false <-> ["//"] <> [] /\ paths (settings (session st')) = []).
Proof.
  exact (set_paths_fails_without_roots (Demo.env 0) ["//"] (Demo.start [])
           eq_refl eq_refl).
Defined.

Lemma output_pair_is_split_at_first_colon_witness :
  exists st',
    rm_cmd_parse_output_pair (Demo.env 0) "json:/tmp/a:b.json" None (Demo.start [])
    = Return (true, None) st'
    /\ formatters st' = [("json", "/tmp/a:b.json")].
Proof.
  refine (proj1 (output_pair_is_split_at_first_colon (Demo.env 0) "json"
                   "/tmp/a:b.json" None (Demo.start []) eq_refl _)).
  apply Nat.ltb_lt. reflexivity.
Defined.

Lemma small_and_large_output_exclude_each_other_witness :
  exists msg st',
    bind (rm_cmd_parse_small_output (Demo.env 0) "json:out.json" None)
      (fun r1 => bind (rm_cmd_parse_large_output (Demo.env 0) "csv" (snd r1))
                   (fun r2 => rm_cmd_set_outputs (Demo.env 0) (snd r2))) (Demo.start [])
    = Return (false, Some msg) st'.
Proof.
  refine (proj1 (small_and_large_output_exclude_each_other (Demo.env 0)
                   "json:out.json" "csv" None (Demo.start []) _ _)).
  - vm_compute. lia.
  - vm_compute. lia.
Defined.

Lemma set_outputs_defaults_witness :
  exists st',
    rm_cmd_set_outputs (Demo.env 0) None (Demo.start []) = Return (true, None) st'
    /\ formatters st' = [("pretty", "stdout"); ("summary", "stdout"); ("sh", "rmlint.sh")].
Proof.
  apply (set_outputs_defaults (Demo.env 0) None (Demo.start [])).
  left. reflexivity.
Defined.

Lemma config_pair_round_trip_witness :
  exists st',
    rm_cmd_parse_config_pair "sh:cmd=rm -f a=b" (Demo.start []) = Return true st'
    /\ formatter_config st' = [("sh", "cmd", "rm -f a=b")].
Proof.
  exact (proj1 (config_pair_round_trip "sh" "cmd" "rm -f a=b" (Demo.start [])
                  eq_refl eq_refl)).
Defined.

Lemma clamp_option_sets_one_side_witness :
  exists st',
    rm_cmd_parse_clamp_option (Demo.env 0) "50%" true (Demo.start []) = Return tt st'
    /\ flag (settings (session st')) use_absolute_start_offset = false.
Proof.
  eexists. split.
  - vm_compute. reflexivity.
  - refine (proj1 (proj2 (clamp_option_sets_one_side (Demo.env 0) "50%" true
                            (Demo.start []) _ _))).
    vm_compute. reflexivity.
Defined.

Lemma loud_then_quiet_restores_verbosity_witness :
  exists st',
    bind (rm_cmd_parse_loud None) (fun r => rm_cmd_parse_quiet (snd r)) (Demo.start [])
    = Return (true, None) st'
    /\ verbosity_count (session st') = 2
    /\ verbosity (settings (session st')) = G_LOG_LEVEL_WARNING
    /\ flags (settings (session st')) = Demo.default_flags.
Proof.
  apply (loud_then_quiet_restores_verbosity None (Demo.start [])). reflexivity.
Defined.

Lemma paranoid_then_less_keeps_digest_witness :
  exists st',
    bind (rm_cmd_parse_paranoid (Demo.env 0) None)
      (fun r => rm_cmd_parse_less_paranoid (Demo.env 0) (snd r)) (Demo.start [])
    = Return (true, None) st'
    /\ paranoia_count (session st') = 0
    /\ checksum_type (settings (session st')) = RM_DIGEST_BASTARD.
Proof.
  exact (proj1 (paranoid_then_less_keeps_digest (Demo.env 0) None (Demo.start [])
                  eq_refl)).
Defined.

Lemma lint_type_sign_semantics_witness :
  exists st',
    rm_cmd_parse_lint_types "-duplicates" None (Demo.start []) = Return (true, None) st'
    /\ forall f, In f lint_flags ->
         cfg_flag st' f
         = negb (in_group {| names := ["duplicates"; "df"; "dupes"];
                             enable := [searchdup] |} f)
           && cfg_flag (Demo.start []) f.
Proof.
  exact (proj2 (proj2 (lint_type_sign_semantics "duplicates"
                         {| names := ["duplicates"; "df"; "dupes"];
                            enable := [searchdup] |}
                         None (Demo.start []) eq_refl ltac:(discriminate) eq_refl))).
Defined.

Lemma lint_types_touch_only_lint_flags_witness :
  exists r st',
    rm_cmd_parse_lint_types "all,-ed,bogus" None (Demo.start []) = Return r st'
    /\ lint_frame (Demo.start []) st'.
Proof.
  eexists. eexists. split.
  - vm_compute. reflexivity.
  - refine (lint_types_touch_only_lint_flags "all,-ed,bogus" None (Demo.start [])
              _ _ _).
    vm_compute. reflexivity.
Defined.

Lemma every_option_is_reachable_witness :
  let e := {| long_name := "no-hidden"; short_name := "R"; entry_flags := 0;
              arg := G_OPTION_ARG_NONE; arg_data := bool_field ignore_hidden |} in
  find_entry (LongOpt (long_name e) None) = Some e
  /\ (short_name e <> zero -> find_entry (ShortOpt (short_name e) None) = Some e)
  /\ is_help_option (LongOpt (long_name e) None) = false
  /\ is_help_option (ShortOpt (short_name e) None) = false.
Proof.
  refine (every_option_is_reachable _ None _ _).
  - vm_compute. tauto.
  - discriminate.
Defined.

Lemma help_and_version_end_with_status_0_witness :
  exists st',
    g_option_context_parse (Demo.env 0)
      ([Leftover "a"] ++ LongOpt "version" None :: [LongOpt "size" (Some "abc")])
      None [] (Demo.start [])
    = Exit 0 st'.
Proof.
  refine (help_and_version_end_with_status_0 (Demo.env 0) [Leftover "a"]
            [LongOpt "size" (Some "abc")] (LongOpt "version" None) None []
            (Demo.start []) _ _ _ _).
  - vm_compute. reflexivity.
  - right. left. reflexivity.
Defined.

Lemma set_paths_changes_only_the_roots_witness :
  exists b st',
    rm_cmd_set_paths (Demo.env 0) ["a"; "-"] (Demo.start ["b"]) = Return b st'
    /\ flags (settings (session st')) = Demo.default_flags
    /\ threads (settings (session st')) = 16.
Proof.
  eexists. eexists. split.
  - vm_compute. reflexivity.
  - pose proof (set_paths_changes_only_the_roots (Demo.env 0) ["a"; "-"]
                  (Demo.start ["b"]) _ _ eq_refl) as H.
    split; [exact (proj1 H)|exact (proj1 (proj2 H))].
Defined.

Lemma parse_args_accepts_only_consistent_options_witness :
  exists st',
    rm_cmd_parse_args (Demo.env 3) ["rmlint"; "a"; "-k"; "--clamp-low=10%"]
      (Demo.start []) = Return true st'
    /\ cfg_flag st' keep_all_tagged && cfg_flag st' keep_all_untagged = false
    /\ fl_leb (skip_end_factor (settings (session st')))
         (skip_start_factor (settings (session st'))) = false.
Proof.
  eexists. split.
  - vm_compute. reflexivity.
  - refine (parse_args_accepts_only_consistent_options (Demo.env 3)
              ["rmlint"; "a"; "-k"; "--clamp-low=10%"] (Demo.start []) _ _).
    vm_compute. reflexivity.
Defined.

Lemma error_left_by_an_option_is_fatal_witness :
  exists status st',
    rm_cmd_parse_args (Demo.env 3) ["rmlint"; "--algorithm=bogus"; "a"] (Demo.start [])
    = Exit status st'.
Proof.
  refine (error_left_by_an_option_is_fatal (Demo.env 3)
            ["rmlint"; "--algorithm=bogus"; "a"] (Demo.start []) _ "/home/user"
            [LongOpt "algorithm" (Some "bogus")] [Leftover "a"] _
            eq_refl eq_refl _ _).
  - vm_compute. reflexivity.
  - discriminate.
Defined.

Lemma parse_args_exit_statuses_witness :
  exists st',
    rm_cmd_parse_args (Demo.env 3) ["rmlint"; "--size=abc"] (Demo.start [])
    = Exit EXIT_FAILURE st'
    /\ (EXIT_FAILURE = 0 \/ EXIT_FAILURE = EXIT_FAILURE).
Proof.
  eexists. split.
  - vm_compute. reflexivity.
  - refine (parse_args_exit_statuses (Demo.env 3) ["rmlint"; "--size=abc"]
              (Demo.start []) _ _ _).
    vm_compute. reflexivity.
Defined.
